(** * LLM Code Deployment: a shallow embedding of the orchestration service

    The development follows the Python package [app]:
    - [models.py]             request and payload records,
    - [utils.py]              the secret registry and attachment staging,
    - [evaluation_client.py]  the delivery notifier with bounded retries,
    - [github_client.py]      the publication adapter,
    - [llm_client.py]         the generation adapter,
    - [main.py]               the request handlers and the two pipelines.

    Python exceptions are values of type [exn]; a call that may raise
    returns a [result].  Module-level dictionaries ([SECRET_STORE],
    [task_store]) are fields of an explicit [state] that every handler
    threads.  External collaborators (the HTTP endpoint of the evaluation
    service, the hosted-repository provider, the text generator, the JSON
    library) are parameters of the sections that use them. *)

From Stdlib Require Import ZArith String Ascii List Bool Lia.
From stdpp Require Import base option list gmap strings fin_maps pretty.

Set Warnings "-register-all".
Local Open Scope string_scope.
Local Open Scope list_scope.
Local Open Scope Z_scope.

(** ** Python values and exceptions *)

(** The values that [json.loads] and pydantic's [.dict()] produce. *)
Inductive pyobj :=
| PyNone
| PyBool (b : bool)
| PyInt (n : Z)
| PyStr (s : string)
| PyList (l : list pyobj)
| PyDict (d : gmap string pyobj).

(** Truth value of an object, as tested by [if not x]. *)
Definition truthy (o : pyobj) : bool :=
  match o with
  | PyNone => false
  | PyBool b => b
  | PyInt n => negb (Z.eqb n 0)
  | PyStr s => negb (String.eqb s EmptyString)
  | PyList l => match l with [] => false | _ => true end
  | PyDict d => negb (bool_decide (d = ∅))
  end.

(** The exception classes the package raises or catches.  All of them
    derive from [Exception]; [GithubException] is the provider library's
    own class, [OtherError] stands for any further subclass of
    [Exception] (for instance a transport error of the HTTP library).
    [detail] is the [detail] argument of an [HTTPException]: a literal,
    or [str(e)] of a caught exception. *)
Inductive exn :=
| HTTPException (status_code : Z) (detail : http_detail)
| GithubException (msg : string)
| KeyError (key : string)
| TypeError (msg : string)
| Exception (msg : string)
| OtherError (cls msg : string)
with http_detail :=
| Detail (s : string)
| str (e : exn).

Inductive result (A : Type) :=
| Return (a : A)
| Raise (e : exn).
Arguments Return {A} a.
Arguments Raise {A} e.

(** [except GithubException] matches this class only; [except Exception]
    and a bare [except:] match every [exn]. *)
Definition is_GithubException (e : exn) : bool :=
  match e with GithubException _ => true | _ => false end.

(** ** Computations

    A computation reads and updates a state of type [S] and returns or
    raises.  State changes made before a [raise] stay: Python has no
    rollback. *)
Definition M (S A : Type) : Type := S → result A * S.

Definition ret {S A} (a : A) : M S A := λ st, (Return a, st).
Definition raise {S A} (e : exn) : M S A := λ st, (Raise e, st).
Definition bind {S A B} (m : M S A) (k : A → M S B) : M S B :=
  λ st, match m st with
        | (Return a, st') => k a st'
        | (Raise e, st') => (Raise e, st')
        end.

(** [try: body  except <class> as e: handler e].  An exception outside
    the class passes through. *)
Definition try_except {S A} (body : M S A) (class : exn → bool)
    (handler : exn → M S A) : M S A :=
  λ st, match body st with
        | (Return a, st') => (Return a, st')
        | (Raise e, st') => if class e then handler e st' else (Raise e, st')
        end.

Definition any_Exception (e : exn) : bool := true.

Definition lift {S A} (r : result A) : M S A := λ st, (r, st).

(** [range(n)] *)
Definition range (n : Z) : list Z := Z.of_nat <$> seq 0 (Z.to_nat n).

Declare Scope py_scope.
Delimit Scope py_scope with py.
Notation "x <- m ;; k" := (bind m (λ x, k))
  (at level 100, m at next level, right associativity) : py_scope.
Notation "m ;;; k" := (bind m (λ _, k))
  (at level 100, right associativity) : py_scope.
Local Open Scope py_scope.

(** ** models.py *)

Record Attachment := { name : string; url : string }.

Module BuildRequest.
Record t := {
  email : string;
  secret : string;
  task : string;
  round : Z;
  nonce : string;
  brief : string;
  checks : list string;
  evaluation_url : string;
  attachments : list Attachment }.

(** [round: int = Field(ge=1, le=2)] *)
Definition valid (r : t) : Prop := 1 <= round r <= 2.
End BuildRequest.

Module RevisionRequest.
Record t := {
  email : string;
  secret : string;
  task : string;
  round : Z;
  nonce : string;
  brief : string;
  checks : list string;
  evaluation_url : string;
  attachments : list Attachment }.

(** [round: int = Field(ge=2, le=2)] *)
Definition valid (r : t) : Prop := 2 <= round r <= 2.
End RevisionRequest.

Record EvaluationResponse := {
  er_email : string;
  er_task : string;
  er_round : Z;
  er_nonce : string;
  repo_url : string;
  commit_sha : string;
  pages_url : string }.

(** [BaseModel.dict()]: one key per declared field, nothing else. *)
Definition Attachment_dict (a : Attachment) : pyobj :=
  PyDict (<["name" := PyStr (name a)]> (<["url" := PyStr (url a)]> ∅)).

Definition BuildRequest_dict (r : BuildRequest.t) : gmap string pyobj :=
  <["email" := PyStr (BuildRequest.email r)]>
  (<["secret" := PyStr (BuildRequest.secret r)]>
  (<["task" := PyStr (BuildRequest.task r)]>
  (<["round" := PyInt (BuildRequest.round r)]>
  (<["nonce" := PyStr (BuildRequest.nonce r)]>
  (<["brief" := PyStr (BuildRequest.brief r)]>
  (<["checks" := PyList (PyStr <$> BuildRequest.checks r)]>
  (<["evaluation_url" := PyStr (BuildRequest.evaluation_url r)]>
  (<["attachments" := PyList (Attachment_dict <$> BuildRequest.attachments r)]>
   ∅)))))))).

Definition RevisionRequest_dict (r : RevisionRequest.t) : gmap string pyobj :=
  <["email" := PyStr (RevisionRequest.email r)]>
  (<["secret" := PyStr (RevisionRequest.secret r)]>
  (<["task" := PyStr (RevisionRequest.task r)]>
  (<["round" := PyInt (RevisionRequest.round r)]>
  (<["nonce" := PyStr (RevisionRequest.nonce r)]>
  (<["brief" := PyStr (RevisionRequest.brief r)]>
  (<["checks" := PyList (PyStr <$> RevisionRequest.checks r)]>
  (<["evaluation_url" := PyStr (RevisionRequest.evaluation_url r)]>
  (<["attachments" := PyList (Attachment_dict <$> RevisionRequest.attachments r)]>
   ∅)))))))).

(** ** Process state and the handler monad *)

(** One entry of [task_store]: [{"request": ..., "status": ...}]. *)
Record task_record := {
  request : gmap string pyobj;
  status : string }.

(** A unit of work handed to [background_tasks.add_task]. *)
Inductive background_task :=
| BuildTask (r : BuildRequest.t)
| RevisionTask (r : RevisionRequest.t).

(** What a run does to the outside world, in program order. *)
Inductive event :=
| EvGenerate (brief : string) (checks : list string)
             (attachments : list string) (existing_repo : option pyobj)
| EvCreateRepository (repo_name : string)
| EvUpdateRepository (repo_name : pyobj)
| EvLatestCommit (repo_name : pyobj)
| EvPost (evaluation_url : string) (eval_data : EvaluationResponse)
| EvSleep (delay : Z)
| EvSetStatus (task_id : string) (new_status : string).

(** The module-level dictionaries of [utils.py] and [main.py], the tasks
    scheduled and not yet run, the number of UUIDs drawn so far, and the
    events observed so far. *)
Record state := {
  SECRET_STORE : gmap string string;
  task_store : gmap string task_record;
  scheduled : list background_task;
  uuids_drawn : nat;
  log : list event }.

Definition init : state :=
  {| SECRET_STORE := ∅; task_store := ∅; scheduled := [];
     uuids_drawn := 0; log := [] |}.

Definition set_SECRET_STORE (f : gmap string string → gmap string string)
    (st : state) : state :=
  {| SECRET_STORE := f (SECRET_STORE st); task_store := task_store st;
     scheduled := scheduled st; uuids_drawn := uuids_drawn st; log := log st |}.

Definition set_task_store (f : gmap string task_record → gmap string task_record)
    (st : state) : state :=
  {| SECRET_STORE := SECRET_STORE st; task_store := f (task_store st);
     scheduled := scheduled st; uuids_drawn := uuids_drawn st; log := log st |}.

Definition set_scheduled (f : list background_task → list background_task)
    (st : state) : state :=
  {| SECRET_STORE := SECRET_STORE st; task_store := task_store st;
     scheduled := f (scheduled st); uuids_drawn := uuids_drawn st; log := log st |}.

Definition set_uuids_drawn (f : nat → nat) (st : state) : state :=
  {| SECRET_STORE := SECRET_STORE st; task_store := task_store st;
     scheduled := scheduled st; uuids_drawn := f (uuids_drawn st); log := log st |}.

Definition set_log (f : list event → list event) (st : state) : state :=
  {| SECRET_STORE := SECRET_STORE st; task_store := task_store st;
     scheduled := scheduled st; uuids_drawn := uuids_drawn st; log := f (log st) |}.

(** The state after the events [evs] have been observed. *)
Definition observe (evs : list event) (st : state) : state :=
  set_log (λ l, l ++ evs) st.

Definition emit (e : event) : M state unit :=
  λ st, (Return tt, observe [e] st).

(** ** utils.py *)

(** [verify_secret]: trust on first use. *)
Definition verify_secret (email secret : string) : M state bool :=
  λ st,
    let expected_secret := SECRET_STORE st !! email in
    match expected_secret with
    | None => (Return true, set_SECRET_STORE (<[email := secret]>) st)
    | Some expected => (Return (String.eqb expected secret), st)
    end.

Section save_attachments.
(** The body of the [try] once the URL is known to be a data URL:
    split, base64-decode, write a temporary file; the path written, or
    the exception.  File-system and codec work, kept abstract. *)
Variable write_temp_file : Attachment → result string.

Fixpoint save_attachments (attachments : list Attachment) : list string :=
  match attachments with
  | [] => []
  | attachment :: rest =>
      if String.prefix "data:" (url attachment) then
        match write_temp_file attachment with
        | Return path => path :: save_attachments rest
        | Raise _ => save_attachments rest
        end
      else save_attachments rest
  end.
End save_attachments.

(** ** evaluation_client.py *)

(** What one POST to the evaluation service comes to: a response with a
    status code, or an exception of the HTTP library (connection refused,
    time-out, a closed session). *)
Inductive outcome :=
| Response (status : Z)
| Failed (e : exn).

Module EvaluationClient.
Section EvaluationClient.
(** The remote endpoint: the outcome of the POST made by the attempt
    with the given index. *)
Variable post : string → EvaluationResponse → Z → outcome.

Definition max_retries : Z := 5.
Definition base_delay : Z := 1.

(** The [try] block of one loop iteration: [true] stands for the
    [return True] inside it. *)
Definition try_post (eval_data : EvaluationResponse) (evaluation_url : string)
    (attempt : Z) : M state bool :=
  try_except
    (emit (EvPost evaluation_url eval_data) ;;;
     match post evaluation_url eval_data attempt with
     | Response status => if status =? 200 then ret true else ret false
     | Failed e => raise e
     end)
    any_Exception
    (λ _, ret false).

Fixpoint submit_loop (eval_data : EvaluationResponse) (evaluation_url : string)
    (attempts : list Z) : M state bool :=
  match attempts with
  | [] => ret false
  | attempt :: rest =>
      returned <- try_post eval_data evaluation_url attempt ;;
      if returned : bool then ret true
      else
        (if attempt <? max_retries - 1
         then emit (EvSleep (base_delay * 2 ^ attempt))
         else ret tt) ;;;
        submit_loop eval_data evaluation_url rest
  end.

Definition submit_evaluation (eval_data : EvaluationResponse)
    (evaluation_url : string) : M state bool :=
  submit_loop eval_data evaluation_url (range max_retries).
End EvaluationClient.

(** The events of a submission whose first [k - 1] attempts fail and
    which makes [k] attempts in all: a POST and a pause for each failed
    attempt that is retried, then the last POST. *)
Definition attempts (evaluation_url : string) (eval_data : EvaluationResponse)
    (k : nat) : list event :=
  flat_map (λ i, [EvPost evaluation_url eval_data; EvSleep (2 ^ Z.of_nat i)])
           (seq 0 (k - 1))
  ++ [EvPost evaluation_url eval_data].
End EvaluationClient.

Definition is_post (e : event) : bool :=
  match e with EvPost _ _ => true | _ => false end.
Definition delays (evs : list event) : list Z :=
  omap (λ e, match e with EvSleep d => Some d | _ => None end) evs.

(** ** github_client.py *)

(** *** The hosted-repository provider

    The part of the provider that the client drives through the
    [github] library: repositories by full name, each with its files on
    branch [main] and the messages of its commits, oldest first.  Every
    API call may also fail for a reason of its own (rate limit, network):
    [faults] lists what the coming calls will meet, [None] or nothing for
    a call that goes through. *)
Module GitHub.
Record repository := {
  html_url : string;
  files : gmap string string;
  commits : list string }.

Record provider := {
  repos : gmap string repository;
  faults : list (option exn) }.

Record repo_handle := { full_name : string; handle_url : string }.

Definition api_call : M provider unit :=
  λ gh, match faults gh with
        | Some e :: rest => (Raise e, {| repos := repos gh; faults := rest |})
        | None :: rest => (Return tt, {| repos := repos gh; faults := rest |})
        | [] => (Return tt, gh)
        end.

Definition read {A} (f : gmap string repository → result A) : M provider A :=
  λ gh, (f (repos gh), gh).

Definition not_found {A} : result A := Raise (GithubException "404 Not Found").

(** One commit on [main] that sets the content of one file. *)
Definition commit_file (filename message content : string)
    (r : repository) : repository :=
  {| html_url := html_url r;
     files := <[filename := content]> (files r);
     commits := commits r ++ [message] |}.

Definition write (repo : string) (f : repository → result repository)
    : M provider unit :=
  λ gh, match repos gh !! repo with
        | None => (not_found, gh)
        | Some r =>
            match f r with
            | Return r' =>
                (Return tt, {| repos := <[repo := r']> (repos gh);
                               faults := faults gh |})
            | Raise e => (Raise e, gh)
            end
        end.

(** [Github.get_repo] *)
Definition get_repo (name : string) : M provider repo_handle :=
  api_call ;;;
  read (λ rs, match rs !! name with
              | Some r => Return {| full_name := name; handle_url := html_url r |}
              | None => not_found
              end).

(** [Repository.get_contents(path, ref="main")]; the blob identifier
    ([.sha]) of a file is represented by its content. *)
Definition get_contents (repo : repo_handle) (path : string) : M provider string :=
  api_call ;;;
  read (λ rs, match rs !! full_name repo with
              | Some r => match files r !! path with
                          | Some content => Return content
                          | None => not_found
                          end
              | None => not_found
              end).

(** [Repository.update_file(path, message, content, sha, branch="main")]:
    the file must exist and [sha] must name its current blob. *)
Definition update_file (repo : repo_handle) (path message content sha : string)
    : M provider unit :=
  api_call ;;;
  write (full_name repo)
    (λ r, match files r !! path with
          | Some current =>
              if String.eqb current sha
              then Return (commit_file path message content r)
              else Raise (GithubException "409 Conflict")
          | None => not_found
          end).

(** [Repository.create_file(path, message, content, branch="main")]:
    the file must not exist yet. *)
Definition create_file (repo : repo_handle) (path message content : string)
    : M provider unit :=
  api_call ;;;
  write (full_name repo)
    (λ r, match files r !! path with
          | Some _ => Raise (GithubException "422 Unprocessable Entity")
          | None => Return (commit_file path message content r)
          end).

Section head_commit.
(** The identifier the provider gives to the head commit of a history. *)
Variable commit_id : list string → string.

(** [Repository.get_branch("main").commit.sha]: a repository without a
    commit has no branch. *)
Definition get_branch_commit_sha (repo : repo_handle) : M provider string :=
  api_call ;;;
  read (λ rs, match rs !! full_name repo with
              | Some r => match commits r with
                          | [] => not_found
                          | _ :: _ => Return (commit_id (commits r))
                          end
              | None => not_found
              end).
End head_commit.
End GitHub.

(** [for x in xs: body x] *)
Fixpoint for_each {S A} (body : A → M S unit) (xs : list A) : M S unit :=
  match xs with
  | [] => ret tt
  | x :: rest => body x ;;; for_each body rest
  end.

Module GitHubClient.
Section GitHubClient.
(** [self.user.login] *)
Variable login : string.
Variable commit_id : list string → string.

(** The body of the loop of [update_repository]. *)
Definition upsert_file (repo : GitHub.repo_handle) (item : string * string)
    : M GitHub.provider unit :=
  let '(filename, content) := item in
  try_except
    (file_contents_sha <- GitHub.get_contents repo filename ;;
     GitHub.update_file repo filename ("Update " +:+ filename) content
       file_contents_sha)
    any_Exception
    (λ _, GitHub.create_file repo filename ("Add " +:+ filename) content).

(** [code.items()] is the list of the dictionary's items; the order in
    which Python yields them is not modelled. *)
Definition update_repository (name : string) (code : gmap string string)
    : M GitHub.provider (string * string) :=
  try_except
    (repo <- GitHub.get_repo (login +:+ "/" +:+ name) ;;
     for_each (upsert_file repo) (map_to_list code) ;;;
     let repo_url := GitHub.handle_url repo in
     let pages_url := "https://" +:+ login +:+ ".github.io/" +:+ name in
     ret (repo_url, pages_url))
    is_GithubException
    (λ e, raise e).

(** The [try] block of [get_latest_commit]: the provider lookup. *)
Definition latest_commit_lookup (repo_name : string) : M GitHub.provider string :=
  repo <- GitHub.get_repo (login +:+ "/" +:+ repo_name) ;;
  GitHub.get_branch_commit_sha commit_id repo.

Definition get_latest_commit (repo_name : string) : M GitHub.provider string :=
  try_except (latest_commit_lookup repo_name)
    is_GithubException
    (λ _, ret "unknown").
End GitHubClient.
End GitHubClient.

(** ** Python string operations used by llm_client.py *)

Definition dq : string := String (Ascii.ascii_of_nat 34) EmptyString.
Definition nl : string := String (Ascii.ascii_of_nat 10) EmptyString.

(** [chr(10).join(xs)] *)
Definition lines (xs : list string) : string := String.concat nl xs.

Definition len (s : string) : Z := Z.of_nat (String.length s).

(** [s.find(c)] for a one-character [c], searching from index [i]. *)
Fixpoint find_from (s : string) (c : ascii) (i : Z) : Z :=
  match s with
  | EmptyString => -1
  | String a rest => if Ascii.eqb a c then i else find_from rest c (i + 1)
  end.
Definition find (s : string) (c : ascii) : Z := find_from s c 0.

(** [s.rfind(c)]: the scan keeps the last index seen. *)
Fixpoint rfind_from (s : string) (c : ascii) (i last : Z) : Z :=
  match s with
  | EmptyString => last
  | String a rest => rfind_from rest c (i + 1) (if Ascii.eqb a c then i else last)
  end.
Definition rfind (s : string) (c : ascii) : Z := rfind_from s c 0 (-1).

(** [s[start:stop]]: a negative index counts from the end, and both
    indices are clipped to the string. *)
Definition clip (n i : Z) : Z := if i <? 0 then Z.max (i + n) 0 else Z.min i n.
Definition slice (s : string) (start stop : Z) : string :=
  let lo := clip (len s) start in
  let hi := clip (len s) stop in
  String.substring (Z.to_nat lo) (Z.to_nat (hi - lo)) s.

(** [sub in s] *)
Fixpoint contains_str (s sub : string) : bool :=
  String.prefix sub s ||
  match s with
  | EmptyString => false
  | String _ rest => contains_str rest sub
  end.

(** [key in container] and [container[key] = v] for a string key. *)
Definition py_contains (container : pyobj) (key : string) : result bool :=
  match container with
  | PyDict d => Return (bool_decide (is_Some (d !! key)))
  | PyList l =>
      Return (existsb (λ o, match o with
                            | PyStr s => String.eqb s key
                            | _ => false
                            end) l)
  | PyStr s => Return (contains_str s key)
  | _ => Raise (TypeError "argument is not iterable")
  end.

Definition py_setitem (container : pyobj) (key : string) (v : pyobj)
    : result pyobj :=
  match container with
  | PyDict d => Return (PyDict (<[key := v]> d))
  | PyList _ => Raise (TypeError "list indices must be integers or slices, not str")
  | _ => Raise (TypeError "object does not support item assignment")
  end.

(** ** llm_client.py *)

Module LLMClient.
Definition index_html_template : string :=
  lines [
    "<!DOCTYPE html>";
    "<html lang=" +:+ dq +:+ "en" +:+ dq +:+ ">";
    "<head>";
    "    <meta charset=" +:+ dq +:+ "UTF-8" +:+ dq +:+ ">";
    "    <meta name=" +:+ dq +:+ "viewport" +:+ dq +:+ " content=" +:+ dq +:+ "width=device-width, initial-scale=1.0" +:+ dq +:+ ">";
    "    <title>Generated App</title>";
    "    <link rel=" +:+ dq +:+ "stylesheet" +:+ dq +:+ " href=" +:+ dq +:+ "style.css" +:+ dq +:+ ">";
    "</head>";
    "<body>";
    "    <div class=" +:+ dq +:+ "container" +:+ dq +:+ ">";
    "        <h1>Generated Application</h1>";
    "        <div id=" +:+ dq +:+ "app-content" +:+ dq +:+ ">";
    "            <p>Application content will be loaded here.</p>";
    "        </div>";
    "    </div>";
    "    <script src=" +:+ dq +:+ "script.js" +:+ dq +:+ "></script>";
    "</body>";
    "</html>"
  ].

Definition style_css_template : string :=
  lines [
    "/* Generated Application Styles */";
    "body {";
    "    font-family: Arial, sans-serif;";
    "    margin: 0;";
    "    padding: 20px;";
    "    background-color: #f5f5f5;";
    "}";
    EmptyString;
    ".container {";
    "    max-width: 800px;";
    "    margin: 0 auto;";
    "    background: white;";
    "    padding: 20px;";
    "    border-radius: 8px;";
    "    box-shadow: 0 2px 4px rgba(0,0,0,0.1);";
    "}";
    EmptyString;
    "h1 {";
    "    color: #333;";
    "    text-align: center;";
    "}";
    EmptyString;
    "#app-content {";
    "    margin-top: 20px;";
    "    padding: 20px;";
    "    border: 1px solid #ddd;";
    "    border-radius: 4px;";
    "}"
  ].

Definition script_js_template : string :=
  lines [
    "// Generated Application JavaScript";
    "document.addEventListener('DOMContentLoaded', function() {";
    "    console.log('Generated application loaded');";
    "    ";
    "    // Basic functionality";
    "    const appContent = document.getElementById('app-content');";
    "    if (appContent) {";
    "        appContent.innerHTML = '<p>Application is running successfully!</p>';";
    "    }";
    "});"
  ].

Definition LICENSE_template : string :=
  lines [
    "MIT License";
    EmptyString;
    "Copyright (c) 2024 Generated Application";
    EmptyString;
    "Permission is hereby granted, free of charge, to any person obtaining a copy";
    "of this software and associated documentation files (the " +:+ dq +:+ "Software" +:+ dq +:+ "), to deal";
    "in the Software without restriction, including without limitation the rights";
    "to use, copy, modify, merge, publish, distribute, sublicense, and/or sell";
    "copies of the Software, and to permit persons to whom the Software is";
    "furnished to do so, subject to the following conditions:";
    EmptyString;
    "The above copyright notice and this permission notice shall be included in all";
    "copies or substantial portions of the Software.";
    EmptyString;
    "THE SOFTWARE IS PROVIDED " +:+ dq +:+ "AS IS" +:+ dq +:+ ", WITHOUT WARRANTY OF ANY KIND, EXPRESS OR";
    "IMPLIED, INCLUDING BUT NOT LIMITED TO THE WARRANTIES OF MERCHANTABILITY,";
    "FITNESS FOR A PARTICULAR PURPOSE AND NONINFRINGEMENT. IN NO EVENT SHALL THE";
    "AUTHORS OR COPYRIGHT HOLDERS BE LIABLE FOR ANY CLAIM, DAMAGES OR OTHER";
    "LIABILITY, WHETHER IN AN ACTION OF CONTRACT, TORT OR OTHERWISE, ARISING FROM,";
    "OUT OF OR IN CONNECTION WITH THE SOFTWARE OR THE USE OR OTHER DEALINGS IN THE";
    "SOFTWARE."
  ].

Definition README_template (brief : string) : string :=
  lines [
    "# Generated Application";
    EmptyString;
    "## Description";
    brief;
    EmptyString;
    "## Setup";
    "1. Clone this repository";
    "2. Open `index.html` in a web browser";
    "3. No build process required";
    EmptyString;
    "## Features";
    "- Responsive design";
    "- Modern UI components";
    "- Cross-browser compatible";
    EmptyString;
    "## License";
    "MIT License";
    EmptyString
  ].

(** [templates.get(filename, f"# {filename}\n\nContent for {filename}")] *)
Definition _get_template_file (filename brief : string) : string :=
  let templates : gmap string string :=
    <["README.md" := README_template brief]>
    (<["index.html" := index_html_template]>
    (<["style.css" := style_css_template]>
    (<["script.js" := script_js_template]>
    (<["LICENSE" := LICENSE_template]> ∅)))) in
  default ("# " +:+ filename +:+ nl +:+ nl +:+ "Content for " +:+ filename)
          (templates !! filename).

Definition _generate_template_code_dict (brief : string) : gmap string pyobj :=
  <["README.md" := PyStr (lines ["# Generated App"; EmptyString; brief;
                                 EmptyString; "## Setup";
                                 "Open index.html in a browser."])]>
  (<["index.html" := PyStr (_get_template_file "index.html" brief)]>
  (<["style.css" := PyStr (_get_template_file "style.css" brief)]>
  (<["script.js" := PyStr (_get_template_file "script.js" brief)]>
  (<["LICENSE" := PyStr (_get_template_file "LICENSE" brief)]> ∅)))).

Definition _generate_fallback_code (brief : string) (checks : list string)
    : gmap string pyobj :=
  _generate_template_code_dict brief.

Definition _build_prompt (brief : string) (checks attachments : list string)
    (existing_repo : option string) : string :=
  lines [
    EmptyString;
    "        Create a complete web application based on this brief:";
    "        ";
    "        BRIEF: " +:+ brief;
    "        ";
    "        REQUIREMENTS:";
    "        " +:+ lines ((λ check, "- " +:+ check) <$> checks);
    "        ";
    "        " +:+ match existing_repo with
                   | Some repo =>
                       if truthy (PyStr repo)
                       then "EXISTING REPOSITORY: " +:+ repo
                       else "NEW APPLICATION"
                   | None => "NEW APPLICATION"
                   end;
    "        ";
    "        Generate the following files in JSON format:";
    "        {";
    "            " +:+ dq +:+ "README.md" +:+ dq +:+ ": " +:+ dq +:+ "Complete README with setup instructions" +:+ dq +:+ ",";
    "            " +:+ dq +:+ "index.html" +:+ dq +:+ ": " +:+ dq +:+ "Main HTML file" +:+ dq +:+ ",";
    "            " +:+ dq +:+ "style.css" +:+ dq +:+ ": " +:+ dq +:+ "CSS styles" +:+ dq +:+ ",";
    "            " +:+ dq +:+ "script.js" +:+ dq +:+ ": " +:+ dq +:+ "JavaScript functionality" +:+ dq +:+ ",";
    "            " +:+ dq +:+ "LICENSE" +:+ dq +:+ ": " +:+ dq +:+ "MIT License content" +:+ dq;
    "        }";
    "        ";
    "        Ensure the code is:";
    "        - Complete and runnable";
    "        - Well-documented";
    "        - Follows best practices";
    "        - Meets all requirements";
    "        ";
    "        Return only valid JSON:";
    "        "
  ].

Definition required_files : list string :=
  ["README.md"; "index.html"; "style.css"; "script.js"; "LICENSE"].

Section LLMClient.
(** [self.generator]: [None] when the model failed to load; otherwise
    the text-generation pipeline, taken together with the look-up
    [result[0]['generated_text']] of its answer. *)
Variable generator : option (string → result string).
(** [json.loads] and [json.dumps] of the standard library. *)
Variable json_loads : string → result pyobj.
Variable json_dumps : pyobj → string.

Definition _generate_template_code (brief : string) (checks : list string)
    : string :=
  json_dumps (PyDict (_generate_template_code_dict brief)).

(** The loop over [required_files]. *)
Fixpoint ensure_required (brief : string) (code_files : pyobj)
    (files : list string) : M unit pyobj :=
  match files with
  | [] => ret code_files
  | file :: rest =>
      present <- lift (py_contains code_files file) ;;
      if present : bool then ensure_required brief code_files rest
      else
        code_files' <- lift (py_setitem code_files file
                               (PyStr (_get_template_file file brief))) ;;
        ensure_required brief code_files' rest
  end.

Definition _parse_generated_code (generated_text brief : string) : M unit pyobj :=
  code_files <-
    try_except
      (let json_start := find generated_text "{" in
       let json_end := rfind generated_text "}" + 1 in
       let json_str := slice generated_text json_start json_end in
       lift (json_loads json_str))
      any_Exception
      (λ _, ret (PyDict (_generate_template_code_dict brief))) ;;
  ensure_required brief code_files required_files.

Definition generate_app_code (brief : string) (checks attachments : list string)
    (existing_repo : option string) : M unit pyobj :=
  let prompt := _build_prompt brief checks attachments existing_repo in
  try_except
    (generated_text <-
       match generator with
       | Some generate => lift (generate prompt)
       | None => ret (_generate_template_code brief checks)
       end ;;
     _parse_generated_code generated_text brief)
    any_Exception
    (λ _, ret (PyDict (_generate_fallback_code brief checks))).
End LLMClient.
End LLMClient.

(** ** main.py *)

Module Main.
(** [JSONResponse(status_code=..., content={"status": ..., "task_id": ...})] *)
Record response := JSONResponse {
  status_code : Z;
  content : gmap string string }.

(** The status code the framework answers with: that of the response,
    that of a raised [HTTPException], 500 for any other exception. *)
Definition http_status (r : result response) : Z :=
  match r with
  | Return resp => status_code resp
  | Raise (HTTPException code _) => code
  | Raise _ => 500
  end.

(** [f"{request.task}-{request.round}"] *)
Definition task_id_of (task : string) (round : Z) : string :=
  task +:+ "-" +:+ pretty round.

(** [task_store[task_id] = record] *)
Definition store_task (task_id : string) (record : task_record) : M state unit :=
  λ st, (Return tt, set_task_store (<[task_id := record]>) st).

(** [task_store[task_id]["request"]] *)
Definition stored_request (task_id : string) : M state (gmap string pyobj) :=
  λ st, match task_store st !! task_id with
        | Some record => (Return (request record), st)
        | None => (Raise (KeyError task_id), st)
        end.

(** [task_store[task_id]["status"] = new_status] *)
Definition set_status (task_id new_status : string) : M state unit :=
  λ st, match task_store st !! task_id with
        | Some record =>
            (Return tt,
             observe [EvSetStatus task_id new_status]
               (set_task_store
                  (<[task_id := {| request := request record;
                                   status := new_status |}]>) st))
        | None => (Raise (KeyError task_id), st)
        end.

(** [background_tasks.add_task(...)] *)
Definition add_task (t : background_task) : M state unit :=
  λ st, (Return tt, set_scheduled (λ l, l ++ [t]) st).

Definition accepted (task_id : string) : response :=
  JSONResponse 200 (<["status" := "accepted"]> (<["task_id" := task_id]> ∅)).

(** The [try] block of [deploy_app]. *)
Definition deploy_app_try (request : BuildRequest.t) : M state response :=
  verified <- verify_secret (BuildRequest.email request)
                            (BuildRequest.secret request) ;;
  (if negb verified
   then raise (HTTPException 401 (Detail "Invalid secret"))
   else ret tt) ;;;
  let task_id := task_id_of (BuildRequest.task request)
                            (BuildRequest.round request) in
  store_task task_id {| request := BuildRequest_dict request;
                        status := "processing" |} ;;;
  add_task (BuildTask request) ;;;
  ret (accepted task_id).

Definition deploy_app (request : BuildRequest.t) : M state response :=
  try_except (deploy_app_try request)
    any_Exception
    (λ e, raise (HTTPException 500 (str e))).

(** [if round1_task_id not in task_store: raise ...] *)
Definition check_round1 (round1_task_id : string) : M state unit :=
  λ st, match task_store st !! round1_task_id with
        | Some _ => (Return tt, st)
        | None => (Raise (HTTPException 404 (Detail "Original task not found")), st)
        end.

(** The [try] block of [revise_app]. *)
Definition revise_app_try (request : RevisionRequest.t) : M state response :=
  verified <- verify_secret (RevisionRequest.email request)
                            (RevisionRequest.secret request) ;;
  (if negb verified
   then raise (HTTPException 401 (Detail "Invalid secret"))
   else ret tt) ;;;
  let round1_task_id := RevisionRequest.task request +:+ "-1" in
  check_round1 round1_task_id ;;;
  let task_id := task_id_of (RevisionRequest.task request)
                            (RevisionRequest.round request) in
  store_task task_id {| request := RevisionRequest_dict request;
                        status := "processing" |} ;;;
  add_task (RevisionTask request) ;;;
  ret (accepted task_id).

Definition revise_app (request : RevisionRequest.t) : M state response :=
  try_except (revise_app_try request)
    any_Exception
    (λ e, raise (HTTPException 500 (str e))).

(** [get_task_status]: no [try] around the [raise] here. *)
Definition get_task_status (task_id : string)
    : M state (string * string * gmap string pyobj) :=
  λ st, match task_store st !! task_id with
        | None => (Raise (HTTPException 404 (Detail "Task not found")), st)
        | Some record => (Return (task_id, status record, request record), st)
        end.

Section pipelines.
(** The collaborators of the two pipelines.  [code_t] is the type of a
    generated file set. *)
Variable code_t : Type.
Variable write_temp_file : Attachment → result string.
(** [uuid.uuid4().hex] of the n-th UUID drawn by the process. *)
Variable uuid4_hex : nat → string.
Variable generate_app_code :
  string → list string → list string → option pyobj → result code_t.
Variable create_repository : string → code_t → string → result (string * string).
Variable update_repository : pyobj → code_t → result (string * string).
Variable get_latest_commit : pyobj → result string.
Variable post : string → EvaluationResponse → Z → outcome.

Definition uuid4 : M state string :=
  λ st, (Return (uuid4_hex (uuids_drawn st)), set_uuids_drawn S st).

Definition process_build_request (request : BuildRequest.t) : M state unit :=
  let task_id := task_id_of (BuildRequest.task request)
                            (BuildRequest.round request) in
  try_except
    (let attachment_paths :=
       save_attachments write_temp_file (BuildRequest.attachments request) in
     emit (EvGenerate (BuildRequest.brief request) (BuildRequest.checks request)
                      attachment_paths None) ;;;
     generated_code <-
       lift (generate_app_code (BuildRequest.brief request)
               (BuildRequest.checks request) attachment_paths None) ;;
     hex <- uuid4 ;;
     let repo_name :=
       BuildRequest.task request +:+ "-" +:+ String.substring 0 8 hex in
     emit (EvCreateRepository repo_name) ;;;
     urls <- lift (create_repository repo_name generated_code
                     ("Generated app for: "
                      +:+ String.substring 0 100 (BuildRequest.brief request)
                      +:+ "...")) ;;
     let '(repo_url, pages_url) := urls in
     emit (EvLatestCommit (PyStr repo_name)) ;;;
     commit_sha <- lift (get_latest_commit (PyStr repo_name)) ;;
     let eval_response :=
       {| er_email := BuildRequest.email request;
          er_task := BuildRequest.task request;
          er_round := BuildRequest.round request;
          er_nonce := BuildRequest.nonce request;
          repo_url := repo_url;
          commit_sha := commit_sha;
          pages_url := pages_url |} in
     success <- EvaluationClient.submit_evaluation post eval_response
                  (BuildRequest.evaluation_url request) ;;
     if success : bool
     then set_status task_id "completed"
     else set_status task_id "evaluation_failed")
    any_Exception
    (λ _, set_status task_id "failed").

Definition process_revision_request (request : RevisionRequest.t) : M state unit :=
  let task_id := task_id_of (RevisionRequest.task request)
                            (RevisionRequest.round request) in
  try_except
    (let round1_task_id := RevisionRequest.task request +:+ "-1" in
     original_request <- stored_request round1_task_id ;;
     let repo_name := default PyNone (original_request !! "repo_name") in
     (if negb (truthy repo_name)
      then raise (Exception "Original repository not found")
      else ret tt) ;;;
     let attachment_paths :=
       save_attachments write_temp_file (RevisionRequest.attachments request) in
     emit (EvGenerate (RevisionRequest.brief request)
                      (RevisionRequest.checks request)
                      attachment_paths (Some repo_name)) ;;;
     updated_code <-
       lift (generate_app_code (RevisionRequest.brief request)
               (RevisionRequest.checks request) attachment_paths
               (Some repo_name)) ;;
     emit (EvUpdateRepository repo_name) ;;;
     urls <- lift (update_repository repo_name updated_code) ;;
     let '(repo_url, pages_url) := urls in
     emit (EvLatestCommit repo_name) ;;;
     commit_sha <- lift (get_latest_commit repo_name) ;;
     let eval_response :=
       {| er_email := RevisionRequest.email request;
          er_task := RevisionRequest.task request;
          er_round := RevisionRequest.round request;
          er_nonce := RevisionRequest.nonce request;
          repo_url := repo_url;
          commit_sha := commit_sha;
          pages_url := pages_url |} in
     success <- EvaluationClient.submit_evaluation post eval_response
                  (RevisionRequest.evaluation_url request) ;;
     if success : bool
     then set_status task_id "completed"
     else set_status task_id "evaluation_failed")
    any_Exception
    (λ _, set_status task_id "failed").

Definition run_task (t : background_task) : M state unit :=
  match t with
  | BuildTask request => process_build_request request
  | RevisionTask request => process_revision_request request
  end.

(** The life of the process: validated requests arrive at the two
    handlers, and scheduled tasks run, in any order.  A run reads the
    dictionaries when it starts and writes once when it ends; it is one
    step here. *)
Inductive step : state → state → Prop :=
| step_deploy request st :
    BuildRequest.valid request →
    step st (snd (deploy_app request st))
| step_revise request st :
    RevisionRequest.valid request →
    step st (snd (revise_app request st))
| step_run t before after st :
    scheduled st = before ++ t :: after →
    step st (snd (run_task t (set_scheduled (λ _, before ++ after) st))).

Definition reachable : state → Prop := rtc step init.
End pipelines.
End Main.

(** * The rest of the package *)

(** ** Python sequence operations used by utils.py *)

(** [s.split(sep)] for a one-character separator: the pieces between
    the separators, at least one. *)
Fixpoint str_split (s : string) (sep : ascii) : list string :=
  match s with
  | EmptyString => [EmptyString]
  | String a rest =>
      if Ascii.eqb a sep then EmptyString :: str_split rest sep
      else match str_split rest sep with
           | piece :: pieces => String a piece :: pieces
           | [] => [String a EmptyString]
           end
  end.

(** [s.split(sep, 1)]: split at the first separator only. *)
Fixpoint str_split1 (s : string) (sep : ascii) : list string :=
  match s with
  | EmptyString => [EmptyString]
  | String a rest =>
      if Ascii.eqb a sep then [EmptyString; rest]
      else match str_split1 rest sep with
           | piece :: pieces => String a piece :: pieces
           | [] => [String a EmptyString]
           end
  end.

Definition IndexError : exn := OtherError "IndexError" "list index out of range".
Definition ValueError : exn := OtherError "ValueError" "wrong number of values to unpack".

(** [xs[i]]: a negative index counts from the end. *)
Definition py_getitem (xs : list string) (i : Z) : result string :=
  let n := Z.of_nat (length xs) in
  let j := if i <? 0 then i + n else i in
  if (0 <=? j) && (j <? n)
  then match xs !! Z.to_nat j with
       | Some x => Return x
       | None => Raise IndexError
       end
  else Raise IndexError.

(** [a, b = xs] *)
Definition unpack2 (xs : list string) : result (string * string) :=
  match xs with
  | [a; b] => Return (a, b)
  | _ => Raise ValueError
  end.

(** ** utils.py: the body of the [try] of [save_attachments] *)

Section stage_data_url.
(** The type of [bytes] values, [base64.b64decode], and the three steps
    [NamedTemporaryFile(delete=False, suffix=..., prefix=...)], [write]
    and [close] taken together: the name of the file written. *)
Variable bytes : Type.
Variable b64decode : string → result bytes.
Variable NamedTemporaryFile : string → string → bytes → result string.

Definition stage_data_url (attachment : Attachment) : M unit string :=
  pieces <- lift (unpack2 (str_split1 (url attachment) ",")) ;;
  let '(header, data) := pieces in
  media <- lift (py_getitem (str_split header ";") 0) ;;
  mime_type <- lift (py_getitem (str_split media ":") 1) ;;
  file_data <- lift (b64decode data) ;;
  file_ext <- lift (py_getitem (str_split mime_type "/") (-1)) ;;
  lift (NamedTemporaryFile ("." +:+ file_ext) (name attachment) file_data).

(** [save_attachments] with that body. *)
Definition save_data_urls (attachments : list Attachment) : list string :=
  save_attachments (λ attachment, fst (stage_data_url attachment tt)) attachments.
End stage_data_url.

(** ** evaluation_client.py: the session *)

Module EvaluationSession.
(** The sessions of the HTTP library that the client has created, each
    with its [closed] flag, and [self.session]: the index of the session
    the client holds, if any. *)
Record client := {
  sessions : list bool;
  session : option nat }.

(** [__init__] *)
Definition new : client := {| sessions := []; session := None |}.

(** [aiohttp.ClientSession()] *)
Definition ClientSession : M client nat :=
  λ c, (Return (length (sessions c)),
        {| sessions := sessions c ++ [false];
           session := Some (length (sessions c)) |}).

(** [s.closed] *)
Definition closed (c : client) (s : nat) : bool :=
  default true (sessions c !! s).

Definition get_session : M client nat :=
  λ c, match session c with
       | None => ClientSession c
       | Some s => if closed c s then ClientSession c else (Return s, c)
       end.

Definition close : M client unit :=
  λ c, match session c with
       | Some s =>
           if negb (closed c s)
           then (Return tt, {| sessions := <[s := true]> (sessions c);
                               session := session c |})
           else (Return tt, c)
       | None => (Return tt, c)
       end.

(** A call of one of the two methods. *)
Inductive call := GetSession | Close.

Definition run_call (k : call) (c : client) : client :=
  match k with
  | GetSession => snd (get_session c)
  | Close => snd (close c)
  end.
End EvaluationSession.

(** ** github_client.py: [create_repository] *)

Module Hosting.
(** The provider together with the pages settings that
    [create_repository] sets out to change: the repositories edited to
    have pages, and those with a pages site. *)
Record hosting := {
  provider : GitHub.provider;
  has_pages : gset string;
  pages_sites : gset string }.

(** A computation on the repositories, run within the provider. *)
Definition in_provider {A} (m : M GitHub.provider A) : M hosting A :=
  λ h, let '(r, gh) := m (provider h) in
       (r, {| provider := gh; has_pages := has_pages h;
              pages_sites := pages_sites h |}).

Section create.
(** The web address the provider gives to a repository. *)
Variable html_url_of : string → string.

(** [AuthenticatedUser.create_repo(name, description, auto_init=False,
    private=False)]: the name must be free; the new repository is empty.
    The description is not kept in the model. *)
Definition create_repo (login name description : string)
    : M GitHub.provider GitHub.repo_handle :=
  GitHub.api_call ;;;
  λ gh, let full := login +:+ "/" +:+ name in
        match GitHub.repos gh !! full with
        | Some _ => (Raise (GithubException "422 Unprocessable Entity"), gh)
        | None =>
            (Return {| GitHub.full_name := full;
                       GitHub.handle_url := html_url_of full |},
             {| GitHub.repos :=
                  <[full := {| GitHub.html_url := html_url_of full;
                               GitHub.files := ∅;
                               GitHub.commits := [] |}]> (GitHub.repos gh);
                GitHub.faults := GitHub.faults gh |})
        end.
End create.

(** [Repository.edit(has_pages=True)]: the method [edit] of the [github]
    library has no parameter [has_pages], so that the call raises
    [TypeError] before any request is made. *)
Definition unexpected_has_pages : exn :=
  TypeError "edit() got an unexpected keyword argument 'has_pages'".
Definition edit_has_pages (repo : GitHub.repo_handle) : M hosting unit :=
  raise unexpected_has_pages.

(** [Repository.create_pages_site(branch="main", path="/")]: a
    repository object of the library has no attribute of that name. *)
Definition no_create_pages_site : exn :=
  OtherError "AttributeError"
    "'Repository' object has no attribute 'create_pages_site'".
Definition create_pages_site (repo : GitHub.repo_handle) : M hosting unit :=
  raise no_create_pages_site.
End Hosting.

Module Publication.
Section Publication.
Variable login : string.
Variable html_url_of : string → string.

(** [code] is the dictionary as [code.items()] yields it: its items in
    insertion order, with distinct keys. *)
Definition create_repository (name : string) (code : list (string * string))
    (description : string) : M Hosting.hosting (string * string) :=
  try_except
    (repo <- Hosting.in_provider
               (Hosting.create_repo html_url_of login name description) ;;
     Hosting.in_provider
       (for_each (λ item : string * string,
                    let '(filename, content) := item in
                    GitHub.create_file repo filename ("Add " +:+ filename) content)
                 code) ;;;
     Hosting.edit_has_pages repo ;;;
     Hosting.create_pages_site repo ;;;
     let repo_url := GitHub.handle_url repo in
     let pages_url := "https://" +:+ login +:+ ".github.io/" +:+ name in
     ret (repo_url, pages_url))
    is_GithubException
    (λ e, raise e).
End Publication.
End Publication.

(** * Vocabulary of the properties *)

(** ** Events and statuses *)

(** The test of [submit_evaluation] on what an attempt received. *)
Definition received_200 (o : outcome) : bool :=
  match o with
  | Response status => status =? 200
  | Failed _ => false
  end.

(** The events of the notifier: POSTs and pauses. *)
Definition delivery_event (e : event) : Prop :=
  match e with EvPost _ _ | EvSleep _ => True | _ => False end.

(** The status writes among the events of a run, and whether an event
    is a call of the publication adapter. *)
Definition status_writes (evs : list event) : list (string * string) :=
  omap (λ e, match e with
             | EvSetStatus task_id new_status => Some (task_id, new_status)
             | _ => None
             end) evs.

Definition publication_event (e : event) : bool :=
  match e with
  | EvCreateRepository _ | EvUpdateRepository _ => true
  | _ => false
  end.

(** ** Relations between the states before and after a computation *)

(** Every run of [m] takes a state to an [R]-related state, whether it
    returns or raises. *)
Definition preserves {S A} (R : relation S) (m : M S A) : Prop :=
  ∀ st, R st (snd (m st)).

(** What a pipeline run can change: it leaves the secret registry and
    the scheduled tasks alone, and in the task store it can only
    overwrite the status of an entry. *)
Definition run_rel (st st' : state) : Prop :=
  SECRET_STORE st' = SECRET_STORE st ∧
  scheduled st' = scheduled st ∧
  ∀ task_id, request <$> (task_store st' !! task_id)
             = request <$> (task_store st !! task_id).

(** The same contents up to the statuses of the entries. *)
Definition same_up_to_status (st1 st2 : state) : Prop :=
  SECRET_STORE st1 = SECRET_STORE st2 ∧
  ∀ task_id, request <$> (task_store st1 !! task_id)
             = request <$> (task_store st2 !! task_id).

(** ** The handlers *)

(** Whether [verify_secret] accepts, and the state it leaves. *)
Definition accepts (st : state) (email secret : string) : bool :=
  match SECRET_STORE st !! email with
  | None => true
  | Some expected => String.eqb expected secret
  end.

Definition after_verify (st : state) (email secret : string) : state :=
  match SECRET_STORE st !! email with
  | None => set_SECRET_STORE (<[email := secret]>) st
  | Some _ => st
  end.

(** The state in which a request has been accepted under [task_id]. *)
Definition accept (task_id : string) (payload : gmap string pyobj)
    (t : background_task) (st : state) : state :=
  set_scheduled (λ l, l ++ [t])
    (set_task_store (<[task_id := {| request := payload; status := "processing" |}]>)
       st).

(** The two exceptions the handlers raise on purpose. *)
Definition invalid_secret : exn := HTTPException 401 (Detail "Invalid secret").
Definition original_task_not_found : exn :=
  HTTPException 404 (Detail "Original task not found").

(** The ways a response can report the "not found" of the round-1 check:
    the 404 itself, or the 500 that wraps it. *)
Definition rejected_not_found (r : result Main.response) : Prop :=
  r = Raise original_task_not_found ∨
  r = Raise (HTTPException 500 (str original_task_not_found)).

(** ** The task store *)

(** The key under which the handler stored the entry of a task. *)
Definition task_key (t : background_task) : string :=
  match t with
  | BuildTask r => Main.task_id_of (BuildRequest.task r) (BuildRequest.round r)
  | RevisionTask r =>
      Main.task_id_of (RevisionRequest.task r) (RevisionRequest.round r)
  end.

(** No stored request has a key [repo_name], and every scheduled task
    has its entry in the store. *)
Definition store_ok (st : state) : Prop :=
  (∀ task_id record, task_store st !! task_id = Some record →
     request record !! "repo_name" = None) ∧
  (∀ t, t ∈ scheduled st → is_Some (task_store st !! task_key t)).

(** ** The repositories *)

(** The content of file [f] of repository [repo], if both exist. *)
Definition file_at (gh : GitHub.provider) (repo f : string) : option string :=
  GitHub.repos gh !! repo ≫= λ r, GitHub.files r !! f.

(** Every file is as it was, except perhaps the files of repository
    [full] whose names satisfy [generated]. *)
Definition outside_untouched (full : string) (generated : string → Prop)
    (gh gh' : GitHub.provider) : Prop :=
  ∀ repo f, repo ≠ full ∨ ¬ generated f → file_at gh' repo f = file_at gh repo f.

(** The message of the commit that [update_repository] makes for an item
    of the generated set, given the repository it started from. *)
Definition commit_message (r : GitHub.repository) (item : string * string) : string :=
  (if GitHub.files r !! item.1 is Some _ then "Update " else "Add ") +:+ item.1.

(** One pass of the loop of [update_repository] on a repository. *)
Definition upsert (r : GitHub.repository) (item : string * string)
    : GitHub.repository :=
  GitHub.commit_file item.1 (commit_message r item) item.2 r.

(** The client's [get_latest_commit] as the pipelines call it, against a
    provider in state [gh].  The build pipeline passes a string. *)
Definition commit_adapter (login : string) (commit_id : list string → string)
    (gh : GitHub.provider) (repo_name : pyobj) : result string :=
  match repo_name with
  | PyStr name => fst (GitHubClient.get_latest_commit login commit_id name gh)
  | _ => Raise (TypeError "repository name is not a string")
  end.

(** ** The JSON library *)

(** What the client relies on about [json.loads]: a text that starts
    with an opening brace parses to a dictionary or not at all, and
    neither the empty text nor a lone closing brace parses. *)
Definition json_loads_facts (json_loads : string → result pyobj) : Prop :=
  (∀ rest v, json_loads (String "{" rest) = Return v → ∃ d, v = PyDict d) ∧
  (∀ v, json_loads EmptyString ≠ Return v) ∧
  (∀ v, json_loads "}" ≠ Return v).

(** The text that [_parse_generated_code] hands to [json.loads]. *)
Definition json_str_of (generated_text : string) : string :=
  slice generated_text (find generated_text "{") (rfind generated_text "}" + 1).

(** ** A sample run of the service *)

(** The scenario of the specification: task [alpha], requester
    [a@x.com] with secret [s1], and collaborators that all succeed. *)
Definition alpha_build : BuildRequest.t :=
  {| BuildRequest.email := "a@x.com"; BuildRequest.secret := "s1";
     BuildRequest.task := "alpha"; BuildRequest.round := 1;
     BuildRequest.nonce := "n1"; BuildRequest.brief := "todo app";
     BuildRequest.checks := ["must load"];
     BuildRequest.evaluation_url := "http://eval/";
     BuildRequest.attachments := [] |}.

Definition alpha_revision : RevisionRequest.t :=
  {| RevisionRequest.email := "a@x.com"; RevisionRequest.secret := "s1";
     RevisionRequest.task := "alpha"; RevisionRequest.round := 2;
     RevisionRequest.nonce := "n2"; RevisionRequest.brief := "todo app, dark mode";
     RevisionRequest.checks := ["must load"];
     RevisionRequest.evaluation_url := "http://eval/";
     RevisionRequest.attachments := [] |}.

Definition no_temp_file (a : Attachment) : result string :=
  Raise (OtherError "OSError" "no space left on device").
Definition sample_uuid4_hex (n : nat) : string :=
  "0123456789abcdef0123456789abcdef".
Definition sample_generate (brief : string) (checks attachments : list string)
    (existing_repo : option pyobj) : result (gmap string string) :=
  Return (<["index.html" := "<html></html>"]> ∅).
Definition sample_create (repo_name : string) (code : gmap string string)
    (description : string) : result (string * string) :=
  Return ("https://github.com/octo/" +:+ repo_name,
          "https://octo.github.io/" +:+ repo_name).
Definition sample_update (repo_name : pyobj) (code : gmap string string)
    : result (string * string) :=
  Return ("https://github.com/octo/alpha", "https://octo.github.io/alpha").
Definition sample_commit (repo_name : pyobj) : result string := Return "c0ffee".

(** The state after the build request was accepted, and after the
    revision request was accepted too. *)
Definition alpha_accepted : state := snd (Main.deploy_app alpha_build init).
Definition alpha_revising : state :=
  snd (Main.revise_app alpha_revision alpha_accepted).

(** A build request and a revision request that present a secret other
    than the bound one, and a revision request for a task that was never
    built. *)
Definition alpha_build_wrong_secret : BuildRequest.t :=
  {| BuildRequest.email := "a@x.com"; BuildRequest.secret := "s2";
     BuildRequest.task := "alpha"; BuildRequest.round := 1;
     BuildRequest.nonce := "n3"; BuildRequest.brief := "todo app";
     BuildRequest.checks := ["must load"];
     BuildRequest.evaluation_url := "http://eval/";
     BuildRequest.attachments := [] |}.

Definition beta_revision : RevisionRequest.t :=
  {| RevisionRequest.email := "a@x.com"; RevisionRequest.secret := "s1";
     RevisionRequest.task := "beta"; RevisionRequest.round := 2;
     RevisionRequest.nonce := "n4"; RevisionRequest.brief := "notes app";
     RevisionRequest.checks := ["must load"];
     RevisionRequest.evaluation_url := "http://eval/";
     RevisionRequest.attachments := [] |}.

Definition beta_revision_wrong_secret : RevisionRequest.t :=
  {| RevisionRequest.email := "a@x.com"; RevisionRequest.secret := "s2";
     RevisionRequest.task := "beta"; RevisionRequest.round := 2;
     RevisionRequest.nonce := "n5"; RevisionRequest.brief := "notes app";
     RevisionRequest.checks := ["must load"];
     RevisionRequest.evaluation_url := "http://eval/";
     RevisionRequest.attachments := [] |}.

(** The payload of the scenario and two evaluation endpoints: one that
    always answers 503, one that answers 200 to the third attempt only. *)
Definition sample_payload : EvaluationResponse :=
  {| er_email := "a@x.com"; er_task := "alpha"; er_round := 1;
     er_nonce := "n1"; repo_url := "https://example.org/alpha";
     commit_sha := "c0ffee"; pages_url := "https://example.org/pages" |}.

Definition always_503 (evaluation_url : string) (eval_data : EvaluationResponse)
    (attempt : Z) : outcome := Response 503.

(** An endpoint that answers every attempt with 201 Created, and the
    usual reading of "a success status": any status from 200 to 299. *)
Definition always_201 (evaluation_url : string) (eval_data : EvaluationResponse)
    (attempt : Z) : outcome := Response 201.
Definition success_status_2xx (o : outcome) : bool :=
  match o with
  | Response status => (200 <=? status) && (status <? 300)
  | Failed _ => false
  end.

Definition third_time_lucky (evaluation_url : string)
    (eval_data : EvaluationResponse) (attempt : Z) : outcome :=
  if attempt =? 2 then Response 200 else Response 500.

(** A provider that knows no repository, and one whose next call is cut
    off by the network. *)
Definition empty_provider : GitHub.provider :=
  {| GitHub.repos := ∅; GitHub.faults := [] |}.
Definition unreachable_provider : GitHub.provider :=
  {| GitHub.repos := ∅;
     GitHub.faults := [Some (OtherError "ConnectionError" "connection reset")] |}.
Definition sample_commit_id (history : list string) : string :=
  "sha-" +:+ pretty (length history).

(** The repository of round 1, with a file the revision does not
    regenerate, and the file set of the revision. *)
Definition round1_repository : GitHub.repository :=
  {| GitHub.html_url := "https://github.com/octo/alpha-01234567";
     GitHub.files := <["index.html" := "<html>v1</html>"]>
                     (<["old.css" := "body {}"]> ∅);
     GitHub.commits := ["Add index.html"; "Add old.css"] |}.

Definition round1_provider : GitHub.provider :=
  {| GitHub.repos := <["octo/alpha-01234567" := round1_repository]> ∅;
     GitHub.faults := [] |}.

Definition revision_code : gmap string string :=
  <["index.html" := "<html>v2</html>"]> (<["script.js" := "// v2"]> ∅).

(** A generator that wraps an empty JSON object in prose, and a parser
    that accepts that object only. *)
Definition chatty_generator (prompt : string) : result string :=
  Return "Sure! {} done".
Definition braces_only_loads (s : string) : result pyobj :=
  if String.eqb s "{}" then Return (PyDict ∅)
  else Raise (OtherError "JSONDecodeError" "Expecting value").
Definition no_dumps (o : pyobj) : string := "{}".

(** ** Further vocabulary *)

(** [c in s] for a character [c]. *)
Fixpoint occurs (s : string) (c : ascii) : bool :=
  match s with
  | EmptyString => false
  | String a rest => Ascii.eqb a c || occurs rest c
  end.

(** A part of a media type: no comma, semicolon, colon or slash in it. *)
Definition plain (s : string) : bool :=
  negb (occurs s "," || occurs s ";" || occurs s ":" || occurs s "/").

(** Sample codec and file system: the payload as it is, and a file
    named after the prefix and the suffix. *)
Definition sample_b64decode (data : string) : result string := Return data.
Definition sample_NamedTemporaryFile (suffix prefix : string) (data : string)
    : result string :=
  Return ("/tmp/" +:+ prefix +:+ "k3x9" +:+ suffix).
Definition logo_attachment : Attachment :=
  {| name := "logo"; url := "data:image/png;base64,iVBORw0KGgo=" |}.

(** The number of POSTs among the events, and the time spent pausing. *)
Definition posts (evs : list event) : nat := length (filter is_post evs).
Definition time_waited (evs : list event) : Z := foldr Z.add 0 (delays evs).

Definition is_get_session (k : EvaluationSession.call) : bool :=
  match k with EvaluationSession.GetSession => true | _ => false end.

(** The session held exists, and every session but the one held is
    closed. *)
Definition session_ok (c : EvaluationSession.client) : Prop :=
  (∀ s, EvaluationSession.session c = Some s →
        (s < length (EvaluationSession.sessions c))%nat) ∧
  (∀ s, EvaluationSession.session c ≠ Some s → EvaluationSession.closed c s = true).

(** The client after a sequence of calls on a new client. *)
Definition session_after (calls : list EvaluationSession.call)
    : EvaluationSession.client :=
  foldl (λ c k, EvaluationSession.run_call k c) EvaluationSession.new calls.

(** The statuses of an entry, and the three a run ends with. *)
Definition terminal_statuses : list string :=
  ["completed"; "evaluation_failed"; "failed"].
Definition statuses : list string := "processing" :: terminal_statuses.

(** Every entry of the task store has one of the four statuses. *)
Definition statuses_ok (st : state) : Prop :=
  ∀ task_id record, task_store st !! task_id = Some record →
                    status record ∈ statuses.

(** The requester of a task and the secret it presented. *)
Definition task_email (t : background_task) : string :=
  match t with
  | BuildTask r => BuildRequest.email r
  | RevisionTask r => RevisionRequest.email r
  end.
Definition task_secret (t : background_task) : string :=
  match t with
  | BuildTask r => BuildRequest.secret r
  | RevisionTask r => RevisionRequest.secret r
  end.

(** Every scheduled task comes from the requester bound to the secret
    it presented. *)
Definition scheduled_authenticated (st : state) : Prop :=
  ∀ t, t ∈ scheduled st → SECRET_STORE st !! task_email t = Some (task_secret t).

(** The log grows by events that all satisfy [P]. *)
Definition emits (P : event → Prop) (st st' : state) : Prop :=
  ∃ evs, log st' = log st ++ evs ∧ Forall P evs.

(** Only the entry of [task_id] may differ. *)
Definition only_touches (task_id : string) (st st' : state) : Prop :=
  ∀ k, k ≠ task_id → task_store st' !! k = task_store st !! k.

(** What a run of task [t] may emit: POSTs to the evaluation URL of its
    request, of a payload that carries the request's identity, task,
    round and nonce, and status writes of a terminal status for its own
    entry. *)
Definition run_event (t : background_task) (e : event) : Prop :=
  match e with
  | EvPost evaluation_url eval_data =>
      match t with
      | BuildTask r =>
          evaluation_url = BuildRequest.evaluation_url r ∧
          er_email eval_data = BuildRequest.email r ∧
          er_task eval_data = BuildRequest.task r ∧
          er_round eval_data = BuildRequest.round r ∧
          er_nonce eval_data = BuildRequest.nonce r
      | RevisionTask r =>
          evaluation_url = RevisionRequest.evaluation_url r ∧
          er_email eval_data = RevisionRequest.email r ∧
          er_task eval_data = RevisionRequest.task r ∧
          er_round eval_data = RevisionRequest.round r ∧
          er_nonce eval_data = RevisionRequest.nonce r
      end
  | EvSetStatus task_id new_status =>
      task_id = task_key t ∧ new_status ∈ terminal_statuses
  | _ => True
  end.

(** A first request from a requester not seen before, for a task that
    was never built. *)
Definition gamma_revision : RevisionRequest.t :=
  {| RevisionRequest.email := "b@x.com"; RevisionRequest.secret := "t1";
     RevisionRequest.task := "gamma"; RevisionRequest.round := 2;
     RevisionRequest.nonce := "n6"; RevisionRequest.brief := "notes app";
     RevisionRequest.checks := [];
     RevisionRequest.evaluation_url := "http://eval/";
     RevisionRequest.attachments := [] |}.

(** What a run of task [t] can do to the log and to the task store: it
    emits events of the run only, leaves every other entry as it is, and
    leaves its own entry with the status it had or a terminal one. *)
Definition run_of (t : background_task) (st st' : state) : Prop :=
  emits (run_event t) st st' ∧
  only_touches (task_key t) st st' ∧
  (∀ record', task_store st' !! task_key t = Some record' →
     ∃ record, task_store st !! task_key t = Some record ∧
               (status record' = status record ∨
                status record' ∈ terminal_statuses)).

(** The round-1 entry of the task of [req] names a repository: its
    stored request has a truthy [repo_name]. *)
Definition names_repository (st : state) (req : RevisionRequest.t)
    (repo_name : pyobj) : Prop :=
  ∃ round1, task_store st !! (RevisionRequest.task req +:+ "-1") = Some round1 ∧
            request round1 !! "repo_name" = Some repo_name ∧
            truthy repo_name = true.

(** ** Publication *)

(** The repository that [create_repo] makes, and the pages address the
    client computes. *)
Definition new_repository (url : string) : GitHub.repository :=
  {| GitHub.html_url := url; GitHub.files := ∅; GitHub.commits := [] |}.
Definition pages_url_of (login name : string) : string :=
  "https://" +:+ login +:+ ".github.io/" +:+ name.

(** No repository of the provider disappears. *)
Definition repos_kept (gh gh' : GitHub.provider) : Prop :=
  ∀ full, is_Some (GitHub.repos gh !! full) → is_Some (GitHub.repos gh' !! full).
Definition hosted_kept (h h' : Hosting.hosting) : Prop :=
  repos_kept (Hosting.provider h) (Hosting.provider h').

(** The next call to the provider goes through. *)
Definition next_call_succeeds (gh : GitHub.provider) : Prop :=
  ∀ e rest, GitHub.faults gh ≠ Some e :: rest.

(** A hosting service with nothing on it. *)
Definition empty_hosting : Hosting.hosting :=
  {| Hosting.provider := empty_provider;
     Hosting.has_pages := ∅; Hosting.pages_sites := ∅ |}.
Definition sample_html_url (full : string) : string :=
  "https://github.com/" +:+ full.
Definition round1_items : list (string * string) :=
  [("index.html", "<html>v1</html>"); ("old.css", "body {}")].
Definition revision_items : list (string * string) :=
  [("script.js", "// v2"); ("index.html", "<html>v2</html>")].

(** Adapters of a build run on item lists: a generator that succeeds,
    and the publication on a free account. *)
Definition sample_generate_items (brief : string) (checks attachments : list string)
    (existing_repo : option pyobj) : result (list (string * string)) :=
  Return round1_items.
Definition sample_update_items (repo_name : pyobj) (code : list (string * string))
    : result (string * string) :=
  Return ("https://github.com/octo/alpha", "https://octo.github.io/alpha").
Definition sample_publish (name : string) (code : list (string * string))
    (description : string) : result (string * string) :=
  fst (Publication.create_repository "octo" sample_html_url name code description
         empty_hosting).

(** ** Generation *)

(** The file set that [_parse_generated_code] returns for a parsed
    dictionary [d]: the entries of [d], and the template of every
    required file that [d] lacks. *)
Definition completed (brief : string) (d : gmap string pyobj) (f : string)
    : option pyobj :=
  match d !! f with
  | Some v => Some v
  | None =>
      if bool_decide (f ∈ LLMClient.required_files)
      then Some (PyStr (LLMClient._get_template_file f brief))
      else None
  end.

(** A parser that knows one text, the one [no_dumps] writes, and reads
    it as the template file set of the brief of the scenario. *)
Definition template_only_loads (s : string) : result pyobj :=
  if String.eqb s "{}"
  then Return (PyDict (LLMClient._generate_template_code_dict "todo app"))
  else Raise (OtherError "JSONDecodeError" "Expecting value").

(** A build request that names round 2 of the task of the scenario. *)
Definition alpha_build_round2 : BuildRequest.t :=
  {| BuildRequest.email := "a@x.com"; BuildRequest.secret := "s1";
     BuildRequest.task := "alpha"; BuildRequest.round := 2;
     BuildRequest.nonce := "n7"; BuildRequest.brief := "todo app, again";
     BuildRequest.checks := ["must load"];
     BuildRequest.evaluation_url := "http://eval/";
     BuildRequest.attachments := [] |}.

(** * Properties *)

(** ** Stepping through computations *)

Lemma observe_observe evs1 evs2 st :
  observe evs2 (observe evs1 st) = observe (evs1 ++ evs2) st.
Proof. unfold observe, set_log. simpl. by rewrite app_assoc. Qed.

Lemma observe_nil st : observe [] st = st.
Proof. destruct st. unfold observe, set_log. simpl. by rewrite app_nil_r. Qed.

Lemma bind_Return {S A B} (m : M S A) (k : A → M S B) st a st' :
  m st = (Return a, st') → bind m k st = k a st'.
Proof. unfold bind. by intros ->. Qed.

(** ** The delivery notifier *)

Section notifier.
Variable post : string → EvaluationResponse → Z → outcome.
Variables (eval_data : EvaluationResponse) (evaluation_url : string).

Lemma try_post_eq attempt st :
  EvaluationClient.try_post post eval_data evaluation_url attempt st =
    (Return (received_200 (post evaluation_url eval_data attempt)),
     observe [EvPost evaluation_url eval_data] st).
Proof.
  unfold EvaluationClient.try_post, try_except, bind, emit. simpl.
  destruct (post evaluation_url eval_data attempt) as [status|e]; simpl; [|done].
  by destruct (status =? 200).
Qed.

Lemma submit_loop_success attempt rest st :
  received_200 (post evaluation_url eval_data attempt) = true →
  EvaluationClient.submit_loop post eval_data evaluation_url (attempt :: rest) st =
    (Return true, observe [EvPost evaluation_url eval_data] st).
Proof.
  intros Hok. cbn [EvaluationClient.submit_loop].
  erewrite bind_Return by apply try_post_eq. by rewrite Hok.
Qed.

Lemma submit_loop_retry attempt rest st :
  received_200 (post evaluation_url eval_data attempt) = false →
  attempt < EvaluationClient.max_retries - 1 →
  EvaluationClient.submit_loop post eval_data evaluation_url (attempt :: rest) st =
    EvaluationClient.submit_loop post eval_data evaluation_url rest
      (observe [EvPost evaluation_url eval_data; EvSleep (2 ^ attempt)] st).
Proof.
  intros Hko Hlt. cbn [EvaluationClient.submit_loop].
  erewrite bind_Return by apply try_post_eq. rewrite Hko.
  apply Z.ltb_lt in Hlt. rewrite Hlt. unfold bind, emit.
  rewrite observe_observe. unfold EvaluationClient.base_delay.
  by rewrite Z.mul_1_l.
Qed.

Lemma submit_loop_last attempt rest st :
  received_200 (post evaluation_url eval_data attempt) = false →
  EvaluationClient.max_retries - 1 <= attempt →
  EvaluationClient.submit_loop post eval_data evaluation_url (attempt :: rest) st =
    EvaluationClient.submit_loop post eval_data evaluation_url rest
      (observe [EvPost evaluation_url eval_data] st).
Proof.
  intros Hko Hge. cbn [EvaluationClient.submit_loop].
  erewrite bind_Return by apply try_post_eq. rewrite Hko.
  apply Z.ltb_ge in Hge. by rewrite Hge.
Qed.

Lemma received_200_false attempt :
  post evaluation_url eval_data attempt ≠ Response 200 →
  received_200 (post evaluation_url eval_data attempt) = false.
Proof.
  destruct (post evaluation_url eval_data attempt) as [status|e]; [|done].
  simpl. intros H. apply Z.eqb_neq. congruence.
Qed.

(** C4: when no attempt receives status 200, [submit_evaluation] makes
    exactly five POSTs, pauses 1, 2, 4 and 8 seconds between consecutive
    attempts, does not pause after the fifth, and returns [False]. *)
Theorem submit_evaluation_exhausted st :
  (∀ attempt, 0 <= attempt < 5 →
     post evaluation_url eval_data attempt ≠ Response 200) →
  EvaluationClient.submit_evaluation post eval_data evaluation_url st =
    (Return false,
     observe [EvPost evaluation_url eval_data; EvSleep 1;
              EvPost evaluation_url eval_data; EvSleep 2;
              EvPost evaluation_url eval_data; EvSleep 4;
              EvPost evaluation_url eval_data; EvSleep 8;
              EvPost evaluation_url eval_data] st).
Proof.
  intros Hfail. unfold EvaluationClient.submit_evaluation.
  change (range EvaluationClient.max_retries) with [0; 1; 2; 3; 4].
  do 4 (rewrite submit_loop_retry
          by (first [apply received_200_false, Hfail; lia | done]);
        rewrite ?observe_observe).
  rewrite submit_loop_last
    by (first [apply received_200_false, Hfail; lia | done]).
  by rewrite observe_observe.
Qed.
Lemma received_200_true attempt :
  received_200 (post evaluation_url eval_data attempt) = true ↔
  post evaluation_url eval_data attempt = Response 200.
Proof.
  destruct (post evaluation_url eval_data attempt) as [status|e]; simpl.
  - rewrite Z.eqb_eq. split; [by intros ->|congruence].
  - split; discriminate.
Qed.

(** C5, amended: an attempt succeeds exactly when the endpoint answers
    it with status 200, the one status the client tests for; every other
    status, the other 2xx ones included, and every exception is a failed
    attempt.  If attempt [k] (1 ≤ k ≤ 5) is the first to receive 200,
    [submit_evaluation] returns [True] after exactly [k] POSTs, with a
    pause after each of the [k - 1] failed attempts and none after the
    successful one. *)
Theorem submit_evaluation_first_success (k : nat) st :
  (1 ≤ k ≤ 5)%nat →
  (∀ attempt, 0 <= attempt < Z.of_nat k - 1 →
     post evaluation_url eval_data attempt ≠ Response 200) →
  post evaluation_url eval_data (Z.of_nat k - 1) = Response 200 →
  (∀ attempt s,
     fst (EvaluationClient.try_post post eval_data evaluation_url attempt s)
       = Return true ↔
     post evaluation_url eval_data attempt = Response 200) ∧
  EvaluationClient.submit_evaluation post eval_data evaluation_url st =
    (Return true,
     observe (EvaluationClient.attempts evaluation_url eval_data k) st) ∧
  length (filter is_post (EvaluationClient.attempts evaluation_url eval_data k)) = k ∧
  delays (EvaluationClient.attempts evaluation_url eval_data k) =
    (λ i, 2 ^ Z.of_nat i) <$> seq 0 (k - 1) ∧
  last (EvaluationClient.attempts evaluation_url eval_data k) =
    Some (EvPost evaluation_url eval_data).
Proof.
  intros Hk Hfail Hok. split.
  { intros attempt s. rewrite try_post_eq. simpl. rewrite <- received_200_true.
    split; [by intros [= ->]|by intros ->]. }
  apply received_200_true in Hok.
  assert (∀ attempt, 0 <= attempt < Z.of_nat k - 1 →
            received_200 (post evaluation_url eval_data attempt) = false) as Hko
    by (intros; by apply received_200_false, Hfail).
  unfold EvaluationClient.submit_evaluation.
  change (range EvaluationClient.max_retries) with [0; 1; 2; 3; 4].
  assert (k = 1 ∨ k = 2 ∨ k = 3 ∨ k = 4 ∨ k = 5)%nat
    as [->|[->|[->|[->| ->]]]] by lia;
    (split; [|by vm_compute]);
    repeat (rewrite submit_loop_retry by (first [apply Hko; lia | done]);
            rewrite ?observe_observe);
    rewrite submit_loop_success by exact Hok;
    by rewrite ?observe_observe.
Qed.
End notifier.

(** C5, as stated, fails: the endpoint answers the first attempt with
    201, a success status; the attempt counts as failed, and so does
    every later one: [submit_evaluation] makes all five attempts, with
    the four pauses, and returns [False]. *)
Lemma submit_evaluation_retries_201 :
  success_status_2xx (always_201 "http://eval/" sample_payload 0) = true ∧
  fst (EvaluationClient.try_post always_201 sample_payload "http://eval/" 0 init)
    = Return false ∧
  EvaluationClient.submit_evaluation always_201 sample_payload "http://eval/" init
  = (Return false,
     observe [EvPost "http://eval/" sample_payload; EvSleep 1;
              EvPost "http://eval/" sample_payload; EvSleep 2;
              EvPost "http://eval/" sample_payload; EvSleep 4;
              EvPost "http://eval/" sample_payload; EvSleep 8;
              EvPost "http://eval/" sample_payload] init).
Proof. split; [reflexivity|]. split; reflexivity. Qed.

Lemma submit_evaluation_exhausted_witness :
  EvaluationClient.submit_evaluation always_503 sample_payload "http://eval/" init
  = (Return false,
     observe [EvPost "http://eval/" sample_payload; EvSleep 1;
              EvPost "http://eval/" sample_payload; EvSleep 2;
              EvPost "http://eval/" sample_payload; EvSleep 4;
              EvPost "http://eval/" sample_payload; EvSleep 8;
              EvPost "http://eval/" sample_payload] init).
Proof.
  apply (submit_evaluation_exhausted always_503).
  intros attempt _. discriminate.
Defined.

Lemma submit_evaluation_first_success_witness :
  EvaluationClient.submit_evaluation third_time_lucky sample_payload
    "http://eval/" init =
    (Return true,
     observe [EvPost "http://eval/" sample_payload; EvSleep 1;
              EvPost "http://eval/" sample_payload; EvSleep 2;
              EvPost "http://eval/" sample_payload] init).
Proof.
  refine (proj1 (proj2 (submit_evaluation_first_success third_time_lucky
                          sample_payload "http://eval/" 3 init _ _ _))).
  - lia.
  - intros attempt Hattempt. unfold third_time_lucky.
    destruct (Z.eqb_spec attempt 2); [lia|discriminate].
  - reflexivity.
Defined.

Lemma submit_loop_total post eval_data evaluation_url attempts :
  ∃ returned evs, Forall delivery_event evs ∧
    ∀ st, EvaluationClient.submit_loop post eval_data evaluation_url attempts st =
            (Return returned, observe evs st).
Proof.
  induction attempts as [|attempt rest (returned & evs & Hevs & IH)].
  - exists false, []. split; [constructor|]. intros st. by rewrite observe_nil.
  - destruct (received_200 (post evaluation_url eval_data attempt)) eqn:Hr.
    + exists true, [EvPost evaluation_url eval_data]. split.
      { by repeat constructor. }
      intros st. by apply submit_loop_success.
    + destruct (Z.lt_ge_cases attempt (EvaluationClient.max_retries - 1)).
      * exists returned,
          ([EvPost evaluation_url eval_data; EvSleep (2 ^ attempt)] ++ evs).
        split; [by repeat constructor|].
        intros st. rewrite submit_loop_retry, IH by done.
        by rewrite observe_observe.
      * exists returned, ([EvPost evaluation_url eval_data] ++ evs).
        split; [by repeat constructor|].
        intros st. rewrite submit_loop_last, IH by done.
        by rewrite observe_observe.
Qed.

Lemma submit_evaluation_total post eval_data evaluation_url :
  ∃ returned evs, Forall delivery_event evs ∧
    ∀ st, EvaluationClient.submit_evaluation post eval_data evaluation_url st =
            (Return returned, observe evs st).
Proof. apply submit_loop_total. Qed.

(** ** Relations that a computation preserves *)

Section preserves.
Context {S : Type} (R : relation S) `{!PreOrder R}.

Lemma preserves_ret {A} (a : A) : preserves R (ret a).
Proof. intros st. reflexivity. Qed.

Lemma preserves_raise {A} e : preserves R (@raise S A e).
Proof. intros st. reflexivity. Qed.

Lemma preserves_lift {A} (r : result A) : preserves R (lift r).
Proof. intros st. reflexivity. Qed.

Lemma preserves_bind {A B} (m : M S A) (k : A → M S B) :
  preserves R m → (∀ a, preserves R (k a)) → preserves R (bind m k).
Proof.
  intros Hm Hk st. unfold bind. specialize (Hm st).
  destruct (m st) as [[a|e] st']; simpl in *; [|done].
  etrans; [done|apply Hk].
Qed.

Lemma preserves_try_except {A} (body : M S A) class handler :
  preserves R body → (∀ e, preserves R (handler e)) →
  preserves R (try_except body class handler).
Proof.
  intros Hb Hh st. unfold try_except. specialize (Hb st).
  destruct (body st) as [[a|e] st']; simpl in *; [done|].
  destruct (class e); [|done].
  etrans; [done|apply Hh].
Qed.

Lemma preserves_if {A} (b : bool) (m1 m2 : M S A) :
  preserves R m1 → preserves R m2 → preserves R (if b then m1 else m2).
Proof. by destruct b. Qed.

Lemma preserves_for_each {A} (body : A → M S unit) xs :
  (∀ x, x ∈ xs → preserves R (body x)) → preserves R (for_each body xs).
Proof.
  induction xs as [|x xs IH]; intros Hbody; [apply preserves_ret|].
  cbn [for_each]. apply preserves_bind.
  - apply Hbody, list_elem_of_here.
  - intros _. apply IH. intros y Hy. by apply Hbody, list_elem_of_further.
Qed.
End preserves.

(** ** What a pipeline run can change *)

#[local] Instance run_rel_preorder : PreOrder run_rel.
Proof.
  split.
  - by intros st.
  - intros st1 st2 st3 (? & ? & H12) (? & ? & H23). repeat split; [congruence..|].
    intros task_id. by rewrite H23, H12.
Qed.

Abbreviation keeps := (preserves run_rel).

Lemma keeps_emit e : keeps (emit e).
Proof. intros st. done. Qed.

Lemma keeps_submit_evaluation post eval_data evaluation_url :
  keeps (EvaluationClient.submit_evaluation post eval_data evaluation_url).
Proof.
  destruct (submit_evaluation_total post eval_data evaluation_url)
    as (returned & evs & _ & Heq).
  intros st. by rewrite Heq.
Qed.

Lemma keeps_set_status task_id new_status : keeps (Main.set_status task_id new_status).
Proof.
  intros st. unfold Main.set_status.
  destruct (task_store st !! task_id) as [record|] eqn:Hrec; [|done].
  repeat split. intros task_id'. simpl.
  destruct (decide (task_id = task_id')) as [<-|Hne].
  - by rewrite lookup_insert_eq, Hrec.
  - by rewrite lookup_insert_ne.
Qed.

Lemma keeps_stored_request task_id : keeps (Main.stored_request task_id).
Proof. intros st. unfold Main.stored_request. by destruct (task_store st !! task_id). Qed.

Lemma keeps_uuid4 uuid4_hex : keeps (Main.uuid4 uuid4_hex).
Proof. intros st. done. Qed.

Create HintDb keeps discriminated.
#[local] Hint Resolve preserves_ret preserves_raise preserves_lift preserves_bind
  preserves_try_except preserves_if keeps_emit keeps_submit_evaluation
  keeps_set_status keeps_stored_request keeps_uuid4 : keeps.
#[local] Hint Extern 0 (PreOrder _) => apply _ : keeps.

Section runs.
Context {code_t : Type}.
Variable write_temp_file : Attachment → result string.
Variable uuid4_hex : nat → string.
Variable generate_app_code :
  string → list string → list string → option pyobj → result code_t.
Variable create_repository : string → code_t → string → result (string * string).
Variable update_repository : pyobj → code_t → result (string * string).
Variable get_latest_commit : pyobj → result string.
Variable post : string → EvaluationResponse → Z → outcome.

Lemma keeps_process_build_request request :
  keeps (Main.process_build_request code_t write_temp_file uuid4_hex
           generate_app_code create_repository get_latest_commit post request).
Proof.
  unfold Main.process_build_request.
  repeat first [ progress eauto with keeps
               | apply preserves_try_except | apply preserves_bind
               | intros [] | intros ].
Qed.

Lemma keeps_process_revision_request request :
  keeps (Main.process_revision_request code_t write_temp_file
           generate_app_code update_repository get_latest_commit post request).
Proof.
  unfold Main.process_revision_request.
  repeat first [ progress eauto with keeps
               | apply preserves_try_except | apply preserves_bind
               | intros [] | intros ].
Qed.

Lemma keeps_run_task t :
  keeps (Main.run_task code_t write_temp_file uuid4_hex generate_app_code
           create_repository update_repository get_latest_commit post t).
Proof.
  destruct t; [apply keeps_process_build_request|apply keeps_process_revision_request].
Qed.
End runs.

(** ** The secret registry and the two handlers *)

Lemma verify_secret_eq email secret st :
  verify_secret email secret st =
    (Return (accepts st email secret), after_verify st email secret).
Proof.
  unfold verify_secret, accepts, after_verify.
  by destruct (SECRET_STORE st !! email).
Qed.

Lemma after_verify_rejected st email secret :
  accepts st email secret = false → after_verify st email secret = st.
Proof.
  unfold accepts, after_verify. by destruct (SECRET_STORE st !! email).
Qed.

Lemma after_verify_task_store st email secret :
  task_store (after_verify st email secret) = task_store st.
Proof. unfold after_verify. by destruct (SECRET_STORE st !! email). Qed.

Lemma after_verify_scheduled st email secret :
  scheduled (after_verify st email secret) = scheduled st.
Proof. unfold after_verify. by destruct (SECRET_STORE st !! email). Qed.

Lemma after_verify_bound st email secret identity bound :
  SECRET_STORE st !! identity = Some bound →
  SECRET_STORE (after_verify st email secret) !! identity = Some bound.
Proof.
  intros Hbound. unfold after_verify.
  destruct (SECRET_STORE st !! email) eqn:Hemail; [done|]. simpl.
  rewrite lookup_insert_ne; [done|]. intros ->. congruence.
Qed.

Lemma deploy_app_try_eq request st :
  Main.deploy_app_try request st =
    let email := BuildRequest.email request in
    let secret := BuildRequest.secret request in
    let task_id := Main.task_id_of (BuildRequest.task request)
                                   (BuildRequest.round request) in
    if accepts st email secret
    then (Return (Main.accepted task_id),
          accept task_id (BuildRequest_dict request) (BuildTask request)
                 (after_verify st email secret))
    else (Raise invalid_secret, st).
Proof.
  unfold Main.deploy_app_try. cbv zeta.
  erewrite bind_Return by apply verify_secret_eq.
  destruct (accepts _ _ _) eqn:Hacc; simpl; [done|].
  by rewrite after_verify_rejected.
Qed.

Lemma deploy_app_eq request st :
  Main.deploy_app request st =
    let email := BuildRequest.email request in
    let secret := BuildRequest.secret request in
    let task_id := Main.task_id_of (BuildRequest.task request)
                                   (BuildRequest.round request) in
    if accepts st email secret
    then (Return (Main.accepted task_id),
          accept task_id (BuildRequest_dict request) (BuildTask request)
                 (after_verify st email secret))
    else (Raise (HTTPException 500 (str invalid_secret)), st).
Proof.
  unfold Main.deploy_app, try_except. rewrite deploy_app_try_eq. cbv zeta.
  by destruct (accepts _ _ _).
Qed.

Lemma revise_app_try_eq request st :
  Main.revise_app_try request st =
    let email := RevisionRequest.email request in
    let secret := RevisionRequest.secret request in
    let task_id := Main.task_id_of (RevisionRequest.task request)
                                   (RevisionRequest.round request) in
    if accepts st email secret
    then match task_store st !! (RevisionRequest.task request +:+ "-1") with
         | Some _ =>
             (Return (Main.accepted task_id),
              accept task_id (RevisionRequest_dict request) (RevisionTask request)
                     (after_verify st email secret))
         | None => (Raise original_task_not_found, after_verify st email secret)
         end
    else (Raise invalid_secret, st).
Proof.
  unfold Main.revise_app_try. cbv zeta.
  erewrite bind_Return by apply verify_secret_eq.
  destruct (accepts _ _ _) eqn:Hacc; simpl.
  - unfold bind, ret, Main.check_round1. rewrite after_verify_task_store.
    by destruct (task_store st !! _).
  - by rewrite after_verify_rejected.
Qed.

Lemma revise_app_eq request st :
  Main.revise_app request st =
    let email := RevisionRequest.email request in
    let secret := RevisionRequest.secret request in
    let task_id := Main.task_id_of (RevisionRequest.task request)
                                   (RevisionRequest.round request) in
    if accepts st email secret
    then match task_store st !! (RevisionRequest.task request +:+ "-1") with
         | Some _ =>
             (Return (Main.accepted task_id),
              accept task_id (RevisionRequest_dict request) (RevisionTask request)
                     (after_verify st email secret))
         | None => (Raise (HTTPException 500 (str original_task_not_found)),
                    after_verify st email secret)
         end
    else (Raise (HTTPException 500 (str invalid_secret)), st).
Proof.
  unfold Main.revise_app, try_except. rewrite revise_app_try_eq. cbv zeta.
  destruct (accepts _ _ _); [|done]. by destruct (task_store st !! _).
Qed.

(** ** Invariants of the task store *)

Lemma BuildRequest_dict_no_repo_name r : BuildRequest_dict r !! "repo_name" = None.
Proof. unfold BuildRequest_dict. by rewrite !lookup_insert_ne, lookup_empty. Qed.

Lemma RevisionRequest_dict_no_repo_name r :
  RevisionRequest_dict r !! "repo_name" = None.
Proof. unfold RevisionRequest_dict. by rewrite !lookup_insert_ne, lookup_empty. Qed.

Lemma store_ok_init : store_ok init.
Proof.
  split.
  - intros task_id record. simpl. by rewrite lookup_empty.
  - intros t. simpl. by intros ?%elem_of_nil.
Qed.

Lemma store_ok_after_verify st email secret :
  store_ok st → store_ok (after_verify st email secret).
Proof.
  unfold store_ok. by rewrite after_verify_task_store, after_verify_scheduled.
Qed.

Lemma store_ok_accept task_id payload t st :
  payload !! "repo_name" = None → task_key t = task_id →
  store_ok st → store_ok (accept task_id payload t st).
Proof.
  intros Hpayload Hkey [Hreq Hsched]. split; simpl.
  - intros task_id' record.
    destruct (decide (task_id = task_id')) as [<-|Hne].
    + rewrite lookup_insert_eq. by intros [= <-].
    + rewrite lookup_insert_ne by done. apply Hreq.
  - intros t' [Hin| ->%list_elem_of_singleton]%elem_of_app.
    + destruct (decide (task_id = task_key t')) as [<-|Hne].
      * rewrite lookup_insert_eq. by eexists.
      * rewrite lookup_insert_ne by done. by apply Hsched.
    + rewrite Hkey, lookup_insert_eq. by eexists.
Qed.

Lemma store_ok_run_rel st st' : run_rel st st' → store_ok st → store_ok st'.
Proof.
  intros (_ & Hsched' & Hreq') [Hreq Hsched]. split.
  - intros task_id record Hrec. specialize (Hreq' task_id).
    rewrite Hrec in Hreq'. simpl in Hreq'.
    destruct (task_store st !! task_id) as [record0|] eqn:Hrec0; [|done].
    injection Hreq' as ->. by eapply Hreq.
  - intros t Ht. rewrite Hsched' in Ht. destruct (Hsched t Ht) as [record Hrec].
    specialize (Hreq' (task_key t)). rewrite Hrec in Hreq'.
    destruct (task_store st' !! task_key t); [by eexists|done].
Qed.

Lemma store_ok_unschedule before t after st :
  scheduled st = before ++ t :: after →
  store_ok st → store_ok (set_scheduled (λ _, before ++ after) st).
Proof.
  intros Hsched [Hreq Hkeys]. split; [done|]. simpl.
  intros t' Ht'. apply Hkeys. rewrite Hsched.
  apply elem_of_app in Ht' as [?|?]; apply elem_of_app; [by left|].
  right. by apply list_elem_of_further.
Qed.

Lemma set_status_eq task_id new_status record st :
  task_store st !! task_id = Some record →
  Main.set_status task_id new_status st =
    (Return tt,
     observe [EvSetStatus task_id new_status]
       (set_task_store
          (<[task_id := {| request := request record; status := new_status |}]>)
          st)).
Proof. intros Hrec. unfold Main.set_status. by rewrite Hrec. Qed.

Lemma status_writes_delivery evs :
  Forall delivery_event evs → status_writes evs = [] ∧ filter publication_event evs = [].
Proof.
  induction 1 as [|e evs He _ [IH1 IH2]]; [done|].
  destruct e; try done; simpl in *; by rewrite ?IH1.
Qed.

Section system.
Context {code_t : Type}.
Variable write_temp_file : Attachment → result string.
Variable uuid4_hex : nat → string.
Variable generate_app_code :
  string → list string → list string → option pyobj → result code_t.
Variable create_repository : string → code_t → string → result (string * string).
Variable update_repository : pyobj → code_t → result (string * string).
Variable get_latest_commit : pyobj → result string.
Variable post : string → EvaluationResponse → Z → outcome.

Local Abbreviation step :=
  (Main.step code_t write_temp_file uuid4_hex generate_app_code
     create_repository update_repository get_latest_commit post).
Local Abbreviation reachable :=
  (Main.reachable code_t write_temp_file uuid4_hex generate_app_code
     create_repository update_repository get_latest_commit post).
Local Abbreviation run_task :=
  (Main.run_task code_t write_temp_file uuid4_hex generate_app_code
     create_repository update_repository get_latest_commit post).

Lemma step_store_ok st st' : step st st' → store_ok st → store_ok st'.
Proof.
  intros [request st0 _|request st0 _|t before after st0 Hsched] Hok.
  - rewrite deploy_app_eq. cbv zeta. destruct (accepts _ _ _); [|done].
    apply store_ok_accept; [apply BuildRequest_dict_no_repo_name|done|].
    by apply store_ok_after_verify.
  - rewrite revise_app_eq. cbv zeta. destruct (accepts _ _ _); [|done].
    destruct (task_store st0 !! _); simpl.
    + apply store_ok_accept; [apply RevisionRequest_dict_no_repo_name|done|].
      by apply store_ok_after_verify.
    + by apply store_ok_after_verify.
  - eapply store_ok_run_rel; [apply keeps_run_task|].
    by eapply store_ok_unschedule.
Qed.

Lemma reachable_store_ok st : reachable st → store_ok st.
Proof.
  unfold Main.reachable. intros Hreach.
  eapply (rtc_ind_r (λ st0, store_ok st0)); [apply store_ok_init| |exact Hreach].
  intros st1 st2 _ Hstep Hok. by eapply step_store_ok.
Qed.

Lemma step_keeps_binding st st' identity bound :
  step st st' →
  SECRET_STORE st !! identity = Some bound →
  SECRET_STORE st' !! identity = Some bound.
Proof.
  intros [request st0 _|request st0 _|t before after st0 Hsched] Hbound.
  - rewrite deploy_app_eq. cbv zeta. destruct (accepts _ _ _); [|done].
    simpl. by apply after_verify_bound.
  - rewrite revise_app_eq. cbv zeta. destruct (accepts _ _ _); [|done].
    destruct (task_store st0 !! _); simpl; by apply after_verify_bound.
  - destruct (keeps_run_task write_temp_file uuid4_hex generate_app_code
                create_repository update_repository get_latest_commit post t
                (set_scheduled (λ _, before ++ after) st0)) as (-> & _).
    done.
Qed.

(** C6: the first [verify_secret] call for an identity binds the secret
    it is given and returns [True]; a call for a bound identity returns
    [True] exactly when the secret given equals the bound one and leaves
    the registry as it is; and whatever the process does afterwards, the
    identity stays bound to the same secret. *)
Theorem verify_secret_trust_on_first_use identity supplied st :
  (SECRET_STORE st !! identity = None →
     verify_secret identity supplied st =
       (Return true, set_SECRET_STORE (<[identity := supplied]>) st) ∧
     SECRET_STORE (snd (verify_secret identity supplied st)) !! identity
       = Some supplied) ∧
  (∀ bound, SECRET_STORE st !! identity = Some bound →
     verify_secret identity supplied st
       = (Return (bool_decide (supplied = bound)), st) ∧
     ∀ st', rtc step st st' → SECRET_STORE st' !! identity = Some bound).
Proof.
  split.
  - intros Hnone. unfold verify_secret. rewrite Hnone. split; [done|].
    simpl. apply lookup_insert_eq.
  - intros bound Hbound. split.
    + unfold verify_secret. rewrite Hbound. do 2 f_equal.
      destruct (String.eqb_spec bound supplied) as [->|Hne].
      * by rewrite bool_decide_eq_true_2.
      * by rewrite bool_decide_eq_false_2.
    + intros st' Hsteps. induction Hsteps as [|st1 st2 st3 Hstep _ IH]; [done|].
      apply IH. by eapply step_keeps_binding.
Qed.
(** C2: in every state the process can reach, no stored request has a
    key [repo_name] (the handlers store [request.dict()] of the inbound
    request, and a run only overwrites a status).  So every scheduled
    revision run raises before it calls the generation or publication
    adapter: the only event of the run is its status write, and it leaves
    its task with status [failed]. *)
Theorem revision_run_always_fails st req before after :
  reachable st →
  scheduled st = before ++ RevisionTask req :: after →
  let task_id := Main.task_id_of (RevisionRequest.task req)
                                 (RevisionRequest.round req) in
  let st0 := set_scheduled (λ _, before ++ after) st in
  (∀ round1, task_store st !! (RevisionRequest.task req +:+ "-1") = Some round1 →
     request round1 !! "repo_name" = None) ∧
  ∃ record, task_store st !! task_id = Some record ∧
    run_task (RevisionTask req) st0 =
      (Return tt,
       observe [EvSetStatus task_id "failed"]
         (set_task_store
            (<[task_id := {| request := request record; status := "failed" |}]>)
            st0)).
Proof.
  intros Hreach Hsched task_id st0.
  destruct (reachable_store_ok st Hreach) as [Hreq Hkeys].
  split; [intros round1; apply Hreq|].
  destruct (Hkeys (RevisionTask req)) as [record Hrec].
  { rewrite Hsched. apply elem_of_app. right. apply list_elem_of_here. }
  exists record. split; [exact Hrec|].
  assert (Main.set_status task_id "failed" st0 =
            (Return tt,
             observe [EvSetStatus task_id "failed"]
               (set_task_store
                  (<[task_id := {| request := request record;
                                   status := "failed" |}]>) st0))) as Hset.
  { unfold Main.set_status. change (task_store st0) with (task_store st).
    change (task_key (RevisionTask req)) with task_id in Hrec.
    by rewrite Hrec. }
  cbn [Main.run_task]. unfold Main.process_revision_request, try_except.
  fold task_id. cbv zeta. unfold bind at 1. unfold Main.stored_request.
  change (task_store st0) with (task_store st).
  destruct (task_store st !! (RevisionRequest.task req +:+ "-1"))
    as [round1|] eqn:Hround1; simpl; [|exact Hset].
  rewrite (Hreq _ _ Hround1). simpl. exact Hset.
Qed.
(** A build run whose three adapters return goes on to the notifier,
    hands it the commit identifier it read back, and takes its status
    from what the notifier returns. *)
Lemma build_run_notifies st req record code repo_url pages_url sha :
  let task_id := Main.task_id_of (BuildRequest.task req) (BuildRequest.round req) in
  let repo_name :=
    BuildRequest.task req +:+ "-"
    +:+ String.substring 0 8 (uuid4_hex (uuids_drawn st)) in
  let payload :=
    {| er_email := BuildRequest.email req;
       er_task := BuildRequest.task req;
       er_round := BuildRequest.round req;
       er_nonce := BuildRequest.nonce req;
       repo_url := repo_url;
       commit_sha := sha;
       pages_url := pages_url |} in
  task_store st !! task_id = Some record →
  generate_app_code (BuildRequest.brief req) (BuildRequest.checks req)
    (save_attachments write_temp_file (BuildRequest.attachments req)) None
    = Return code →
  create_repository repo_name code
    ("Generated app for: " +:+ String.substring 0 100 (BuildRequest.brief req)
     +:+ "...") = Return (repo_url, pages_url) →
  get_latest_commit (PyStr repo_name) = Return sha →
  ∃ returned evs st',
    (∀ s, EvaluationClient.submit_evaluation post payload
            (BuildRequest.evaluation_url req) s = (Return returned, observe evs s)) ∧
    run_task (BuildTask req) st = (Return tt, st') ∧
    task_store st' =
      <[task_id := {| request := request record;
                      status := if returned then "completed"
                                else "evaluation_failed" |}]> (task_store st) ∧
    log st' = log st ++ [EvGenerate (BuildRequest.brief req)
                           (BuildRequest.checks req)
                           (save_attachments write_temp_file
                              (BuildRequest.attachments req)) None;
                         EvCreateRepository repo_name;
                         EvLatestCommit (PyStr repo_name)]
                     ++ evs
                     ++ [EvSetStatus task_id
                           (if returned then "completed" else "evaluation_failed")].
Proof.
  intros task_id repo_name payload Hrec Hgen Hpub Hsha.
  destruct (submit_evaluation_total post payload (BuildRequest.evaluation_url req))
    as (returned & evs & _ & Hsubmit).
  exists returned, evs. eexists. split; [exact Hsubmit|].
  cbn [Main.run_task].
  unfold Main.process_build_request, try_except, bind, emit, lift, Main.uuid4.
  fold task_id. rewrite Hgen.
  cbn -[EvaluationClient.submit_evaluation Main.set_status String.append
        String.substring save_attachments task_id].
  fold repo_name. rewrite Hpub. cbv beta iota. rewrite Hsha. fold payload.
  rewrite Hsubmit. cbv beta iota.
  replace (if returned
           then Main.set_status task_id "completed"
           else Main.set_status task_id "evaluation_failed")
    with (Main.set_status task_id
            (if returned then "completed" else "evaluation_failed"))
    by (by destruct returned).
  rewrite (set_status_eq _ _ record) by exact Hrec.
  split; [reflexivity|]. split; [reflexivity|].
  simpl. by rewrite <- !app_assoc.
Qed.

(** C3: a build run whose task is in the store returns after writing
    exactly one status, a terminal one.  It is [failed] when the
    generation adapter raises, and then the publication adapter is never
    called; [failed] too when the publication adapter or the commit
    read-back raises; otherwise [completed] when the notifier returns
    [True] and [evaluation_failed] when it returns [False]. *)
Theorem build_run_terminal_status st req record :
  let task_id := Main.task_id_of (BuildRequest.task req) (BuildRequest.round req) in
  let attachment_paths :=
    save_attachments write_temp_file (BuildRequest.attachments req) in
  let generated :=
    generate_app_code (BuildRequest.brief req) (BuildRequest.checks req)
      attachment_paths None in
  let repo_name :=
    BuildRequest.task req +:+ "-"
    +:+ String.substring 0 8 (uuid4_hex (uuids_drawn st)) in
  let description :=
    "Generated app for: " +:+ String.substring 0 100 (BuildRequest.brief req)
    +:+ "..." in
  task_store st !! task_id = Some record →
  ∃ final evs st',
    run_task (BuildTask req) st = (Return tt, st') ∧
    log st' = log st ++ evs ∧
    task_store st' =
      <[task_id := {| request := request record; status := final |}]>
        (task_store st) ∧
    status_writes evs = [(task_id, final)] ∧
    final ∈ ["completed"; "evaluation_failed"; "failed"] ∧
    (∀ e, generated = Raise e →
       final = "failed" ∧ filter publication_event evs = []) ∧
    (∀ code, generated = Return code →
       (∀ e, create_repository repo_name code description = Raise e →
          final = "failed") ∧
       (∀ repo_url pages_url,
          create_repository repo_name code description
            = Return (repo_url, pages_url) →
          (∀ e, get_latest_commit (PyStr repo_name) = Raise e →
             final = "failed") ∧
          (∀ sha, get_latest_commit (PyStr repo_name) = Return sha →
             ∀ returned s,
               fst (EvaluationClient.submit_evaluation post
                      {| er_email := BuildRequest.email req;
                         er_task := BuildRequest.task req;
                         er_round := BuildRequest.round req;
                         er_nonce := BuildRequest.nonce req;
                         repo_url := repo_url;
                         commit_sha := sha;
                         pages_url := pages_url |}
                      (BuildRequest.evaluation_url req) s) = Return returned →
               final = if returned then "completed" else "evaluation_failed"))).
Proof.
  intros task_id attachment_paths generated repo_name description Hrec.
  subst generated repo_name description attachment_paths.
  cbn [Main.run_task].
  unfold Main.process_build_request, try_except, bind, emit, lift, Main.uuid4.
  fold task_id.
  cbn -[EvaluationClient.submit_evaluation Main.set_status String.append
        String.substring save_attachments task_id].
  destruct (generate_app_code _ _ _ _) as [code|e_gen].
  2:{ (* the generation adapter raises *)
    eexists "failed", _, _.
    split; [apply (set_status_eq _ _ record); exact Hrec|]. simpl.
    split; [by rewrite <- app_assoc|]. split; [done|]. split; [done|].
    split; [set_solver|]. split; [done|]. intros code [=]. }
  destruct (create_repository _ code _) as [[repo_url pages_url]|e_pub] eqn:Hpub.
  2:{ (* the publication adapter raises *)
    eexists "failed", _, _.
    split; [apply (set_status_eq _ _ record); exact Hrec|]. simpl.
    split; [by rewrite <- !app_assoc|]. split; [done|]. split; [done|].
    split; [set_solver|]. split; [intros e [=]|].
    intros code' [= <-]. split; [done|]. intros ? ?. by rewrite Hpub. }
  destruct (get_latest_commit _) as [sha|e_sha] eqn:Hsha.
  2:{ (* the commit read-back raises *)
    eexists "failed", _, _.
    split; [apply (set_status_eq _ _ record); exact Hrec|]. simpl.
    split; [by rewrite <- !app_assoc|]. split; [done|]. split; [done|].
    split; [set_solver|]. split; [intros e [=]|].
    intros code' [= <-]. split; [by rewrite Hpub|].
    intros repo_url' pages_url'. rewrite Hpub. intros [= <- <-].
    split; [done|]. intros ? [=]. }
  (* the notifier runs *)
  set (payload := {| er_email := BuildRequest.email req;
                     er_task := BuildRequest.task req;
                     er_round := BuildRequest.round req;
                     er_nonce := BuildRequest.nonce req;
                     repo_url := repo_url;
                     commit_sha := sha;
                     pages_url := pages_url |}).
  destruct (submit_evaluation_total post payload (BuildRequest.evaluation_url req))
    as (returned & evs & Hevs & Hsubmit).
  destruct (status_writes_delivery evs Hevs) as [Hwrites Hpubs].
  rewrite Hsubmit. cbv beta iota.
  replace (if returned
           then Main.set_status task_id "completed"
           else Main.set_status task_id "evaluation_failed")
    with (Main.set_status task_id
            (if returned then "completed" else "evaluation_failed"))
    by (by destruct returned).
  eexists (if returned then "completed" else "evaluation_failed"), _, _.
  split; [by rewrite (set_status_eq _ _ record) by exact Hrec|]. simpl.
  split; [by rewrite <- !app_assoc|]. split; [done|].
  split.
  { unfold status_writes in *. rewrite !omap_app, Hwrites. done. }
  split; [destruct returned; set_solver|]. split; [intros e [=]|].
  intros code' [= <-]. split; [by rewrite Hpub|].
  intros repo_url' pages_url'. rewrite Hpub. intros [= <- <-].
  split; [intros ? [=]|].
  intros sha' [= <-] returned' s. fold payload. rewrite Hsubmit. simpl.
  by intros [= <-].
Qed.
End system.

(** ** A sample run of the service *)

Lemma verify_secret_trust_on_first_use_witness :
  verify_secret "a@x.com" "s1" init =
    (Return true, set_SECRET_STORE (<["a@x.com" := "s1"]>) init) ∧
  verify_secret "a@x.com" "s2" alpha_accepted = (Return false, alpha_accepted) ∧
  SECRET_STORE alpha_revising !! "a@x.com" = Some "s1".
Proof.
  pose proof (verify_secret_trust_on_first_use no_temp_file sample_uuid4_hex
                sample_generate sample_create sample_update sample_commit
                third_time_lucky) as H.
  split; [|split].
  - refine (proj1 (proj1 (H "a@x.com" "s1" init) _)). reflexivity.
  - refine (proj1 (proj2 (H "a@x.com" "s2" alpha_accepted) "s1" _)). reflexivity.
  - refine (proj2 (proj2 (H "a@x.com" "s2" alpha_accepted) "s1" _)
              alpha_revising _); [reflexivity|].
    apply rtc_once. apply Main.step_revise. unfold RevisionRequest.valid.
    simpl. lia.
Defined.

Lemma revision_run_always_fails_witness :
  ∃ record, task_store alpha_revising !! "alpha-2" = Some record ∧
    Main.run_task (gmap string string) no_temp_file sample_uuid4_hex
      sample_generate sample_create sample_update sample_commit
      third_time_lucky (RevisionTask alpha_revision)
      (set_scheduled (λ _, [BuildTask alpha_build] ++ []) alpha_revising) =
      (Return tt,
       observe [EvSetStatus "alpha-2" "failed"]
         (set_task_store
            (<["alpha-2" := {| request := request record; status := "failed" |}]>)
            (set_scheduled (λ _, [BuildTask alpha_build] ++ []) alpha_revising))).
Proof.
  refine (proj2 (revision_run_always_fails no_temp_file sample_uuid4_hex
                   sample_generate sample_create sample_update sample_commit
                   third_time_lucky alpha_revising alpha_revision
                   [BuildTask alpha_build] [] _ _)).
  - eapply rtc_l; [apply (Main.step_deploy _ _ _ _ _ _ _ _ alpha_build)|].
    { unfold BuildRequest.valid. simpl. lia. }
    apply rtc_once. apply (Main.step_revise _ _ _ _ _ _ _ _ alpha_revision).
    unfold RevisionRequest.valid. simpl. lia.
  - reflexivity.
Defined.

Lemma build_run_terminal_status_witness :
  ∃ st', Main.run_task (gmap string string) no_temp_file sample_uuid4_hex
           sample_generate sample_create sample_update sample_commit
           third_time_lucky (BuildTask alpha_build) alpha_accepted
         = (Return tt, st') ∧
         status <$> (task_store st' !! "alpha-1") = Some "completed".
Proof.
  destruct (build_run_terminal_status no_temp_file sample_uuid4_hex
              sample_generate sample_create sample_update sample_commit
              third_time_lucky alpha_accepted alpha_build
              {| request := BuildRequest_dict alpha_build; status := "processing" |}
              eq_refl)
    as (final & evs & st' & Hrun & _ & Hstore & _ & _ & _ & Hgen).
  exists st'. split; [exact Hrun|].
  destruct (Hgen _ eq_refl) as [_ Hpub].
  destruct (Hpub _ _ eq_refl) as [_ Hsha].
  rewrite (Hsha _ eq_refl true init eq_refl) in Hstore.
  rewrite Hstore. by rewrite lookup_insert_eq.
Defined.

(** The scenario end to end: the request is accepted under [alpha-1]
    with status [processing]; after the run, with the endpoint answering
    200 to the third attempt, the status is [completed] and the status
    query says so. *)
Example alpha_end_to_end :
  fst (Main.deploy_app alpha_build init) = Return (Main.accepted "alpha-1") ∧
  status <$> (task_store alpha_accepted !! "alpha-1") = Some "processing" ∧
  scheduled alpha_accepted = [BuildTask alpha_build] ∧
  ∃ st', Main.run_task (gmap string string) no_temp_file sample_uuid4_hex
           sample_generate sample_create sample_update sample_commit
           third_time_lucky (BuildTask alpha_build)
           (set_scheduled (λ _, []) alpha_accepted) = (Return tt, st') ∧
         fst (Main.get_task_status "alpha-1" st')
           = Return ("alpha-1", "completed", BuildRequest_dict alpha_build) ∧
         delays (log st') = [1; 2].
Proof.
  split; [reflexivity|]. split; [reflexivity|]. split; [reflexivity|].
  eexists. split; [vm_compute; reflexivity|]. split; reflexivity.
Qed.

(** ** Status codes of the two handlers *)

(** A rejected request is answered with status 500, whatever the [try]
    block raised: [except Exception] also catches the [HTTPException]
    raised inside the block.  So neither handler ever answers 401 or 404. *)
Lemma deploy_app_status request st :
  Main.http_status (fst (Main.deploy_app request st)) =
    if accepts st (BuildRequest.email request) (BuildRequest.secret request)
    then 200 else 500.
Proof. rewrite deploy_app_eq. cbv zeta. by destruct (accepts _ _ _). Qed.

Lemma revise_app_status request st :
  Main.http_status (fst (Main.revise_app request st)) =
    if accepts st (RevisionRequest.email request) (RevisionRequest.secret request)
    then match task_store st !! (RevisionRequest.task request +:+ "-1") with
         | Some _ => 200
         | None => 500
         end
    else 500.
Proof.
  rewrite revise_app_eq. cbv zeta. destruct (accepts _ _ _); [|done].
  by destruct (task_store st !! _).
Qed.

(** C1: a build request whose secret check fails makes the [try] block
    of [deploy_app] raise the 401, and a revision request that passes the
    secret check while no round-1 record exists makes the block of
    [revise_app] raise the 404; but the handlers answer 500 in both
    cases, as they do nothing else than 200 or 500.  So it is with
    [a@x.com] bound to [s1], for a build request that presents [s2] and
    for a revision request for [beta], of which no round-1 record exists.
    [get_task_status], which has no [try], answers 404 for an unknown
    task. *)
Theorem deploy_and_revise_answer_500 :
  (∀ request st,
     accepts st (BuildRequest.email request) (BuildRequest.secret request)
       = false →
     fst (Main.deploy_app_try request st) = Raise invalid_secret ∧
     Main.http_status (fst (Main.deploy_app request st)) = 500) ∧
  (∀ request st,
     accepts st (RevisionRequest.email request) (RevisionRequest.secret request)
       = true →
     task_store st !! (RevisionRequest.task request +:+ "-1") = None →
     fst (Main.revise_app_try request st) = Raise original_task_not_found ∧
     Main.http_status (fst (Main.revise_app request st)) = 500) ∧
  fst (verify_secret "a@x.com" "s2" alpha_accepted) = Return false ∧
  fst (Main.deploy_app_try alpha_build_wrong_secret alpha_accepted)
    = Raise (HTTPException 401 (Detail "Invalid secret")) ∧
  Main.http_status (fst (Main.deploy_app alpha_build_wrong_secret alpha_accepted))
    = 500 ∧
  task_store alpha_accepted !! "beta-1" = None ∧
  fst (Main.revise_app_try beta_revision alpha_accepted)
    = Raise (HTTPException 404 (Detail "Original task not found")) ∧
  Main.http_status (fst (Main.revise_app beta_revision alpha_accepted)) = 500 ∧
  fst (Main.get_task_status "beta-1" alpha_accepted)
    = Raise (HTTPException 404 (Detail "Task not found")).
Proof.
  split; [|split; [|repeat split; reflexivity]].
  - intros request st Hrej. rewrite deploy_app_try_eq, deploy_app_status.
    cbv zeta. by rewrite Hrej.
  - intros request st Hacc Hnone. rewrite revise_app_try_eq, revise_app_status.
    cbv zeta. by rewrite Hacc, Hnone.
Qed.

(** ** Acceptance of a revision request *)

(** C7, as stated, fails: no record [beta-1] exists, and the request is
    rejected for its secret, not with "not found". *)
Lemma revise_wrong_secret_not_not_found :
  task_store alpha_accepted !! "beta-1" = None ∧
  fst (Main.revise_app_try beta_revision_wrong_secret alpha_accepted)
    = Raise invalid_secret ∧
  ¬ (task_store alpha_accepted !! "beta-1" = None ↔
     rejected_not_found
       (fst (Main.revise_app beta_revision_wrong_secret alpha_accepted))).
Proof.
  split; [reflexivity|]. split; [reflexivity|].
  intros [Hnf _]. destruct (Hnf eq_refl) as [H|H]; vm_compute in H; discriminate.
Qed.

(** C7, amended: for a revision request that passes the secret check,
    the round-1 check raises "Original task not found" exactly when no
    record for [T-1] exists, and the request is accepted exactly when one
    exists; a request that fails the secret check is rejected for its
    secret whatever the store holds; and the statuses in the store play
    no role in the answer. *)
Theorem revise_app_needs_round1_record req st :
  let round1_task_id := RevisionRequest.task req +:+ "-1" in
  let task_id := Main.task_id_of (RevisionRequest.task req)
                                 (RevisionRequest.round req) in
  (accepts st (RevisionRequest.email req) (RevisionRequest.secret req) = true →
     (fst (Main.revise_app_try req st) = Raise original_task_not_found ↔
      task_store st !! round1_task_id = None) ∧
     (fst (Main.revise_app req st) = Return (Main.accepted task_id) ↔
      is_Some (task_store st !! round1_task_id))) ∧
  (accepts st (RevisionRequest.email req) (RevisionRequest.secret req) = false →
     fst (Main.revise_app_try req st) = Raise invalid_secret) ∧
  (∀ st2, same_up_to_status st st2 →
     fst (Main.revise_app req st2) = fst (Main.revise_app req st)).
Proof.
  intros round1_task_id task_id. split; [|split].
  - intros Hacc. rewrite revise_app_try_eq, revise_app_eq. cbv zeta.
    rewrite Hacc. fold round1_task_id.
    destruct (task_store st !! round1_task_id) as [record|]; simpl.
    + split; split; done.
    + split; split; done.
  - intros Hrej. rewrite revise_app_try_eq. cbv zeta. by rewrite Hrej.
  - intros st2 [Hsecrets Hrequests]. rewrite !revise_app_eq. cbv zeta.
    unfold accepts. rewrite Hsecrets.
    specialize (Hrequests round1_task_id). fold round1_task_id.
    destruct (SECRET_STORE st2 !! RevisionRequest.email req).
    all: destruct (task_store st !! round1_task_id),
                  (task_store st2 !! round1_task_id); simpl in *;
         try done; by destruct (String.eqb _ _).
Qed.

Lemma revise_app_needs_round1_record_witness :
  (fst (Main.revise_app_try alpha_revision alpha_accepted)
     = Raise original_task_not_found ↔
   task_store alpha_accepted !! "alpha-1" = None) ∧
  (fst (Main.revise_app alpha_revision alpha_accepted)
     = Return (Main.accepted "alpha-2") ↔
   is_Some (task_store alpha_accepted !! "alpha-1")).
Proof.
  refine (proj1 (revise_app_needs_round1_record alpha_revision alpha_accepted) _).
  reflexivity.
Defined.

(** ** The commit read-back *)

(** C9, as stated, fails: the lookup fails with an exception that is not
    a [GithubException]; [get_latest_commit] raises it instead of
    returning ["unknown"], and the build run that reads the commit back
    ends as [failed] without notifying. *)
Lemma get_latest_commit_can_raise :
  fst (GitHubClient.latest_commit_lookup "octo" sample_commit_id "alpha-01234567"
         unreachable_provider)
    = Raise (OtherError "ConnectionError" "connection reset") ∧
  fst (GitHubClient.get_latest_commit "octo" sample_commit_id "alpha-01234567"
         unreachable_provider)
    = Raise (OtherError "ConnectionError" "connection reset") ∧
  ∃ st', Main.run_task (gmap string string) no_temp_file sample_uuid4_hex
           sample_generate sample_create sample_update
           (commit_adapter "octo" sample_commit_id unreachable_provider)
           third_time_lucky (BuildTask alpha_build) alpha_accepted
         = (Return tt, st') ∧
         status <$> (task_store st' !! "alpha-1") = Some "failed" ∧
         filter is_post (log st') = [].
Proof.
  split; [reflexivity|]. split; [reflexivity|].
  eexists. split; [vm_compute; reflexivity|]. split; reflexivity.
Qed.

Lemma get_latest_commit_eq login commit_id repo_name gh :
  GitHubClient.get_latest_commit login commit_id repo_name gh =
    match GitHubClient.latest_commit_lookup login commit_id repo_name gh with
    | (Return sha, gh') => (Return sha, gh')
    | (Raise (GithubException _), gh') => (Return "unknown", gh')
    | (Raise e, gh') => (Raise e, gh')
    end.
Proof.
  unfold GitHubClient.get_latest_commit, try_except.
  destruct (GitHubClient.latest_commit_lookup _ _ _ _) as [[sha|e] gh']; [done|].
  by destruct e.
Qed.

(** C9, amended: when the provider lookup fails with a
    [GithubException], [get_latest_commit] returns ["unknown"] instead of
    raising; an exception of another class passes through.  A build run
    whose lookup fails with a [GithubException] is not aborted: it hands
    the notifier the payload with commit identifier ["unknown"] and ends
    as [completed] or [evaluation_failed], as the notifier returns. *)
Theorem get_latest_commit_absorbs_GithubException login commit_id gh repo_name :
  (∀ msg gh',
     GitHubClient.latest_commit_lookup login commit_id repo_name gh
       = (Raise (GithubException msg), gh') →
     GitHubClient.get_latest_commit login commit_id repo_name gh
       = (Return "unknown", gh')) ∧
  (∀ sha gh',
     GitHubClient.latest_commit_lookup login commit_id repo_name gh
       = (Return sha, gh') →
     GitHubClient.get_latest_commit login commit_id repo_name gh
       = (Return sha, gh')) ∧
  (∀ e gh',
     GitHubClient.latest_commit_lookup login commit_id repo_name gh
       = (Raise e, gh') →
     is_GithubException e = false →
     GitHubClient.get_latest_commit login commit_id repo_name gh
       = (Raise e, gh')) ∧
  (∀ (code_t : Type) write_temp_file uuid4_hex
     (generate_app_code :
        string → list string → list string → option pyobj → result code_t)
     create_repository update_repository post
     st req record code repo_url pages_url msg,
     let task_id :=
       Main.task_id_of (BuildRequest.task req) (BuildRequest.round req) in
     repo_name = BuildRequest.task req +:+ "-"
                 +:+ String.substring 0 8 (uuid4_hex (uuids_drawn st)) →
     task_store st !! task_id = Some record →
     generate_app_code (BuildRequest.brief req) (BuildRequest.checks req)
       (save_attachments write_temp_file (BuildRequest.attachments req)) None
       = Return code →
     create_repository repo_name code
       ("Generated app for: " +:+ String.substring 0 100 (BuildRequest.brief req)
        +:+ "...") = Return (repo_url, pages_url) →
     fst (GitHubClient.latest_commit_lookup login commit_id repo_name gh)
       = Raise (GithubException msg) →
     ∃ returned st',
       (∀ s, fst (EvaluationClient.submit_evaluation post
                    {| er_email := BuildRequest.email req;
                       er_task := BuildRequest.task req;
                       er_round := BuildRequest.round req;
                       er_nonce := BuildRequest.nonce req;
                       repo_url := repo_url;
                       commit_sha := "unknown";
                       pages_url := pages_url |}
                    (BuildRequest.evaluation_url req) s) = Return returned) ∧
       Main.run_task code_t write_temp_file uuid4_hex generate_app_code
         create_repository update_repository
         (commit_adapter login commit_id gh) post (BuildTask req) st
         = (Return tt, st') ∧
       status <$> (task_store st' !! task_id)
         = Some (if returned then "completed" else "evaluation_failed")).
Proof.
  split; [|split; [|split]].
  - intros msg gh' Hlookup. by rewrite get_latest_commit_eq, Hlookup.
  - intros sha gh' Hlookup. by rewrite get_latest_commit_eq, Hlookup.
  - intros e gh' Hlookup Hclass. rewrite get_latest_commit_eq, Hlookup.
    by destruct e.
  - intros code_t write_temp_file uuid4_hex generate_app_code create_repository
      update_repository post st req record code repo_url pages_url msg task_id
      -> Hrec Hgen Hpub Hlookup.
    destruct (build_run_notifies write_temp_file uuid4_hex generate_app_code
                create_repository update_repository
                (commit_adapter login commit_id gh) post
                st req record code repo_url pages_url "unknown" Hrec Hgen Hpub)
      as (returned & evs & st' & Hsubmit & Hrun & Hstore & _).
    { unfold commit_adapter. rewrite get_latest_commit_eq.
      destruct (GitHubClient.latest_commit_lookup _ _ _ _) as [r gh'].
      simpl in Hlookup. by subst r. }
    exists returned, st'. split; [intros s; by rewrite Hsubmit|].
    split; [exact Hrun|]. rewrite Hstore. by rewrite lookup_insert_eq.
Qed.

Lemma get_latest_commit_absorbs_GithubException_witness :
  GitHubClient.get_latest_commit "octo" sample_commit_id "alpha-01234567"
    empty_provider = (Return "unknown", empty_provider).
Proof.
  refine (proj1 (get_latest_commit_absorbs_GithubException "octo" sample_commit_id
                   empty_provider "alpha-01234567") "404 Not Found" _ _).
  reflexivity.
Defined.

(** ** The update of a repository *)

#[local] Instance outside_untouched_preorder full generated :
  PreOrder (outside_untouched full generated).
Proof.
  split.
  - by intros gh repo f _.
  - intros gh1 gh2 gh3 H12 H23 repo f Hout. by rewrite H23, H12.
Qed.

Section frame.
Variables (full : string) (generated : string → Prop).
Local Abbreviation frame := (preserves (outside_untouched full generated)).

Lemma frame_api_call : frame GitHub.api_call.
Proof.
  intros gh repo f _. unfold GitHub.api_call.
  by destruct (GitHub.faults gh) as [|[e|] rest].
Qed.

Lemma frame_read {A} (g : gmap string GitHub.repository → result A) :
  frame (GitHub.read g).
Proof. by intros gh repo f _. Qed.

Lemma frame_write path (g : GitHub.repository → result GitHub.repository) :
  generated path →
  (∀ r r', g r = Return r' →
     ∀ f, f ≠ path → GitHub.files r' !! f = GitHub.files r !! f) →
  frame (GitHub.write full g).
Proof.
  intros Hgen Hg gh repo f Hout. unfold GitHub.write.
  destruct (GitHub.repos gh !! full) as [r|] eqn:Hr; [|done].
  destruct (g r) as [r'|e] eqn:Hgr; [|done].
  unfold file_at. simpl.
  destruct (decide (full = repo)) as [<-|Hne].
  - rewrite lookup_insert_eq, Hr. simpl. apply (Hg _ _ Hgr).
    intros ->. by destruct Hout.
  - by rewrite lookup_insert_ne.
Qed.

Lemma files_commit_file_ne path message content r f :
  f ≠ path →
  GitHub.files (GitHub.commit_file path message content r) !! f
    = GitHub.files r !! f.
Proof. intros Hne. simpl. by rewrite lookup_insert_ne. Qed.

Lemma frame_upsert_file repo item :
  GitHub.full_name repo = full → generated item.1 →
  frame (GitHubClient.upsert_file repo item).
Proof.
  intros Hfull Hgen. destruct item as [filename content].
  unfold GitHubClient.upsert_file, GitHub.get_contents, GitHub.update_file,
    GitHub.create_file.
  rewrite Hfull.
  repeat first
    [ apply preserves_try_except | apply preserves_bind | progress intros
    | apply frame_api_call | apply frame_read
    | apply (frame_write filename); [exact Hgen|]
    | apply outside_untouched_preorder ].
  all: match goal with
       | H : match GitHub.files ?r !! ?path with _ => _ end = Return _ |- _ =>
           destruct (GitHub.files r !! path); try done;
           try (destruct (String.eqb _ _); [|done]);
           injection H as <-; by apply files_commit_file_ne
       end.
Qed.
End frame.

Lemma get_repo_inv name gh r gh' :
  GitHub.get_repo name gh = (r, gh') →
  GitHub.repos gh' = GitHub.repos gh ∧
  ∀ repo, r = Return repo → GitHub.full_name repo = name.
Proof.
  unfold GitHub.get_repo, bind, GitHub.api_call, GitHub.read.
  destruct (GitHub.faults gh) as [|[e|] rest]; simpl.
  - intros [= <- <-]. split; [done|]. intros repo.
    destruct (GitHub.repos gh !! name); [by intros [= <-]|done].
  - intros [= <- <-]. split; [done|]. done.
  - intros [= <- <-]. split; [done|]. intros repo.
    destruct (GitHub.repos gh !! name); [by intros [= <-]|done].
Qed.

(** Whatever the provider does, [update_repository] leaves every file
    outside the generated set, and every other repository, as it was. *)
Lemma update_repository_frame login name code :
  preserves (outside_untouched (login +:+ "/" +:+ name) (λ f, is_Some (code !! f)))
            (GitHubClient.update_repository login name code).
Proof.
  intros gh. unfold GitHubClient.update_repository, try_except.
  set (full := login +:+ "/" +:+ name).
  set (R := outside_untouched full (λ f, is_Some (code !! f))).
  assert (R gh (snd ((repo <- GitHub.get_repo full ;;
                      for_each (GitHubClient.upsert_file repo) (map_to_list code) ;;;
                      ret (GitHub.handle_url repo,
                           "https://" +:+ login +:+ ".github.io/" +:+ name)) gh)))
    as Hbody.
  { unfold bind at 1.
    destruct (GitHub.get_repo full gh) as [r gh1] eqn:Hget.
    destruct (get_repo_inv _ _ _ _ Hget) as [Hrepos Hname].
    assert (R gh gh1) as Hstep by (intros repo f _; unfold file_at; by rewrite Hrepos).
    destruct r as [repo|e]; [|done].
    etrans; [exact Hstep|].
    apply preserves_bind; [apply _| |intros; apply preserves_ret; apply _].
    apply preserves_for_each; [apply _|].
    intros [filename content] Hitem%elem_of_map_to_list.
    apply frame_upsert_file; [by apply Hname|]. simpl. by eexists. }
  destruct ((repo <- GitHub.get_repo full ;; _) gh) as [[urls|e] gh'];
    [done|].
  simpl in *. by destruct (is_GithubException e).
Qed.

(** With a repository [r] under [full] and no failing call, one pass of
    the loop is [upsert]. *)
Lemma upsert_file_no_fault repo item base r :
  GitHubClient.upsert_file repo item
    {| GitHub.repos := <[GitHub.full_name repo := r]> base; GitHub.faults := [] |} =
  (Return tt,
   {| GitHub.repos := <[GitHub.full_name repo := upsert r item]> base;
      GitHub.faults := [] |}).
Proof.
  destruct item as [filename content].
  unfold GitHubClient.upsert_file, GitHub.get_contents, GitHub.update_file,
    GitHub.create_file, GitHub.api_call, GitHub.read, GitHub.write, upsert,
    commit_message, try_except, bind.
  simpl. rewrite !lookup_insert_eq.
  destruct (GitHub.files r !! filename) as [current|] eqn:Hfile; simpl.
  - rewrite String.eqb_refl. by rewrite insert_insert_eq.
  - rewrite lookup_insert_eq, Hfile. by rewrite insert_insert_eq.
Qed.

Lemma for_each_upsert_no_fault repo items base r :
  for_each (GitHubClient.upsert_file repo) items
    {| GitHub.repos := <[GitHub.full_name repo := r]> base; GitHub.faults := [] |} =
  (Return tt,
   {| GitHub.repos := <[GitHub.full_name repo := foldl upsert r items]> base;
      GitHub.faults := [] |}).
Proof.
  revert r. induction items as [|item items IH]; intros r; [done|].
  cbn [for_each foldl].
  erewrite bind_Return by apply upsert_file_no_fault. apply IH.
Qed.

Lemma upsert_files r items f :
  NoDup items.*1 →
  GitHub.files (foldl upsert r items) !! f =
    match list_to_map (M := gmap string string) items !! f with
    | Some content => Some content
    | None => GitHub.files r !! f
    end.
Proof.
  revert r. induction items as [|[filename content] items IH]; intros r Hnodup.
  { simpl. by rewrite lookup_empty. }
  apply NoDup_cons in Hnodup as [Hfresh Hnodup]. cbn [foldl].
  rewrite IH by done. simpl.
  destruct (decide (filename = f)) as [<-|Hne].
  - rewrite lookup_insert_eq.
    rewrite (not_elem_of_list_to_map_1 _ filename) by done.
    by rewrite lookup_insert_eq.
  - rewrite !lookup_insert_ne by done. done.
Qed.

Lemma upsert_commits r items :
  NoDup items.*1 →
  GitHub.commits (foldl upsert r items)
    = GitHub.commits r ++ (commit_message r <$> items).
Proof.
  revert r. induction items as [|[filename content] items IH]; intros r Hnodup.
  { simpl. by rewrite app_nil_r. }
  apply NoDup_cons in Hnodup as [Hfresh Hnodup]. cbn [foldl].
  rewrite IH by done. simpl. rewrite <- app_assoc. f_equal. simpl. f_equal.
  apply list_fmap_ext. intros i [filename' content'] Hitem.
  unfold commit_message. simpl.
  rewrite lookup_insert_ne; [done|]. intros ->. apply Hfresh.
  apply list_elem_of_fmap. exists (filename', content'). split; [done|].
  by eapply list_elem_of_lookup_2.
Qed.

(** C8: [update_repository] leaves every file outside the generated set,
    and every other repository, as it was, whatever the provider does.
    When the repository exists and no call to the provider fails, it
    returns, and afterwards every file of the generated set has its
    generated content, by one commit [Update f] if the repository had the
    file and one commit [Add f] otherwise. *)
Theorem update_repository_upserts login name code gh :
  let full := login +:+ "/" +:+ name in
  (∀ repo f, repo ≠ full ∨ code !! f = None →
     file_at (snd (GitHubClient.update_repository login name code gh)) repo f
       = file_at gh repo f) ∧
  (∀ r, GitHub.repos gh !! full = Some r → GitHub.faults gh = [] →
     ∃ r',
       GitHubClient.update_repository login name code gh =
         (Return (GitHub.html_url r,
                  "https://" +:+ login +:+ ".github.io/" +:+ name),
          {| GitHub.repos := <[full := r']> (GitHub.repos gh);
             GitHub.faults := [] |}) ∧
       (∀ f content, code !! f = Some content →
          GitHub.files r' !! f = Some content) ∧
       (∀ f, code !! f = None → GitHub.files r' !! f = GitHub.files r !! f) ∧
       GitHub.commits r' =
         GitHub.commits r ++ (commit_message r <$> map_to_list code)).
Proof.
  intros full. split.
  - intros repo f Hout. apply update_repository_frame.
    destruct Hout as [?|Hnone]; [by left|right].
    rewrite Hnone. by intros [? ?].
  - intros r Hr Hfaults. exists (foldl upsert r (map_to_list code)).
    assert (NoDup (map_to_list code).*1) as Hnodup by apply NoDup_fst_map_to_list.
    split; [|split; [|split]].
    + unfold GitHubClient.update_repository, try_except. fold full.
      destruct gh as [repos faults]. simpl in *. subst faults.
      unfold bind at 1. unfold GitHub.get_repo, bind, GitHub.api_call, GitHub.read.
      simpl. rewrite Hr.
      rewrite <- (insert_id repos full r) at 1 by done.
      change full with
        (GitHub.full_name {| GitHub.full_name := full;
                             GitHub.handle_url := GitHub.html_url r |}) at 1.
      rewrite for_each_upsert_no_fault. done.
    + intros f content Hf. rewrite upsert_files by done.
      by rewrite list_to_map_to_list, Hf.
    + intros f Hf. rewrite upsert_files by done.
      by rewrite list_to_map_to_list, Hf.
    + by apply upsert_commits.
Qed.

Lemma update_repository_upserts_witness :
  ∃ r',
    fst (GitHubClient.update_repository "octo" "alpha-01234567" revision_code
           round1_provider)
      = Return ("https://github.com/octo/alpha-01234567",
                "https://octo.github.io/alpha-01234567") ∧
    GitHub.repos (snd (GitHubClient.update_repository "octo" "alpha-01234567"
                         revision_code round1_provider))
      !! "octo/alpha-01234567" = Some r' ∧
    GitHub.files r' !! "index.html" = Some "<html>v2</html>" ∧
    GitHub.files r' !! "script.js" = Some "// v2" ∧
    GitHub.files r' !! "old.css" = Some "body {}".
Proof.
  destruct (proj2 (update_repository_upserts "octo" "alpha-01234567"
                     revision_code round1_provider)
              round1_repository eq_refl eq_refl)
    as (r' & Hrun & Hin & Hout & _).
  exists r'. rewrite Hrun. split; [reflexivity|]. split.
  { simpl. apply lookup_insert_eq. }
  split; [by apply Hin|]. split; [by apply Hin|].
  by rewrite Hout.
Defined.

(** ** Finding the JSON text in the generated text *)

Lemma substring_none n s : String.substring n 0 s = EmptyString.
Proof. revert n. induction s as [|a s IH]; intros [|n]; simpl; auto. Qed.

Lemma substring_skip pre c post m :
  String.substring (String.length pre) (S m) (pre +:+ String c post)
    = String c (String.substring 0 m post).
Proof. induction pre as [|a pre IH]; simpl; [done|apply IH]. Qed.

Lemma find_from_spec s c i :
  find_from s c i = -1 ∨
  ∃ pre post, s = pre +:+ String c post ∧
              find_from s c i = i + Z.of_nat (String.length pre).
Proof.
  revert i. induction s as [|a s IH]; intros i; simpl; [by left|].
  destruct (Ascii.eqb_spec a c) as [->|Hne].
  - right. exists EmptyString, s. simpl. split; [done|lia].
  - destruct (IH (i + 1)) as [Hnone|(pre & post & -> & Hfound)]; [by left|].
    right. exists (String a pre), post. simpl. split; [done|]. lia.
Qed.

Lemma rfind_from_spec s c i last :
  last < i →
  rfind_from s c i last < i + len s ∧
  (last <= rfind_from s c i last) ∧
  (s ≠ EmptyString → rfind_from s c i last = i + len s - 1 →
   ∃ pre, s = pre +:+ String c EmptyString).
Proof.
  unfold len. revert i last. induction s as [|a s IH]; intros i last Hlast.
  { simpl. split; [lia|]. split; [lia|]. done. }
  cbn [rfind_from String.length].
  destruct (IH (i + 1) (if Ascii.eqb a c then i else last)) as (Hlt & Hge & Hend).
  { destruct (Ascii.eqb a c); lia. }
  split; [lia|]. split; [destruct (Ascii.eqb a c); lia|].
  intros _ Hlastidx. destruct s as [|b s].
  - simpl in *. destruct (Ascii.eqb_spec a c) as [->|Hne]; [|lia].
    by exists EmptyString.
  - destruct Hend as [pre Hpre]; [done|lia|].
    exists (String a pre). rewrite Hpre. reflexivity.
Qed.

Lemma length_append s1 s2 :
  String.length (s1 +:+ s2) = (String.length s1 + String.length s2)%nat.
Proof. induction s1 as [|a s1 IH]; simpl; [done|by rewrite IH]. Qed.

(** The text handed to [json.loads] is empty, is a lone closing brace,
    or starts with an opening brace. *)
Lemma json_str_cases text :
  let json_str := slice text (find text "{") (rfind text "}" + 1) in
  json_str = EmptyString ∨ json_str = "}" ∨
  ∃ rest, json_str = String "{" rest.
Proof.
  cbv zeta. unfold slice, find, rfind.
  destruct (rfind_from_spec text "}" 0 (-1)) as (Hlt & Hge & Hend); [lia|].
  set (e := rfind_from text "}" 0 (-1)) in *.
  assert (clip (len text) (e + 1) = e + 1) as ->.
  { unfold clip. destruct (Z.ltb_spec (e + 1) 0); lia. }
  destruct (find_from_spec text "{" 0) as [-> | (pre & post & Htext & ->)].
  - (* no opening brace: the slice starts at the last character *)
    assert (clip (len text) (-1) = Z.max (len text - 1) 0) as ->.
    { unfold clip. change (-1 <? 0) with true. cbv iota. f_equal. lia. }
    destruct (decide (e + 1 = len text ∧ text ≠ EmptyString)) as [[He Hne]|Hno].
    + destruct Hend as [pre Hpre]; [done|lia|].
      right; left.
      assert (len text = Z.of_nat (String.length pre) + 1) as Hlen.
      { unfold len. rewrite Hpre, length_append. simpl. lia. }
      replace (Z.to_nat (Z.max (len text - 1) 0)) with (String.length pre) by lia.
      replace (Z.to_nat (e + 1 - Z.max (len text - 1) 0)) with 1%nat by lia.
      rewrite Hpre. apply substring_skip.
    + left. destruct text as [|a text]; [done|].
      assert (0 < len (String a text)) by (unfold len; simpl; lia).
      replace (Z.to_nat (e + 1 - Z.max (len (String a text) - 1) 0)) with 0%nat.
      * apply substring_none.
      * assert (e + 1 ≠ len (String a text)) by (intros ?; apply Hno; done).
        lia.
  - (* the slice starts at the first opening brace *)
    assert (len text = Z.of_nat (String.length pre) + 1 + Z.of_nat (String.length post))
      as Hlen.
    { unfold len. rewrite Htext, length_append. simpl. lia. }
    assert (clip (len text) (0 + Z.of_nat (String.length pre))
            = Z.of_nat (String.length pre)) as ->.
    { unfold clip. destruct (Z.ltb_spec (0 + Z.of_nat (String.length pre)) 0); lia. }
    rewrite Nat2Z.id.
    destruct (Z.to_nat (e + 1 - Z.of_nat (String.length pre))) as [|m] eqn:Hm.
    + left. apply substring_none.
    + right; right. rewrite Htext, substring_skip. by eexists.
Qed.

(** ** The generation adapter *)

Lemma template_dict_required brief f :
  f ∈ LLMClient.required_files →
  is_Some (LLMClient._generate_template_code_dict brief !! f).
Proof.
  unfold LLMClient.required_files, LLMClient._generate_template_code_dict.
  intros Hf. repeat (apply elem_of_cons in Hf as [->|Hf]);
    [..|by apply elem_of_nil in Hf];
    rewrite ?lookup_insert_ne by done; rewrite lookup_insert_eq; by eexists.
Qed.

Lemma ensure_required_dict brief d files :
  ∃ d', LLMClient.ensure_required brief (PyDict d) files tt
          = (Return (PyDict d'), tt) ∧
        (∀ f, is_Some (d !! f) → is_Some (d' !! f)) ∧
        (∀ f, f ∈ files → is_Some (d' !! f)) ∧
        ((∀ f, f ∈ files → is_Some (d !! f)) → d' = d).
Proof.
  revert d. induction files as [|file files IH]; intros d.
  { exists d. split; [done|]. split; [done|]. split; [|done].
    by intros f ?%elem_of_nil. }
  cbn [LLMClient.ensure_required]. unfold bind at 1, lift at 1. simpl.
  destruct (decide (is_Some (d !! file))) as [Hin|Hout].
  - rewrite bool_decide_eq_true_2 by done.
    destruct (IH d) as (d' & Hrun & Hmono & Hall & Hsame).
    exists d'. split; [done|]. split; [done|]. split.
    + intros f [->|Hf]%elem_of_cons; [by apply Hmono|by apply Hall].
    + intros Hpresent. apply Hsame. intros f Hf. apply Hpresent.
      by apply list_elem_of_further.
  - rewrite bool_decide_eq_false_2 by done. unfold bind at 1, lift at 1. simpl.
    destruct (IH (<[file := PyStr (LLMClient._get_template_file file brief)]> d))
      as (d' & Hrun & Hmono & Hall & _).
    exists d'. split; [done|]. split; [|split].
    + intros f Hf. apply Hmono.
      destruct (decide (file = f)) as [<-|Hne]; [done|].
      by rewrite lookup_insert_ne.
    + intros f [->|Hf]%elem_of_cons; [|by apply Hall].
      apply Hmono. rewrite lookup_insert_eq. by eexists.
    + intros Hpresent. destruct Hout. apply Hpresent, list_elem_of_here.
Qed.

Section generation.
Variable generator : option (string → result string).
Variable json_loads : string → result pyobj.
Variable json_dumps : pyobj → string.

Lemma parse_generated_code_fallback generated_text brief e :
  json_loads (json_str_of generated_text) = Raise e →
  LLMClient._parse_generated_code json_loads generated_text brief tt
    = (Return (PyDict (LLMClient._generate_template_code_dict brief)), tt).
Proof.
  intros Hfail. unfold LLMClient._parse_generated_code. cbv zeta.
  unfold bind at 1, try_except, lift. fold (json_str_of generated_text).
  rewrite Hfail. unfold any_Exception, ret. cbv beta iota.
  destruct (ensure_required_dict brief
              (LLMClient._generate_template_code_dict brief)
              LLMClient.required_files) as (d' & Hrun & _ & _ & Hsame).
  rewrite Hrun, Hsame; [done|]. apply template_dict_required.
Qed.

Lemma parse_generated_code_dict generated_text brief :
  json_loads_facts json_loads →
  ∃ d, LLMClient._parse_generated_code json_loads generated_text brief tt
         = (Return (PyDict d), tt) ∧
       ∀ f, f ∈ LLMClient.required_files → is_Some (d !! f).
Proof.
  intros (Hobject & Hempty & Hbrace).
  destruct (json_loads (json_str_of generated_text)) as [v|e] eqn:Hloads.
  - assert (∃ d, v = PyDict d) as [d ->].
    { destruct (json_str_cases generated_text) as [Hs|[Hs|[rest Hs]]];
        fold (json_str_of generated_text) in Hs; rewrite Hs in Hloads.
      - by destruct (Hempty v).
      - by destruct (Hbrace v).
      - by eapply Hobject. }
    unfold LLMClient._parse_generated_code. cbv zeta.
    unfold bind at 1, try_except, lift. fold (json_str_of generated_text).
    rewrite Hloads. cbv beta iota.
    destruct (ensure_required_dict brief d LLMClient.required_files)
      as (d' & Hrun & _ & Hall & _).
    by exists d'.
  - exists (LLMClient._generate_template_code_dict brief).
    split; [by eapply parse_generated_code_fallback|].
    apply template_dict_required.
Qed.

(** C10: [generate_app_code] returns for every brief, checks list,
    attachments list and existing-repository hint; when the generator
    raises, and when the JSON text does not parse, what it returns is
    the template file set; and, [json.loads] being what it is, what it
    returns is always a dictionary with an entry for each of README.md,
    index.html, style.css, script.js and LICENSE. *)
Theorem generate_app_code_total brief checks attachments existing_repo :
  let prompt := LLMClient._build_prompt brief checks attachments existing_repo in
  let generated_text :=
    match generator with
    | Some generate => generate prompt
    | None => Return (LLMClient._generate_template_code json_dumps brief checks)
    end in
  ∃ code_files,
    LLMClient.generate_app_code generator json_loads json_dumps
      brief checks attachments existing_repo tt = (Return code_files, tt) ∧
    (∀ e, generated_text = Raise e →
       code_files = PyDict (LLMClient._generate_fallback_code brief checks)) ∧
    (∀ text e, generated_text = Return text →
       json_loads (json_str_of text) = Raise e →
       code_files = PyDict (LLMClient._generate_template_code_dict brief)) ∧
    (json_loads_facts json_loads →
       ∃ d, code_files = PyDict d ∧
            ∀ f, f ∈ LLMClient.required_files → is_Some (d !! f)).
Proof.
  intros prompt generated_text.
  unfold LLMClient.generate_app_code. fold prompt. cbv zeta.
  assert ((match generator with
           | Some generate => lift (generate prompt)
           | None => ret (LLMClient._generate_template_code json_dumps brief checks)
           end : M unit string) tt = (generated_text, tt)) as Htext.
  { unfold generated_text. by destruct generator. }
  unfold try_except, bind at 1. rewrite Htext.
  destruct generated_text as [text|e_gen] eqn:Hgen.
  - destruct (LLMClient._parse_generated_code json_loads text brief tt)
      as [[code_files|e_parse] []] eqn:Hparse.
    + exists code_files. split; [done|]. split; [done|]. split.
      * intros text' e [= <-] Hfail.
        rewrite (parse_generated_code_fallback _ _ _ Hfail) in Hparse.
        by injection Hparse as <-.
      * intros Hfacts.
        destruct (parse_generated_code_dict text brief Hfacts) as (d & Hrun & Hall).
        rewrite Hrun in Hparse. injection Hparse as <-. by exists d.
    + exists (PyDict (LLMClient._generate_fallback_code brief checks)).
      split; [done|]. split; [done|]. split.
      * done.
      * intros _. eexists. split; [done|]. apply template_dict_required.
  - exists (PyDict (LLMClient._generate_fallback_code brief checks)).
    split; [done|]. split; [done|]. split; [done|].
    intros _. eexists. split; [done|]. apply template_dict_required.
Qed.
End generation.

Lemma braces_only_loads_facts : json_loads_facts braces_only_loads.
Proof.
  unfold json_loads_facts, braces_only_loads. split; [|split].
  - intros rest v. destruct (String.eqb _ _); [|done].
    intros [= <-]. by eexists.
  - done.
  - done.
Qed.

Lemma generate_app_code_total_witness :
  ∃ d, LLMClient.generate_app_code (Some chatty_generator) braces_only_loads
         no_dumps "todo app" ["must load"] [] None tt = (Return (PyDict d), tt) ∧
       ∀ f, f ∈ LLMClient.required_files → is_Some (d !! f).
Proof.
  destruct (generate_app_code_total (Some chatty_generator) braces_only_loads
              no_dumps "todo app" ["must load"] [] None)
    as (code_files & Hrun & _ & _ & Hfacts).
  destruct (Hfacts braces_only_loads_facts) as (d & -> & Hall).
  by exists d.
Defined.

(** * Further properties *)

(** ** Staging attachments *)

Lemma save_attachments_app write_temp_file l1 l2 :
  save_attachments write_temp_file (l1 ++ l2) =
    save_attachments write_temp_file l1 ++ save_attachments write_temp_file l2.
Proof.
  induction l1 as [|a l1 IH]; [done|]. simpl.
  destruct (String.prefix _ _); [|done].
  destruct (write_temp_file a); [|done]. simpl. by rewrite IH.
Qed.

Lemma save_attachments_length write_temp_file l :
  (length (save_attachments write_temp_file l) ≤ length l)%nat.
Proof.
  induction l as [|a l IH]; simpl; [done|].
  destruct (String.prefix _ _); [|lia].
  destruct (write_temp_file a); simpl; lia.
Qed.

(** X1: staging is best effort.  An attachment whose URL is not a data
    URL, or whose staging raises, is left out and the attachments around
    it are staged as without it; one that is staged contributes its path
    at its place; so there are never more paths than attachments. *)
Theorem save_attachments_best_effort write_temp_file l1 a l2 :
  (String.prefix "data:" (url a) = false ∨ (∃ e, write_temp_file a = Raise e) →
   save_attachments write_temp_file (l1 ++ a :: l2) =
     save_attachments write_temp_file l1 ++ save_attachments write_temp_file l2) ∧
  (∀ path, String.prefix "data:" (url a) = true →
     write_temp_file a = Return path →
     save_attachments write_temp_file (l1 ++ a :: l2) =
       save_attachments write_temp_file l1
       ++ path :: save_attachments write_temp_file l2) ∧
  (length (save_attachments write_temp_file (l1 ++ a :: l2))
   ≤ length (l1 ++ a :: l2))%nat.
Proof.
  split; [|split].
  - intros Hskip. rewrite save_attachments_app. f_equal. simpl.
    destruct Hskip as [-> | [e ->]]; [done|]. by destruct (String.prefix _ _).
  - intros path Hdata Hpath. rewrite save_attachments_app. f_equal. simpl.
    by rewrite Hdata, Hpath.
  - apply save_attachments_length.
Qed.

(** *** Splitting strings *)

Lemma occurs_append s1 s2 c :
  occurs (s1 +:+ s2) c = occurs s1 c || occurs s2 c.
Proof.
  induction s1 as [|a s1 IH]; simpl; [done|]. by rewrite IH, orb_assoc.
Qed.

Lemma str_split_nonempty s sep : str_split s sep ≠ [].
Proof.
  destruct s as [|a s]; simpl; [done|].
  destruct (Ascii.eqb a sep); [done|]. by destruct (str_split s sep).
Qed.

Lemma str_split_absent s sep : occurs s sep = false → str_split s sep = [s].
Proof.
  induction s as [|a s IH]; simpl; [done|].
  intros [Ha Hs]%orb_false_elim. rewrite Ha. by rewrite IH.
Qed.

Lemma str_split_first s sep t :
  occurs s sep = false →
  str_split (s +:+ String sep t) sep = s :: str_split t sep.
Proof.
  induction s as [|a s IH]; simpl.
  - intros _. by rewrite Ascii.eqb_refl.
  - intros [Ha Hs]%orb_false_elim. rewrite Ha. by rewrite IH.
Qed.

Lemma str_split1_absent s sep : occurs s sep = false → str_split1 s sep = [s].
Proof.
  induction s as [|a s IH]; simpl; [done|].
  intros [Ha Hs]%orb_false_elim. rewrite Ha. by rewrite IH.
Qed.

Lemma str_split1_first s sep t :
  occurs s sep = false →
  str_split1 (s +:+ String sep t) sep = [s; t].
Proof.
  induction s as [|a s IH]; simpl.
  - intros _. by rewrite Ascii.eqb_refl.
  - intros [Ha Hs]%orb_false_elim. rewrite Ha. by rewrite IH.
Qed.

Lemma str_split_append pre sep t :
  str_split (pre +:+ String sep t) sep = str_split pre sep ++ str_split t sep.
Proof.
  induction pre as [|a pre IH]; simpl.
  - by rewrite Ascii.eqb_refl.
  - destruct (Ascii.eqb a sep); rewrite IH; [done|].
    pose proof (str_split_nonempty pre sep).
    by destruct (str_split pre sep).
Qed.

Lemma str_split_last pre sep sub :
  occurs sub sep = false →
  last (str_split (pre +:+ String sep sub) sep) = Some sub.
Proof.
  intros Hsub. rewrite str_split_append, (str_split_absent sub) by done.
  by rewrite last_snoc.
Qed.

Lemma py_getitem_nat xs (i : nat) x :
  xs !! i = Some x → py_getitem xs (Z.of_nat i) = Return x.
Proof.
  intros Hx. pose proof (lookup_lt_Some _ _ _ Hx). unfold py_getitem.
  destruct (Z.ltb_spec (Z.of_nat i) 0); [lia|].
  destruct (Z.leb_spec 0 (Z.of_nat i)); [|lia].
  destruct (Z.ltb_spec (Z.of_nat i) (Z.of_nat (length xs))); [|lia].
  simpl. by rewrite Nat2Z.id, Hx.
Qed.

Lemma py_getitem_0 x xs : py_getitem (x :: xs) 0 = Return x.
Proof. by apply (py_getitem_nat _ 0). Qed.

Lemma py_getitem_1 x y xs : py_getitem (x :: y :: xs) 1 = Return y.
Proof. by apply (py_getitem_nat _ 1). Qed.

Lemma py_getitem_last xs x : last xs = Some x → py_getitem xs (-1) = Return x.
Proof.
  intros [ys ->]%last_Some. unfold py_getitem.
  change (-1 <? 0) with true. cbv iota.
  rewrite length_app. cbn [length].
  replace (-1 + Z.of_nat (length ys + 1)) with (Z.of_nat (length ys)) by lia.
  destruct (Z.leb_spec 0 (Z.of_nat (length ys))); [|lia].
  destruct (Z.ltb_spec (Z.of_nat (length ys)) (Z.of_nat (length ys + 1))); [|lia].
  simpl. rewrite Nat2Z.id. by rewrite list_lookup_middle.
Qed.

Lemma prefix_append p s : String.prefix p s = true → ∃ r, s = p +:+ r.
Proof.
  revert s. induction p as [|a p IH]; intros [|b s]; simpl; try done.
  - by exists EmptyString.
  - by exists (String b s).
  - destruct (Ascii.ascii_dec a b) as [->|]; [|done].
    intros [r ->]%IH. by exists r.
Qed.

Lemma append_assoc s1 s2 s3 : (s1 +:+ s2) +:+ s3 = s1 +:+ (s2 +:+ s3).
Proof.
  induction s1 as [|a s1 IH]; [done|].
  change (String a ((s1 +:+ s2) +:+ s3) = String a (s1 +:+ (s2 +:+ s3))).
  by rewrite IH.
Qed.

Lemma append_empty_r s : s +:+ EmptyString = s.
Proof.
  induction s as [|a s IH]; [done|].
  change (String a (s +:+ EmptyString) = String a s). by rewrite IH.
Qed.

Section staging.
Context {bytes : Type}.
Variable b64decode : string → result bytes.
Variable NamedTemporaryFile : string → string → bytes → result string.

(** X2: the parser of data URLs recovers the parts of a well-formed one.
    For the URL [data:<type>/<subtype><parameters>,<payload>] the file is
    written with the decoded payload, the attachment's name as prefix and
    [.<subtype>] as suffix; what staging returns or raises is what the
    decoder and the file system return or raise. *)
Theorem stage_data_url_parses attachment_name type subtype parameters payload :
  plain type = true → plain subtype = true →
  occurs parameters "," = false →
  parameters = EmptyString ∨ (∃ rest, parameters = String ";" rest) →
  stage_data_url bytes b64decode NamedTemporaryFile
    {| name := attachment_name;
       url := "data:" +:+ type +:+ "/" +:+ subtype +:+ parameters
              +:+ "," +:+ payload |} tt =
    (match b64decode payload with
     | Return file_data =>
         NamedTemporaryFile ("." +:+ subtype) attachment_name file_data
     | Raise e => Raise e
     end, tt).
Proof.
  unfold plain. intros Htype Hsub Hcomma Hparams.
  apply negb_true_iff in Htype, Hsub.
  apply orb_false_elim in Htype as [Htype Ht4].
  apply orb_false_elim in Htype as [Htype Ht3].
  apply orb_false_elim in Htype as [Ht1 Ht2].
  apply orb_false_elim in Hsub as [Hsub Hs4].
  apply orb_false_elim in Hsub as [Hsub Hs3].
  apply orb_false_elim in Hsub as [Hs1 Hs2].
  set (mime := type +:+ "/" +:+ subtype).
  assert (occurs mime "," = false ∧ occurs mime ";" = false ∧ occurs mime ":" = false)
    as (Hm1 & Hm2 & Hm3).
  { unfold mime. rewrite !occurs_append. simpl.
    by rewrite Ht1, Ht2, Ht3, Hs1, Hs2, Hs3. }
  unfold stage_data_url. cbn [url name].
  replace ("data:" +:+ type +:+ "/" +:+ subtype +:+ parameters +:+ "," +:+ payload)
    with ((("data:" +:+ mime) +:+ parameters) +:+ String "," payload).
  2:{ unfold mime. rewrite !append_assoc. done. }
  rewrite str_split1_first.
  2:{ rewrite !occurs_append. simpl. by rewrite Hm1, Hcomma. }
  unfold bind at 1, lift at 1. cbn [unpack2].
  assert (py_getitem (str_split (("data:" +:+ mime) +:+ parameters) ";") 0
          = Return ("data:" +:+ mime)) as ->.
  { assert (occurs ("data:" +:+ mime) ";" = false) as Hd
      by (rewrite occurs_append; simpl; by rewrite Hm2).
    destruct Hparams as [->|[rest ->]].
    - rewrite append_empty_r, str_split_absent by done. apply py_getitem_0.
    - rewrite str_split_first by done. apply py_getitem_0. }
  unfold bind at 1, lift at 1.
  change ("data:" +:+ mime) with ("data" +:+ String ":" mime).
  rewrite str_split_first by done. rewrite (str_split_absent mime) by done.
  rewrite py_getitem_1.
  unfold bind at 1, lift at 1.
  destruct (b64decode payload) as [file_data|e]; [|done].
  unfold bind at 1, lift at 1.
  unfold mime. by rewrite (py_getitem_last _ subtype) by (by apply str_split_last).
Qed.

(** X3: what staging a data URL can raise.  Without a comma in the URL
    the unpacking raises and nothing is decoded or written; with one, the
    look-ups in the split header never fail, so that staging raises only
    what the decoder or the file system raises. *)
Theorem stage_data_url_raises attachment :
  String.prefix "data:" (url attachment) = true →
  (occurs (url attachment) "," = false →
   stage_data_url bytes b64decode NamedTemporaryFile attachment tt
     = (Raise ValueError, tt)) ∧
  (occurs (url attachment) "," = true →
   ∃ data file_ext,
     stage_data_url bytes b64decode NamedTemporaryFile attachment tt =
       (match b64decode data with
        | Return file_data =>
            NamedTemporaryFile ("." +:+ file_ext) (name attachment) file_data
        | Raise e => Raise e
        end, tt)).
Proof.
  intros [r Hurl]%prefix_append. split.
  - intros Hno. unfold stage_data_url. by rewrite str_split1_absent.
  - intros Hcomma. unfold stage_data_url. rewrite Hurl in *.
    assert (∃ h data, occurs h "," = false ∧ r = h +:+ String "," data)
      as (h & data & Hh & ->).
    { simpl in Hcomma. clear Hurl. induction r as [|a r IH]; [done|].
      simpl in Hcomma. destruct (Ascii.eqb_spec a ",") as [->|Hne].
      - by exists EmptyString, r.
      - destruct (IH Hcomma) as (h & data & Hh & ->).
        exists (String a h), data. simpl. split; [|done].
        apply Ascii.eqb_neq in Hne. by rewrite Hne. }
    change ("data:" +:+ h +:+ String "," data)
      with (("data:" +:+ h) +:+ String "," data).
    rewrite str_split1_first by (rewrite occurs_append; simpl; by rewrite Hh).
    unfold bind at 1, lift at 1. cbn [unpack2].
    (* the first piece of the header starts with [data:] *)
    assert (∃ m, hd EmptyString (str_split ("data:" +:+ h) ";") = "data:" +:+ m)
      as [m Hm].
    { simpl. change (EmptyString +:+ h) with h.
      destruct (str_split h ";") as [|piece pieces] eqn:Hs.
      - by destruct (str_split_nonempty h ";").
      - by exists piece. }
    destruct (str_split ("data:" +:+ h) ";") as [|media pieces] eqn:Hs.
    { by destruct (str_split_nonempty ("data:" +:+ h) ";"). }
    simpl in Hm. subst media. rewrite py_getitem_0.
    unfold bind at 1, lift at 1.
    change ("data:" +:+ m) with ("data" +:+ String ":" m).
    rewrite str_split_first by done.
    destruct (str_split m ":") as [|mime_type others] eqn:Hmime.
    { by destruct (str_split_nonempty m ":"). }
    rewrite py_getitem_1. unfold bind at 1, lift at 1.
    destruct (last (str_split mime_type "/")) as [file_ext|] eqn:Hlast.
    2:{ apply last_None in Hlast. by destruct (str_split_nonempty mime_type "/"). }
    exists data, file_ext.
    destruct (b64decode data) as [file_data|e]; [|done].
    unfold bind at 1, lift at 1. by rewrite (py_getitem_last _ _ Hlast).
Qed.
End staging.

Lemma stage_data_url_parses_witness :
  stage_data_url string sample_b64decode sample_NamedTemporaryFile
    logo_attachment tt = (Return "/tmp/logok3x9.png", tt).
Proof.
  apply (stage_data_url_parses sample_b64decode sample_NamedTemporaryFile
           "logo" "image" "png" ";base64" "iVBORw0KGgo="); try reflexivity.
  right. by eexists.
Defined.

Lemma stage_data_url_raises_witness :
  ∃ data file_ext,
    stage_data_url string sample_b64decode sample_NamedTemporaryFile
      logo_attachment tt =
      (match sample_b64decode data with
       | Return file_data =>
           sample_NamedTemporaryFile ("." +:+ file_ext) "logo" file_data
       | Raise e => Raise e
       end, tt).
Proof.
  refine (proj2 (stage_data_url_raises sample_b64decode sample_NamedTemporaryFile
                   logo_attachment _) _); reflexivity.
Defined.

(** ** The notifier, whatever the endpoint answers *)

Section any_endpoint.
Variable post : string → EvaluationResponse → Z → outcome.
Variables (eval_data : EvaluationResponse) (evaluation_url : string).

(** X4: whatever the endpoint does, [submit_evaluation] returns, after
    one to five POSTs, all of the given payload to the given URL, and at
    most fifteen seconds of pauses; it returns [True] exactly when one of
    the attempts 0 to 4 is answered with status 200. *)
Theorem submit_evaluation_bounds st :
  ∃ returned evs,
    EvaluationClient.submit_evaluation post eval_data evaluation_url st
      = (Return returned, observe evs st) ∧
    (returned = true ↔
     ∃ attempt, 0 <= attempt < 5 ∧
                post evaluation_url eval_data attempt = Response 200) ∧
    (1 ≤ posts evs ≤ 5)%nat ∧
    0 <= time_waited evs <= 15 ∧
    Forall (λ e, e = EvPost evaluation_url eval_data ∨ ∃ d, e = EvSleep d) evs.
Proof.
  unfold EvaluationClient.submit_evaluation.
  change (range EvaluationClient.max_retries) with [0; 1; 2; 3; 4].
  assert (∀ attempt, 0 <= attempt < 5 →
            attempt = 0 ∨ attempt = 1 ∨ attempt = 2 ∨ attempt = 3 ∨ attempt = 4)
    as Hcases by lia.
  destruct (received_200 (post evaluation_url eval_data 0)) eqn:H0;
  [|destruct (received_200 (post evaluation_url eval_data 1)) eqn:H1;
   [|destruct (received_200 (post evaluation_url eval_data 2)) eqn:H2;
    [|destruct (received_200 (post evaluation_url eval_data 3)) eqn:H3;
     [|destruct (received_200 (post evaluation_url eval_data 4)) eqn:H4]]]].
  all: repeat (rewrite submit_loop_retry by done; rewrite ?observe_observe).
  all: first [ rewrite submit_loop_success by done
             | rewrite submit_loop_last by done ];
       rewrite ?observe_observe.
  1-5: exists true; eexists; split; [reflexivity|]; split;
       [split; [intros _; eexists; split; [|by apply received_200_true]; lia|done]|];
       split; [unfold posts; simpl; lia|];
       split; [unfold time_waited, delays; simpl; lia|];
       simpl;
       repeat (apply Forall_cons; split; [first [by left|right; by eexists]|]);
       by apply Forall_nil.
  exists false. eexists. split; [reflexivity|]. split.
  - split; [done|]. intros (attempt & Hrange & Hok%received_200_true).
    destruct (Hcases attempt Hrange) as [->|[->|[->|[->| ->]]]]; congruence.
  - split; [unfold posts; simpl; lia|].
    split; [unfold time_waited, delays; simpl; lia|]. simpl.
    repeat (apply Forall_cons; split; [first [by left|right; by eexists]|]).
    by apply Forall_nil.
Qed.
End any_endpoint.

(** ** The session of the evaluation client *)

Lemma ClientSession_ok ss held :
  (∀ s, s ≠ length ss →
        EvaluationSession.closed
          {| EvaluationSession.sessions := ss;
             EvaluationSession.session := held |} s = true) →
  session_ok
    {| EvaluationSession.sessions := ss ++ [false];
       EvaluationSession.session := Some (length ss) |} ∧
  EvaluationSession.closed
    {| EvaluationSession.sessions := ss ++ [false];
       EvaluationSession.session := Some (length ss) |} (length ss) = false.
Proof.
  unfold session_ok, EvaluationSession.closed. simpl. intros Hall.
  split; [split|].
  - intros s [= <-]. rewrite length_app. simpl. lia.
  - intros s Hs. assert (s ≠ length ss) as Hne by congruence.
    specialize (Hall s Hne). destruct (decide (s < length ss)%nat).
    + by rewrite lookup_app_l.
    + rewrite lookup_ge_None_2; [done|]. rewrite length_app. simpl. lia.
  - by rewrite list_lookup_middle.
Qed.

Lemma get_session_ok c :
  session_ok c →
  ∃ s c', EvaluationSession.get_session c = (Return s, c') ∧
          session_ok c' ∧
          EvaluationSession.session c' = Some s ∧
          EvaluationSession.closed c' s = false ∧
          (length (EvaluationSession.sessions c')
           ≤ S (length (EvaluationSession.sessions c)))%nat ∧
          (∀ s0, EvaluationSession.session c = Some s0 →
                 EvaluationSession.closed c s0 = false → s = s0 ∧ c' = c).
Proof.
  destruct c as [ss held]. intros [Hheld Hclosed].
  unfold EvaluationSession.get_session, EvaluationSession.ClientSession.
  cbn [EvaluationSession.session EvaluationSession.sessions] in *.
  destruct held as [s0|].
  - destruct (EvaluationSession.closed _ s0) eqn:Hc0.
    + destruct (ClientSession_ok ss (Some s0)) as [Hok Hopen].
      { intros s _. destruct (decide (s = s0)) as [->|]; [done|].
        apply Hclosed. congruence. }
      eexists _, _. split; [reflexivity|]. split; [exact Hok|].
      split; [done|]. split; [exact Hopen|]. simpl. rewrite length_app. simpl.
      split; [lia|]. intros ? [= <-]. congruence.
    + exists s0. eexists. split; [reflexivity|]. split; [done|].
      split; [done|]. split; [done|]. simpl. split; [lia|]. by intros ? [= <-].
  - destruct (ClientSession_ok ss None) as [Hok Hopen].
    { intros s _. by apply Hclosed. }
    eexists _, _. split; [reflexivity|]. split; [exact Hok|].
    split; [done|]. split; [exact Hopen|]. simpl. rewrite length_app. simpl.
    split; [lia|]. done.
Qed.

Lemma close_ok c :
  session_ok c →
  session_ok (snd (EvaluationSession.close c)) ∧
  (∀ s, EvaluationSession.closed (snd (EvaluationSession.close c)) s = true) ∧
  length (EvaluationSession.sessions (snd (EvaluationSession.close c)))
    = length (EvaluationSession.sessions c).
Proof.
  destruct c as [ss held]. intros [Hheld Hclosed].
  unfold EvaluationSession.close.
  cbn [EvaluationSession.session EvaluationSession.sessions] in *.
  destruct held as [s0|]; [|by split; [|split; [intros s; by apply Hclosed|]]].
  destruct (EvaluationSession.closed _ s0) eqn:Hc0; cbn [negb snd].
  - split; [done|]. split; [|done]. intros s.
    destruct (decide (s = s0)) as [->|]; [done|]. apply Hclosed. congruence.
  - assert (∀ s, EvaluationSession.closed
                   {| EvaluationSession.sessions := <[s0 := true]> ss;
                      EvaluationSession.session := Some s0 |} s = true) as Hall.
    { intros s. unfold EvaluationSession.closed in *. simpl in *.
      destruct (decide (s = s0)) as [->|Hne].
      - rewrite list_lookup_insert_eq; [done|]. by apply Hheld.
      - rewrite list_lookup_insert_ne by done. apply Hclosed. congruence. }
    split; [split|split].
    + simpl. intros s [= <-]. rewrite length_insert. by apply Hheld.
    + intros s _. apply Hall.
    + exact Hall.
    + simpl. apply length_insert.
Qed.

Lemma session_after_ok calls :
  session_ok (session_after calls) ∧
  (length (EvaluationSession.sessions (session_after calls))
   ≤ length (filter is_get_session calls))%nat.
Proof.
  unfold session_after. induction calls as [|k calls [IH Hcount]] using rev_ind.
  { split; [|done]. split; [done|]. by intros s _. }
  rewrite foldl_app, filter_app, length_app. cbn [foldl].
  destruct k; cbn [EvaluationSession.run_call].
  - destruct (get_session_ok _ IH) as (s & c' & -> & Hok & _ & _ & Hlen & _).
    split; [exact Hok|]. simpl in *. lia.
  - destruct (close_ok _ IH) as (Hok & _ & ->). split; [exact Hok|]. simpl. lia.
Qed.

(** X5: the client never leaks a session.  After any sequence of
    [get_session] and [close] calls on a new client, every session the
    client created, except the one it holds, is closed, and it created
    no more sessions than there were [get_session] calls; [get_session]
    then returns an open session, the one held if that is open, and
    [close] leaves no session open. *)
Theorem session_never_leaks calls :
  let c := session_after calls in
  (∀ s, EvaluationSession.session c ≠ Some s → EvaluationSession.closed c s = true) ∧
  (length (EvaluationSession.sessions c)
   ≤ length (filter is_get_session calls))%nat ∧
  (∃ s c', EvaluationSession.get_session c = (Return s, c') ∧
           EvaluationSession.session c' = Some s ∧
           EvaluationSession.closed c' s = false ∧
           (∀ s0, EvaluationSession.session c = Some s0 →
                  EvaluationSession.closed c s0 = false → s = s0 ∧ c' = c)) ∧
  (∀ s, EvaluationSession.closed (snd (EvaluationSession.close c)) s = true).
Proof.
  cbv zeta. destruct (session_after_ok calls) as [Hok Hcount].
  split; [apply Hok|]. split; [exact Hcount|]. split.
  - destruct (get_session_ok _ Hok) as (s & c' & Hget & _ & Hheld & Hopen & _ & Hsame).
    by exists s, c'.
  - apply close_ok, Hok.
Qed.

(** ** The handlers and the task store *)

(** X6: the status query reads back what an accepted request stored.
    After a build request is accepted, the query for the task id of the
    response returns status [processing] and the whole request,
    the secret it presented included; the query changes nothing, and for
    an id without entry it raises the 404. *)
Theorem status_after_accepted_deploy req st :
  accepts st (BuildRequest.email req) (BuildRequest.secret req) = true →
  let task_id := Main.task_id_of (BuildRequest.task req) (BuildRequest.round req) in
  let st' := snd (Main.deploy_app req st) in
  fst (Main.deploy_app req st) = Return (Main.accepted task_id) ∧
  Main.get_task_status task_id st' =
    (Return (task_id, "processing", BuildRequest_dict req), st') ∧
  BuildRequest_dict req !! "secret" = Some (PyStr (BuildRequest.secret req)) ∧
  (∀ other, task_store st' !! other = None →
     Main.get_task_status other st' =
       (Raise (HTTPException 404 (Detail "Task not found")), st')).
Proof.
  intros Hacc task_id st'. subst st'. rewrite deploy_app_eq. cbv zeta.
  rewrite Hacc. fold task_id. split; [done|]. split; [|split].
  - unfold Main.get_task_status, accept. simpl. by rewrite lookup_insert_eq.
  - unfold BuildRequest_dict. by rewrite lookup_insert_ne, lookup_insert_eq.
  - intros other Hnone. unfold Main.get_task_status. by rewrite Hnone.
Qed.

Lemma status_after_accepted_deploy_witness :
  Main.get_task_status "alpha-1" alpha_accepted =
    (Return ("alpha-1", "processing", BuildRequest_dict alpha_build),
     alpha_accepted).
Proof.
  refine (proj1 (proj2 (status_after_accepted_deploy alpha_build init _))).
  reflexivity.
Defined.

(** X7: a rejected request stores nothing and schedules nothing.  When
    [deploy_app] raises, the state is as before; when [revise_app]
    raises, the task store, the scheduled tasks and the log are as
    before. *)
Theorem rejected_requests_store_nothing st :
  (∀ req e, fst (Main.deploy_app req st) = Raise e →
     snd (Main.deploy_app req st) = st) ∧
  (∀ req e, fst (Main.revise_app req st) = Raise e →
     task_store (snd (Main.revise_app req st)) = task_store st ∧
     scheduled (snd (Main.revise_app req st)) = scheduled st ∧
     log (snd (Main.revise_app req st)) = log st).
Proof.
  split.
  - intros req e. rewrite deploy_app_eq. cbv zeta.
    by destruct (accepts _ _ _).
  - intros req e. rewrite revise_app_eq. cbv zeta.
    destruct (accepts _ _ _); [|done].
    destruct (task_store st !! _); [done|]. intros _. simpl.
    rewrite after_verify_task_store, after_verify_scheduled.
    unfold after_verify. by destruct (SECRET_STORE st !! _).
Qed.

(** X8: a rejected revision request still binds the secret.  A revision
    request from a requester not bound yet, for a task without round-1
    record, is rejected, but the requester is bound to the secret of the
    request from then on: a build request of the same requester with
    another secret is rejected. *)
Theorem rejected_revision_binds_secret req st :
  SECRET_STORE st !! RevisionRequest.email req = None →
  task_store st !! (RevisionRequest.task req +:+ "-1") = None →
  let st' := snd (Main.revise_app req st) in
  fst (Main.revise_app req st)
    = Raise (HTTPException 500 (str original_task_not_found)) ∧
  SECRET_STORE st' !! RevisionRequest.email req = Some (RevisionRequest.secret req) ∧
  (∀ build, BuildRequest.email build = RevisionRequest.email req →
            BuildRequest.secret build ≠ RevisionRequest.secret req →
            ∃ e, Main.deploy_app build st' = (Raise e, st')).
Proof.
  intros Hnew Hnone st'. subst st'. rewrite revise_app_eq. cbv zeta.
  assert (accepts st (RevisionRequest.email req) (RevisionRequest.secret req)
          = true) as -> by (unfold accepts; by rewrite Hnew).
  rewrite Hnone. split; [done|]. simpl.
  unfold after_verify. rewrite Hnew. simpl. rewrite lookup_insert_eq.
  split; [done|]. intros build Hemail Hsecret. rewrite deploy_app_eq. cbv zeta.
  unfold accepts. simpl. rewrite Hemail, lookup_insert_eq.
  destruct (String.eqb_spec (RevisionRequest.secret req) (BuildRequest.secret build));
    [congruence|]. by eexists.
Qed.

Lemma rejected_revision_binds_secret_witness :
  fst (Main.revise_app gamma_revision init)
    = Raise (HTTPException 500 (str original_task_not_found)) ∧
  SECRET_STORE (snd (Main.revise_app gamma_revision init)) !! "b@x.com"
    = Some "t1".
Proof.
  destruct (rejected_revision_binds_secret gamma_revision init eq_refl eq_refl)
    as (Hrejected & Hbound & _).
  by split.
Defined.

(** *** Task identifiers *)

Lemma append_inj_same_length s1 s2 x y :
  s1 +:+ x = s2 +:+ y → String.length x = String.length y → s1 = s2 ∧ x = y.
Proof.
  revert s2. induction s1 as [|a s1 IH]; intros [|b s2] Heq Hlen.
  - done.
  - exfalso. apply (f_equal String.length) in Heq.
    change (EmptyString +:+ x) with x in Heq.
    change (String b s2 +:+ y) with (String b (s2 +:+ y)) in Heq.
    simpl in Heq. rewrite length_append in Heq. lia.
  - exfalso. apply (f_equal String.length) in Heq.
    change (EmptyString +:+ y) with y in Heq.
    change (String a s1 +:+ x) with (String a (s1 +:+ x)) in Heq.
    simpl in Heq. rewrite length_append in Heq. lia.
  - change (String a (s1 +:+ x) = String b (s2 +:+ y)) in Heq.
    injection Heq as -> Heq. destruct (IH _ Heq Hlen) as [-> ->]. done.
Qed.

(** X9: task identifiers do not collide.  For rounds in the validated
    range 1 to 2, two requests have the same task identifier only if they
    have the same task and the same round; and the identifier that
    [revise_app] looks up is that of round 1 of the task. *)
Theorem task_id_of_injective task1 round1 task2 round2 :
  1 <= round1 <= 2 → 1 <= round2 <= 2 →
  (Main.task_id_of task1 round1 = Main.task_id_of task2 round2 →
   task1 = task2 ∧ round1 = round2) ∧
  Main.task_id_of task1 1 = task1 +:+ "-1".
Proof.
  intros H1 H2. split; [|reflexivity]. unfold Main.task_id_of. intros Heq.
  assert (round1 = 1 ∨ round1 = 2) as [-> | ->] by lia;
  assert (round2 = 1 ∨ round2 = 2) as [-> | ->] by lia;
  apply append_inj_same_length in Heq as [-> Heq]; try done.
Qed.

Lemma task_id_of_injective_witness :
  ("alpha" = "alpha" ∧ 1 = 1) ∧ Main.task_id_of "alpha" 1 = "alpha-1".
Proof.
  destruct (task_id_of_injective "alpha" 1 "alpha" 1) as [Hsame Hkey]; [lia..|].
  split; [by apply Hsame|exact Hkey].
Defined.

(** X10: a build request of round 2 and a revision request share an
    entry.  A build request may name round 2; its task identifier is
    that of the revision request for the same task.  When both are
    accepted, the entry of the build request is overwritten by that of
    the revision request, and both tasks are scheduled on the one
    entry. *)
Theorem round2_build_shares_entry build rev st :
  BuildRequest.round build = 2 → RevisionRequest.valid rev →
  RevisionRequest.task rev = BuildRequest.task build →
  task_key (BuildTask build) = task_key (RevisionTask rev) ∧
  (accepts st (BuildRequest.email build) (BuildRequest.secret build) = true →
   accepts (snd (Main.deploy_app build st))
     (RevisionRequest.email rev) (RevisionRequest.secret rev) = true →
   is_Some (task_store (snd (Main.deploy_app build st))
              !! (RevisionRequest.task rev +:+ "-1")) →
   task_store (snd (Main.revise_app rev (snd (Main.deploy_app build st))))
     !! task_key (BuildTask build)
     = Some {| request := RevisionRequest_dict rev; status := "processing" |} ∧
   scheduled (snd (Main.revise_app rev (snd (Main.deploy_app build st))))
     = scheduled st ++ [BuildTask build; RevisionTask rev]).
Proof.
  intros Hround Hvalid Htask.
  assert (RevisionRequest.round rev = 2) as Hround'
    by (unfold RevisionRequest.valid in Hvalid; lia).
  assert (task_key (BuildTask build) = task_key (RevisionTask rev)) as Hkey.
  { simpl. by rewrite Hround, Hround', Htask. }
  split; [done|]. intros Hacc Hacc' [round1 Hround1].
  rewrite revise_app_eq. cbv zeta. rewrite Hacc', Hround1. cbn [snd].
  rewrite Hkey. split.
  - simpl. by rewrite lookup_insert_eq.
  - simpl. rewrite after_verify_scheduled.
    rewrite deploy_app_eq. cbv zeta. rewrite Hacc. simpl.
    by rewrite after_verify_scheduled, <- app_assoc.
Qed.

Lemma round2_build_shares_entry_witness :
  task_key (BuildTask alpha_build_round2) = task_key (RevisionTask alpha_revision).
Proof.
  refine (proj1 (round2_build_shares_entry alpha_build_round2 alpha_revision
                   alpha_accepted _ _ _)).
  - reflexivity.
  - unfold RevisionRequest.valid. simpl. lia.
  - reflexivity.
Defined.

(** ** The runs, event by event *)

Lemma submit_loop_posts post eval_data evaluation_url attempts :
  ∃ returned evs,
    Forall (λ e, e = EvPost evaluation_url eval_data ∨ ∃ d, e = EvSleep d) evs ∧
    ∀ st, EvaluationClient.submit_loop post eval_data evaluation_url attempts st =
            (Return returned, observe evs st).
Proof.
  induction attempts as [|attempt rest (returned & evs & Hevs & IH)].
  - exists false, []. split; [constructor|]. intros st. by rewrite observe_nil.
  - destruct (received_200 (post evaluation_url eval_data attempt)) eqn:Hr.
    + exists true, [EvPost evaluation_url eval_data]. split.
      { apply Forall_cons; split; [by left|by apply Forall_nil]. }
      intros st. by apply submit_loop_success.
    + destruct (Z.lt_ge_cases attempt (EvaluationClient.max_retries - 1)).
      * exists returned,
          ([EvPost evaluation_url eval_data; EvSleep (2 ^ attempt)] ++ evs).
        split.
        { apply Forall_app; split; [|done].
          apply Forall_cons; split; [by left|].
          apply Forall_cons; split; [right; by eexists|by apply Forall_nil]. }
        intros st. rewrite submit_loop_retry, IH by done.
        by rewrite observe_observe.
      * exists returned, ([EvPost evaluation_url eval_data] ++ evs).
        split.
        { apply Forall_app; split; [|done].
          apply Forall_cons; split; [by left|by apply Forall_nil]. }
        intros st. rewrite submit_loop_last, IH by done.
        by rewrite observe_observe.
Qed.

Lemma emits_refl P st : emits P st st.
Proof. exists []. by rewrite app_nil_r. Qed.

Lemma emits_trans P st1 st2 st3 : emits P st1 st2 → emits P st2 st3 → emits P st1 st3.
Proof.
  intros (evs1 & H1 & HP1) (evs2 & H2 & HP2). exists (evs1 ++ evs2).
  split; [by rewrite H2, H1, app_assoc|by apply Forall_app].
Qed.

Lemma emits_observe P evs st : Forall P evs → emits P st (observe evs st).
Proof. intros HP. by exists evs. Qed.

#[local] Instance run_of_preorder t : PreOrder (run_of t).
Proof.
  split.
  - intros st. split; [apply emits_refl|]. split; [done|].
    intros record' Hrec. exists record'. split; [done|by left].
  - intros st1 st2 st3 (He12 & Ho12 & Hs12) (He23 & Ho23 & Hs23).
    split; [by eapply emits_trans|]. split.
    + intros k Hk. by rewrite Ho23, Ho12.
    + intros record3 Hrec3.
      destruct (Hs23 _ Hrec3) as (record2 & Hrec2 & Hstatus3).
      destruct (Hs12 _ Hrec2) as (record1 & Hrec1 & Hstatus2).
      exists record1. split; [done|].
      destruct Hstatus3 as [->|?]; [done|by right].
Qed.

Abbreviation runs t := (preserves (run_of t)).

Lemma run_of_log_only t st st' :
  task_store st' = task_store st → emits (run_event t) st st' → run_of t st st'.
Proof.
  intros Hstore Hemits. split; [done|]. unfold only_touches. rewrite Hstore.
  split; [done|].
  intros record' Hrec. exists record'. split; [done|by left].
Qed.

Lemma runs_emit t e : run_event t e → runs t (emit e).
Proof.
  intros He st. apply run_of_log_only; [done|].
  apply emits_observe. apply Forall_cons; split; [done|by apply Forall_nil].
Qed.

Lemma runs_submit_evaluation t post eval_data evaluation_url :
  run_event t (EvPost evaluation_url eval_data) →
  runs t (EvaluationClient.submit_evaluation post eval_data evaluation_url).
Proof.
  intros Hpost st.
  destruct (submit_loop_posts post eval_data evaluation_url
              (range EvaluationClient.max_retries))
    as (returned & evs & Hevs & Heq).
  unfold EvaluationClient.submit_evaluation. rewrite Heq.
  apply run_of_log_only; [done|]. apply emits_observe.
  eapply Forall_impl; [exact Hevs|].
  intros e [->|[d ->]]; [done|by destruct t].
Qed.

Lemma runs_set_status t new_status :
  new_status ∈ terminal_statuses →
  runs t (Main.set_status (task_key t) new_status).
Proof.
  intros Hterminal st. unfold Main.set_status.
  destruct (task_store st !! task_key t) as [record|] eqn:Hrec;
    [|reflexivity].
  split; [|split]; simpl.
  - exists [EvSetStatus (task_key t) new_status]. split; [done|].
    apply Forall_cons; split; [done|by apply Forall_nil].
  - intros k Hk. simpl. by rewrite lookup_insert_ne.
  - intros record'. simpl. rewrite lookup_insert_eq. intros [= <-].
    exists record. split; [done|by right].
Qed.

Lemma runs_stored_request t task_id : runs t (Main.stored_request task_id).
Proof.
  intros st. unfold Main.stored_request.
  destruct (task_store st !! task_id); reflexivity.
Qed.

Lemma runs_uuid4 t uuid4_hex : runs t (Main.uuid4 uuid4_hex).
Proof.
  intros st. apply run_of_log_only; [done|]. exists []. by rewrite app_nil_r.
Qed.

Create HintDb runs.
#[local] Hint Resolve preserves_ret preserves_raise preserves_lift preserves_bind
  preserves_try_except preserves_if runs_emit runs_submit_evaluation
  runs_stored_request runs_uuid4 : runs.
#[local] Hint Extern 0 (PreOrder _) => apply _ : runs.
#[local] Hint Extern 1 (run_event _ _) => by simpl : runs.
#[local] Hint Extern 1 (_ ∈ terminal_statuses) =>
  unfold terminal_statuses; set_solver : runs.

Section runs_more.
Context {code_t : Type}.
Variable write_temp_file : Attachment → result string.
Variable uuid4_hex : nat → string.
Variable generate_app_code :
  string → list string → list string → option pyobj → result code_t.
Variable create_repository : string → code_t → string → result (string * string).
Variable update_repository : pyobj → code_t → result (string * string).
Variable get_latest_commit : pyobj → result string.
Variable post : string → EvaluationResponse → Z → outcome.

Local Abbreviation step :=
  (Main.step code_t write_temp_file uuid4_hex generate_app_code
     create_repository update_repository get_latest_commit post).
Local Abbreviation reachable :=
  (Main.reachable code_t write_temp_file uuid4_hex generate_app_code
     create_repository update_repository get_latest_commit post).
Local Abbreviation run_task :=
  (Main.run_task code_t write_temp_file uuid4_hex generate_app_code
     create_repository update_repository get_latest_commit post).

Lemma runs_run_task t : runs t (run_task t).
Proof.
  destruct t as [request|request]; simpl.
  - unfold Main.process_build_request.
    change (Main.task_id_of (BuildRequest.task request) (BuildRequest.round request))
      with (task_key (BuildTask request)).
    repeat first [ progress eauto with runs
                 | apply runs_set_status
                 | apply preserves_try_except | apply preserves_bind
                 | intros [] | intros ].
  - unfold Main.process_revision_request.
    change (Main.task_id_of (RevisionRequest.task request)
                            (RevisionRequest.round request))
      with (task_key (RevisionTask request)).
    repeat first [ progress eauto with runs
                 | apply runs_set_status
                 | apply preserves_try_except | apply preserves_bind
                 | intros [] | intros ].
Qed.

(** X11: what a run emits and what it leaves alone.  Whatever the
    adapters and the endpoint do, a run of a task POSTs only to the
    evaluation URL of its own request, and only payloads that carry the
    identity, task, round and nonce of that request; it writes the status
    of its own entry only, and only a terminal one; and every other entry
    of the task store is after the run what it was before. *)
Theorem run_minds_its_own_task t st :
  (∃ evs, log (snd (run_task t st)) = log st ++ evs ∧
          Forall (run_event t) evs) ∧
  (∀ other, other ≠ task_key t →
     task_store (snd (run_task t st)) !! other = task_store st !! other).
Proof. destruct (runs_run_task t st) as (Hevents & Hothers & _). by split. Qed.

Lemma try_except_bind_Return {S A B} (m : M S A) (k : A → M S B)
    class handler a st st1 :
  m st = (Return a, st1) →
  try_except (bind m k) class handler st = try_except (k a) class handler st1.
Proof. intros Hm. unfold try_except, bind. by rewrite Hm. Qed.

Lemma after_verify_accepts st email secret :
  accepts st email secret = true →
  SECRET_STORE (after_verify st email secret) !! email = Some secret.
Proof.
  unfold accepts, after_verify.
  destruct (SECRET_STORE st !! email) as [expected|] eqn:Hbound.
  - intros ->%String.eqb_eq. done.
  - intros _. simpl. apply lookup_insert_eq.
Qed.

Lemma statuses_ok_accept task_id payload t st :
  statuses_ok st → statuses_ok (accept task_id payload t st).
Proof.
  intros Hok k record. simpl.
  destruct (decide (task_id = k)) as [<-|Hne].
  - rewrite lookup_insert_eq. intros [= <-]. apply list_elem_of_here.
  - rewrite lookup_insert_ne by done. apply Hok.
Qed.

Lemma statuses_ok_after_verify st email secret :
  statuses_ok st → statuses_ok (after_verify st email secret).
Proof. unfold statuses_ok. by rewrite after_verify_task_store. Qed.

Lemma step_statuses_ok st st' : step st st' → statuses_ok st → statuses_ok st'.
Proof.
  intros [request st0 _|request st0 _|t before after st0 Hsched] Hok.
  - rewrite deploy_app_eq. cbv zeta. destruct (accepts _ _ _); [|done].
    by apply statuses_ok_accept, statuses_ok_after_verify.
  - rewrite revise_app_eq. cbv zeta. destruct (accepts _ _ _); [|done].
    destruct (task_store st0 !! _); simpl.
    + by apply statuses_ok_accept, statuses_ok_after_verify.
    + by apply statuses_ok_after_verify.
  - destruct (runs_run_task t (set_scheduled (λ _, before ++ after) st0))
      as (_ & Hothers & Hown).
    intros k record Hrec. destruct (decide (k = task_key t)) as [->|Hne].
    + destruct (Hown _ Hrec) as (record0 & Hrec0 & [Hsame|Hterminal]).
      * rewrite Hsame. by eapply Hok.
      * by apply list_elem_of_further.
    + rewrite Hothers in Hrec by done. by eapply Hok.
Qed.

Lemma scheduled_authenticated_accept task_id payload t st email secret :
  task_email t = email → task_secret t = secret →
  accepts st email secret = true →
  scheduled_authenticated st →
  scheduled_authenticated (accept task_id payload t (after_verify st email secret)).
Proof.
  intros Hemail Hsecret Hacc Hok t'. simpl. rewrite after_verify_scheduled.
  intros [Hin| ->%list_elem_of_singleton]%elem_of_app.
  - by apply after_verify_bound, Hok.
  - rewrite Hemail, Hsecret. by apply after_verify_accepts.
Qed.

Lemma step_scheduled_authenticated st st' :
  step st st' → scheduled_authenticated st → scheduled_authenticated st'.
Proof.
  intros [request st0 _|request st0 _|t before after st0 Hsched] Hok.
  - rewrite deploy_app_eq. cbv zeta. destruct (accepts _ _ _) eqn:Hacc; [|done].
    by apply scheduled_authenticated_accept.
  - rewrite revise_app_eq. cbv zeta. destruct (accepts _ _ _) eqn:Hacc; [|done].
    destruct (task_store st0 !! _); simpl.
    + by apply scheduled_authenticated_accept.
    + intros t'. rewrite after_verify_scheduled. intros Hin.
      by apply after_verify_bound, Hok.
  - destruct (keeps_run_task write_temp_file uuid4_hex generate_app_code
                create_repository update_repository get_latest_commit post t
                (set_scheduled (λ _, before ++ after) st0)) as (Hsecrets & Htasks & _).
    intros t'. rewrite Hsecrets, Htasks. simpl. intros Hin. apply Hok.
    rewrite Hsched.
    apply elem_of_app in Hin as [?|?]; apply elem_of_app; [by left|].
    right. by apply list_elem_of_further.
Qed.

Lemma step_keeps_entry st st' task_id :
  step st st' →
  is_Some (task_store st !! task_id) → is_Some (task_store st' !! task_id).
Proof.
  assert (∀ k payload t st0,
            is_Some (task_store st0 !! task_id) →
            is_Some (task_store (accept k payload t st0) !! task_id)) as Haccept.
  { intros k payload t st0 Hsome. simpl.
    destruct (decide (k = task_id)) as [->|Hne].
    - rewrite lookup_insert_eq. by eexists.
    - by rewrite lookup_insert_ne. }
  intros [request st0 _|request st0 _|t before after st0 Hsched] Hsome.
  - rewrite deploy_app_eq. cbv zeta. destruct (accepts _ _ _); [|done].
    apply Haccept. by rewrite after_verify_task_store.
  - rewrite revise_app_eq. cbv zeta. destruct (accepts _ _ _); [|done].
    destruct (task_store st0 !! (_ +:+ _)); cbn [snd].
    + apply Haccept. by rewrite after_verify_task_store.
    + by rewrite after_verify_task_store.
  - destruct (keeps_run_task write_temp_file uuid4_hex generate_app_code
                create_repository update_repository get_latest_commit post t
                (set_scheduled (λ _, before ++ after) st0)) as (_ & _ & Hreq).
    specialize (Hreq task_id). simpl in Hreq.
    destruct Hsome as [record Hrec]. rewrite Hrec in Hreq.
    destruct (task_store (snd _) !! task_id); [by eexists|done].
Qed.

(** X12: the statuses of the task store.  In every state the process
    can reach, every entry of the task store has one of the four statuses
    [processing], [completed], [evaluation_failed] and [failed]. *)
Theorem reachable_statuses st task_id record :
  reachable st → task_store st !! task_id = Some record →
  status record ∈ statuses.
Proof.
  intros Hreach. revert task_id record. change (statuses_ok st).
  eapply (rtc_ind_r (λ st0, statuses_ok st0)); [| |exact Hreach].
  - intros task_id record. simpl. by rewrite lookup_empty.
  - intros st1 st2 _ Hstep Hok. by eapply step_statuses_ok.
Qed.

(** X13: no task is scheduled without the secret check.  In every state
    the process can reach, the requester of every scheduled task is bound
    in the secret registry to the secret that the request of the task
    presented. *)
Theorem reachable_scheduled_authenticated st t :
  reachable st → t ∈ scheduled st →
  SECRET_STORE st !! task_email t = Some (task_secret t).
Proof.
  intros Hreach. revert t. change (scheduled_authenticated st).
  eapply (rtc_ind_r (λ st0, scheduled_authenticated st0)); [| |exact Hreach].
  - intros t. simpl. by intros ?%elem_of_nil.
  - intros st1 st2 _ Hstep Hok. by eapply step_scheduled_authenticated.
Qed.

(** X14: an accepted build request of round 1 opens its task for
    revision, for good.  Whatever the process does after it accepted a
    round-1 build request, the entry stays in the task store: every later
    revision request for the same task that passes the secret check is
    accepted, and one from the same requester with the same secret does
    pass it. *)
Theorem accepted_build_enables_revision build st st' :
  BuildRequest.round build = 1 →
  accepts st (BuildRequest.email build) (BuildRequest.secret build) = true →
  rtc step (snd (Main.deploy_app build st)) st' →
  (∀ rev, RevisionRequest.task rev = BuildRequest.task build →
          accepts st' (RevisionRequest.email rev) (RevisionRequest.secret rev) = true →
          fst (Main.revise_app rev st') =
            Return (Main.accepted (Main.task_id_of (RevisionRequest.task rev)
                                                   (RevisionRequest.round rev)))) ∧
  (∀ rev, RevisionRequest.email rev = BuildRequest.email build →
          RevisionRequest.secret rev = BuildRequest.secret build →
          accepts st' (RevisionRequest.email rev) (RevisionRequest.secret rev) = true).
Proof.
  intros Hround Hacc Hsteps.
  assert (is_Some (task_store st' !! (BuildRequest.task build +:+ "-1")) ∧
          SECRET_STORE st' !! BuildRequest.email build
            = Some (BuildRequest.secret build)) as [Hentry Hbound].
  { eapply (rtc_ind_r
              (λ st0, is_Some (task_store st0 !! (BuildRequest.task build +:+ "-1")) ∧
                      SECRET_STORE st0 !! BuildRequest.email build
                        = Some (BuildRequest.secret build)));
      [| |exact Hsteps].
    - rewrite deploy_app_eq. cbv zeta. rewrite Hacc, Hround. simpl. split.
      + change (Main.task_id_of (BuildRequest.task build) 1)
          with (BuildRequest.task build +:+ "-1").
        rewrite lookup_insert_eq. by eexists.
      + by apply after_verify_accepts.
    - intros st1 st2 _ Hstep [IHentry IHbound]. split.
      + by eapply step_keeps_entry.
      + by eapply step_keeps_binding. }
  split.
  - intros rev Htask Hpass. rewrite revise_app_eq. cbv zeta.
    rewrite Hpass, Htask. by destruct Hentry as [record ->].
  - intros rev -> ->. unfold accepts. rewrite Hbound. apply String.eqb_refl.
Qed.

(** X15: the gate of the revision pipeline.  A revision run reads the
    key [repo_name] of the stored round-1 request.  Unless the round-1
    entry is there and its request has a truthy [repo_name], the run
    calls no adapter and its only event is the status write [failed];
    where it is, the run starts with the generation call for that
    repository. *)
Theorem revision_run_gate req st :
  ((∀ repo_name, ¬ names_repository st req repo_name) →
   ∀ record,
     task_store st !! task_key (RevisionTask req) = Some record →
     run_task (RevisionTask req) st =
       (Return tt,
        observe [EvSetStatus (task_key (RevisionTask req)) "failed"]
          (set_task_store
             (<[task_key (RevisionTask req) :=
                  {| request := request record; status := "failed" |}]>) st))) ∧
  (∀ repo_name, names_repository st req repo_name →
     ∃ evs, log (snd (run_task (RevisionTask req) st)) =
              log st ++
              EvGenerate (RevisionRequest.brief req) (RevisionRequest.checks req)
                (save_attachments write_temp_file (RevisionRequest.attachments req))
                (Some repo_name) :: evs).
Proof.
  split.
  - intros Hunnamed record Hrec. simpl.
    unfold Main.process_revision_request, try_except, bind, Main.stored_request.
    destruct (task_store st !! (RevisionRequest.task req +:+ "-1"))
      as [round1|] eqn:Hround1; simpl.
    + destruct (truthy (default PyNone (request round1 !! "repo_name")))
        eqn:Htruthy; simpl.
      * exfalso.
        destruct (request round1 !! "repo_name") as [repo_name|] eqn:Hname;
          [|done].
        apply (Hunnamed repo_name). by exists round1.
      * by apply set_status_eq.
    + by apply set_status_eq.
  - intros repo_name (round1 & Hround1 & Hname & Htruthy). simpl.
    unfold Main.process_revision_request. cbv zeta.
    change (Main.task_id_of (RevisionRequest.task req) (RevisionRequest.round req))
      with (task_key (RevisionTask req)).
    erewrite try_except_bind_Return;
      [|unfold Main.stored_request; by rewrite Hround1].
    rewrite Hname. simpl default. rewrite Htruthy. simpl negb. cbv iota.
    erewrite try_except_bind_Return; [|reflexivity].
    erewrite try_except_bind_Return; [|reflexivity].
    lazymatch goal with
    | |- ∃ evs, log (snd (?m ?s)) = _ =>
        assert (runs (RevisionTask req) m) as Hrest;
          [|destruct (Hrest s) as ((evs & Hlog & _) & _)]
    end.
    { repeat first [ progress eauto with runs
                   | apply runs_set_status
                   | apply preserves_try_except | apply preserves_bind
                   | intros [] | intros ]. }
    exists evs. rewrite Hlog. simpl. by rewrite <- app_assoc.
Qed.
End runs_more.

Lemma reachable_statuses_witness :
  ∃ record, task_store alpha_revising !! "alpha-2" = Some record ∧
            status record ∈ statuses.
Proof.
  exists {| request := RevisionRequest_dict alpha_revision; status := "processing" |}.
  split; [reflexivity|].
  refine (reachable_statuses no_temp_file sample_uuid4_hex sample_generate
            sample_create sample_update sample_commit third_time_lucky
            alpha_revising "alpha-2" _ _ _); [|reflexivity].
  eapply rtc_l; [apply (Main.step_deploy _ _ _ _ _ _ _ _ alpha_build)|].
  { unfold BuildRequest.valid. simpl. lia. }
  apply rtc_once. apply (Main.step_revise _ _ _ _ _ _ _ _ alpha_revision).
  unfold RevisionRequest.valid. simpl. lia.
Defined.

Lemma reachable_scheduled_authenticated_witness :
  SECRET_STORE alpha_revising !! "a@x.com" = Some "s1".
Proof.
  refine (reachable_scheduled_authenticated no_temp_file sample_uuid4_hex
            sample_generate sample_create sample_update sample_commit
            third_time_lucky alpha_revising (RevisionTask alpha_revision) _ _).
  - eapply rtc_l; [apply (Main.step_deploy _ _ _ _ _ _ _ _ alpha_build)|].
    { unfold BuildRequest.valid. simpl. lia. }
    apply rtc_once. apply (Main.step_revise _ _ _ _ _ _ _ _ alpha_revision).
    unfold RevisionRequest.valid. simpl. lia.
  - change (RevisionTask alpha_revision
            ∈ [BuildTask alpha_build; RevisionTask alpha_revision]).
    apply list_elem_of_further, list_elem_of_here.
Defined.

Lemma accepted_build_enables_revision_witness :
  fst (Main.revise_app alpha_revision alpha_accepted)
    = Return (Main.accepted "alpha-2").
Proof.
  refine (proj1 (accepted_build_enables_revision no_temp_file sample_uuid4_hex
                   sample_generate sample_create sample_update sample_commit
                   third_time_lucky alpha_build init alpha_accepted _ _ _)
            alpha_revision _ _); try reflexivity.
Defined.

(** ** Publication: [create_repository] and what follows it *)

Lemma create_file_no_fault repo (item : string * string) base r :
  GitHub.files r !! item.1 = None →
  (let '(filename, content) := item in
   GitHub.create_file repo filename ("Add " +:+ filename) content)
    {| GitHub.repos := <[GitHub.full_name repo := r]> base; GitHub.faults := [] |} =
  (Return tt,
   {| GitHub.repos := <[GitHub.full_name repo := upsert r item]> base;
      GitHub.faults := [] |}).
Proof.
  destruct item as [filename content]. simpl. intros Hfresh.
  unfold GitHub.create_file, GitHub.api_call, GitHub.write, upsert,
    commit_message, bind.
  simpl. rewrite lookup_insert_eq, Hfresh. by rewrite insert_insert_eq.
Qed.

Lemma for_each_create_no_fault repo (items : list (string * string)) base r :
  NoDup items.*1 →
  (∀ f, f ∈ items.*1 → GitHub.files r !! f = None) →
  for_each (λ item : string * string,
              let '(filename, content) := item in
              GitHub.create_file repo filename ("Add " +:+ filename) content)
           items
    {| GitHub.repos := <[GitHub.full_name repo := r]> base; GitHub.faults := [] |} =
  (Return tt,
   {| GitHub.repos := <[GitHub.full_name repo := foldl upsert r items]> base;
      GitHub.faults := [] |}).
Proof.
  revert r. induction items as [|item items IH]; intros r Hnodup Hfresh; [done|].
  apply NoDup_cons in Hnodup as [Hitem Hnodup].
  cbn [for_each foldl].
  erewrite bind_Return
    by (apply (create_file_no_fault repo item); apply Hfresh, list_elem_of_here).
  apply IH; [done|]. intros f Hf. unfold upsert. simpl.
  rewrite lookup_insert_ne by (intros Heq; apply Hitem; by rewrite Heq).
  by apply Hfresh, list_elem_of_further.
Qed.

Lemma upsert_files_union r items :
  NoDup items.*1 →
  GitHub.files (foldl upsert r items)
    = list_to_map (M := gmap string string) items ∪ GitHub.files r.
Proof.
  intros Hnodup. apply map_eq. intros f. rewrite upsert_files by done.
  rewrite lookup_union.
  by destruct (list_to_map items !! f), (GitHub.files r !! f).
Qed.

Lemma upsert_html_url r items :
  GitHub.html_url (foldl upsert r items) = GitHub.html_url r.
Proof.
  revert r. induction items as [|item items IH]; intros r; [done|].
  cbn [foldl]. by rewrite IH.
Qed.

Lemma create_repo_no_fault login html_url_of name description gh :
  GitHub.repos gh !! (login +:+ "/" +:+ name) = None →
  next_call_succeeds gh →
  ∃ rest,
    Hosting.create_repo html_url_of login name description gh =
      (Return {| GitHub.full_name := login +:+ "/" +:+ name;
                 GitHub.handle_url := html_url_of (login +:+ "/" +:+ name) |},
       {| GitHub.repos :=
            <[login +:+ "/" +:+ name :=
                new_repository (html_url_of (login +:+ "/" +:+ name))]>
              (GitHub.repos gh);
          GitHub.faults := rest |}) ∧
    (GitHub.faults gh = [] → rest = []).
Proof.
  intros Hfree Hnext. destruct gh as [repos faults]. simpl in *.
  unfold Hosting.create_repo, bind, GitHub.api_call. simpl.
  destruct faults as [|[e|] rest]; simpl.
  - exists []. by rewrite Hfree.
  - by destruct (Hnext e rest).
  - exists rest. by rewrite Hfree.
Qed.

Lemma in_provider_eq {A} (m : M GitHub.provider A) h r gh :
  m (Hosting.provider h) = (r, gh) →
  Hosting.in_provider m h =
    (r, {| Hosting.provider := gh; Hosting.has_pages := Hosting.has_pages h;
           Hosting.pages_sites := Hosting.pages_sites h |}).
Proof. intros Hm. unfold Hosting.in_provider. by rewrite Hm. Qed.

Lemma try_except_reraise_state {S A} (m : M S A) class st :
  snd (try_except m class (λ e, raise e) st) = snd (m st).
Proof.
  unfold try_except. destruct (m st) as [[a|e] st']; [done|].
  by destruct (class e).
Qed.

Lemma bind_Raise {S A B} (m : M S A) (k : A → M S B) st e st' :
  m st = (Raise e, st') → bind m k st = (Raise e, st').
Proof. unfold bind. by intros ->. Qed.

Lemma create_repository_no_fault login html_url_of name code description h :
  GitHub.repos (Hosting.provider h) !! (login +:+ "/" +:+ name) = None →
  GitHub.faults (Hosting.provider h) = [] →
  NoDup code.*1 →
  Publication.create_repository login html_url_of name code description h =
    (Raise Hosting.unexpected_has_pages,
     {| Hosting.provider :=
          {| GitHub.repos :=
               <[login +:+ "/" +:+ name :=
                   foldl upsert (new_repository (html_url_of (login +:+ "/" +:+ name)))
                         code]>
                 (GitHub.repos (Hosting.provider h));
             GitHub.faults := [] |};
        Hosting.has_pages := Hosting.has_pages h;
        Hosting.pages_sites := Hosting.pages_sites h |}).
Proof.
  set (full := login +:+ "/" +:+ name). intros Hfree Hfaults Hnodup.
  destruct (create_repo_no_fault login html_url_of name description
              (Hosting.provider h) Hfree) as (rest & Hcreate & Hrest).
  { intros e rest. by rewrite Hfaults. }
  rewrite (Hrest Hfaults) in Hcreate. fold full in Hcreate.
  set (repo := {| GitHub.full_name := full;
                  GitHub.handle_url := html_url_of full |}) in *.
  pose proof (for_each_create_no_fault repo code
                (GitHub.repos (Hosting.provider h))
                (new_repository (html_url_of full))
                Hnodup (λ f _, lookup_empty f)) as Hloop.
  unfold Publication.create_repository, try_except. fold full.
  erewrite bind_Return by (apply in_provider_eq, Hcreate).
  erewrite bind_Return by (apply in_provider_eq, Hloop).
  erewrite bind_Raise by reflexivity.
  reflexivity.
Qed.

(** Whatever the provider does, [create_repository] raises: the call
    that is to enable the pages raises, and nothing before it returns
    from the method. *)
Lemma create_repository_raises login html_url_of name code description h :
  ∃ e, fst (Publication.create_repository login html_url_of name code
              description h) = Raise e.
Proof.
  unfold Publication.create_repository, try_except, bind.
  destruct (Hosting.in_provider _ h) as [[repo|e] h1].
  - destruct (Hosting.in_provider _ h1) as [[[]|e] h2].
    + by eexists.
    + destruct (is_GithubException e); by eexists.
  - destruct (is_GithubException e); by eexists.
Qed.

Lemma create_repository_pages_kept login html_url_of name code description h :
  Hosting.has_pages (snd (Publication.create_repository login html_url_of name
                            code description h)) = Hosting.has_pages h ∧
  Hosting.pages_sites (snd (Publication.create_repository login html_url_of name
                              code description h)) = Hosting.pages_sites h.
Proof.
  unfold Publication.create_repository.
  rewrite try_except_reraise_state. unfold bind, Hosting.in_provider.
  destruct (Hosting.create_repo _ _ _ _ _) as [[repo|e] gh1]; [|done].
  by destruct (for_each _ _ _) as [[[]|e] gh2].
Qed.

Lemma update_repository_no_fault login name code gh r :
  GitHub.repos gh !! (login +:+ "/" +:+ name) = Some r →
  GitHub.faults gh = [] →
  GitHubClient.update_repository login name code gh =
    (Return (GitHub.html_url r, pages_url_of login name),
     {| GitHub.repos :=
          <[login +:+ "/" +:+ name := foldl upsert r (map_to_list code)]>
            (GitHub.repos gh);
        GitHub.faults := [] |}).
Proof.
  set (full := login +:+ "/" +:+ name). intros Hr Hfaults.
  unfold GitHubClient.update_repository, try_except. fold full.
  destruct gh as [repos faults]. simpl in *. subst faults.
  unfold bind at 1. unfold GitHub.get_repo, bind, GitHub.api_call, GitHub.read.
  simpl. rewrite Hr.
  rewrite <- (insert_id repos full r) at 1 by done.
  change full with
    (GitHub.full_name {| GitHub.full_name := full;
                         GitHub.handle_url := GitHub.html_url r |}) at 1.
  rewrite for_each_upsert_no_fault. done.
Qed.

(** X16: [create_repository] never returns.  The call
    [repo.edit(has_pages=True)] raises [TypeError], which is not a
    [GithubException] and so leaves the method: whatever the provider
    does, [create_repository] raises, and the pages settings are what
    they were.  On a free name, with no failing call to the provider, it
    raises that [TypeError] after it has created the repository, which
    then holds exactly the generated files, by one commit [Add f] each,
    in the order of the dictionary. *)
Theorem create_repository_stops_at_edit login html_url_of name code description h :
  (∀ urls, fst (Publication.create_repository login html_url_of name code
                  description h) ≠ Return urls) ∧
  Hosting.has_pages (snd (Publication.create_repository login html_url_of name
                            code description h)) = Hosting.has_pages h ∧
  Hosting.pages_sites (snd (Publication.create_repository login html_url_of name
                              code description h)) = Hosting.pages_sites h ∧
  (GitHub.repos (Hosting.provider h) !! (login +:+ "/" +:+ name) = None →
   GitHub.faults (Hosting.provider h) = [] →
   NoDup code.*1 →
   ∃ h' r',
     Publication.create_repository login html_url_of name code description h
       = (Raise Hosting.unexpected_has_pages, h') ∧
     is_GithubException Hosting.unexpected_has_pages = false ∧
     GitHub.repos (Hosting.provider h')
       = <[login +:+ "/" +:+ name := r']> (GitHub.repos (Hosting.provider h)) ∧
     GitHub.html_url r' = html_url_of (login +:+ "/" +:+ name) ∧
     GitHub.files r' = list_to_map code ∧
     GitHub.commits r' = (λ item, "Add " +:+ item.1) <$> code).
Proof.
  split; [|split; [|split]].
  - intros urls.
    destruct (create_repository_raises login html_url_of name code description h)
      as [e ->]. discriminate.
  - apply create_repository_pages_kept.
  - apply create_repository_pages_kept.
  - intros Hfree Hfaults Hnodup. eexists. eexists.
    split; [by apply create_repository_no_fault|]. simpl.
    split; [done|]. split; [done|]. split; [apply upsert_html_url|]. split.
    + rewrite upsert_files_union by done. simpl. by rewrite (right_id_L ∅ (∪)).
    + by rewrite upsert_commits.
Qed.

Lemma create_repository_stops_at_edit_witness :
  ∃ h' r',
    Publication.create_repository "octo" sample_html_url "alpha-01234567"
      round1_items "Generated app" empty_hosting
      = (Raise Hosting.unexpected_has_pages, h') ∧
    GitHub.repos (Hosting.provider h') = <["octo/alpha-01234567" := r']> ∅ ∧
    GitHub.commits r' = ["Add index.html"; "Add old.css"].
Proof.
  destruct (proj2 (proj2 (proj2
              (create_repository_stops_at_edit "octo" sample_html_url
                 "alpha-01234567" round1_items "Generated app" empty_hosting)))
              eq_refl eq_refl)
    as (h' & r' & Hrun & _ & Hrepos & _ & _ & Hcommits).
  { apply NoDup_cons_2; [|apply NoDup_singleton].
    intros ?%list_elem_of_singleton. discriminate. }
  exists h', r'. split; [exact Hrun|]. split; [exact Hrepos|exact Hcommits].
Defined.

(** X17: [create_repository] on a taken name.  When the account already
    has a repository of the name and the call reaches the provider,
    [create_repository] raises the provider's [GithubException] and
    leaves the repositories and the pages settings as they were. *)
Theorem create_repository_name_taken login html_url_of name code description h r :
  GitHub.repos (Hosting.provider h) !! (login +:+ "/" +:+ name) = Some r →
  next_call_succeeds (Hosting.provider h) →
  let h' := snd (Publication.create_repository login html_url_of name code
                   description h) in
  fst (Publication.create_repository login html_url_of name code description h)
    = Raise (GithubException "422 Unprocessable Entity") ∧
  GitHub.repos (Hosting.provider h') = GitHub.repos (Hosting.provider h) ∧
  Hosting.has_pages h' = Hosting.has_pages h ∧
  Hosting.pages_sites h' = Hosting.pages_sites h.
Proof.
  intros Hr Hnext.
  assert (∃ rest,
            Publication.create_repository login html_url_of name code description h
            = (Raise (GithubException "422 Unprocessable Entity"),
               {| Hosting.provider :=
                    {| GitHub.repos := GitHub.repos (Hosting.provider h);
                       GitHub.faults := rest |};
                  Hosting.has_pages := Hosting.has_pages h;
                  Hosting.pages_sites := Hosting.pages_sites h |}))
    as [rest ->]; [|done].
  destruct h as [[repos faults] has_pages pages_sites]. simpl in *.
  unfold Publication.create_repository, try_except, bind,
    Hosting.in_provider, Hosting.create_repo, bind, GitHub.api_call.
  simpl. destruct faults as [|[e|] rest]; simpl.
  - exists []. by rewrite Hr.
  - by destruct (Hnext e rest).
  - exists rest. by rewrite Hr.
Qed.

Lemma create_repository_name_taken_witness :
  fst (Publication.create_repository "octo" sample_html_url "alpha-01234567"
         revision_items "Generated app"
         {| Hosting.provider := round1_provider;
            Hosting.has_pages := ∅; Hosting.pages_sites := ∅ |})
    = Raise (GithubException "422 Unprocessable Entity").
Proof.
  refine (proj1 (create_repository_name_taken "octo" sample_html_url
                   "alpha-01234567" revision_items "Generated app"
                   {| Hosting.provider := round1_provider;
                      Hosting.has_pages := ∅; Hosting.pages_sites := ∅ |}
                   round1_repository _ _)).
  - reflexivity.
  - intros e rest. simpl. discriminate.
Defined.

(** *** Nothing is rolled back *)

#[local] Instance repos_kept_preorder : PreOrder repos_kept.
Proof.
  split.
  - by intros gh full.
  - intros gh1 gh2 gh3 H12 H23 full Hsome. by apply H23, H12.
Qed.

#[local] Instance hosted_kept_preorder : PreOrder hosted_kept.
Proof.
  split.
  - intros h. unfold hosted_kept. reflexivity.
  - intros h1 h2 h3. unfold hosted_kept. intros H12 H23. by etrans.
Qed.

Lemma kept_api_call : preserves repos_kept GitHub.api_call.
Proof.
  intros gh full. unfold GitHub.api_call.
  by destruct (GitHub.faults gh) as [|[e|] rest].
Qed.

Lemma kept_insert (repos : gmap string GitHub.repository) full r full' :
  is_Some (repos !! full') → is_Some (<[full := r]> repos !! full').
Proof.
  intros Hsome. destruct (decide (full = full')) as [->|Hne].
  - rewrite lookup_insert_eq. by eexists.
  - by rewrite lookup_insert_ne.
Qed.

Lemma kept_write full g : preserves repos_kept (GitHub.write full g).
Proof.
  intros gh full'. unfold GitHub.write.
  destruct (GitHub.repos gh !! full) as [r|]; [|done].
  destruct (g r) as [r'|e]; [|done]. simpl. apply kept_insert.
Qed.

Lemma kept_create_file repo path message content :
  preserves repos_kept (GitHub.create_file repo path message content).
Proof.
  unfold GitHub.create_file. apply preserves_bind; [apply _|apply kept_api_call|].
  intros _. apply kept_write.
Qed.

Lemma kept_in_provider {A} (m : M GitHub.provider A) :
  preserves repos_kept m → preserves hosted_kept (Hosting.in_provider m).
Proof.
  intros Hm h. unfold Hosting.in_provider, hosted_kept.
  specialize (Hm (Hosting.provider h)).
  by destruct (m (Hosting.provider h)) as [r gh].
Qed.

Lemma kept_edit_has_pages repo : preserves hosted_kept (Hosting.edit_has_pages repo).
Proof. unfold Hosting.edit_has_pages. apply preserves_raise, _. Qed.

Lemma kept_create_pages_site repo :
  preserves hosted_kept (Hosting.create_pages_site repo).
Proof. unfold Hosting.create_pages_site. apply preserves_raise, _. Qed.

Lemma kept_create_repo html_url_of login name description :
  preserves repos_kept (Hosting.create_repo html_url_of login name description).
Proof.
  unfold Hosting.create_repo. apply preserves_bind; [apply _|apply kept_api_call|].
  intros _ gh full'.
  destruct (GitHub.repos gh !! (login +:+ "/" +:+ name)); [done|].
  simpl. apply kept_insert.
Qed.

Lemma kept_publish_files repo (code : list (string * string))
    (urls : string * string) :
  preserves hosted_kept
    (Hosting.in_provider
       (for_each (λ item : string * string,
                    let '(filename, content) := item in
                    GitHub.create_file repo filename ("Add " +:+ filename) content)
                 code) ;;;
     Hosting.edit_has_pages repo ;;;
     Hosting.create_pages_site repo ;;;
     ret urls).
Proof.
  apply preserves_bind; [apply _| |intros _].
  { apply kept_in_provider, preserves_for_each; [apply _|].
    intros [filename content] _. apply kept_create_file. }
  apply preserves_bind; [apply _|apply kept_edit_has_pages|intros _].
  apply preserves_bind; [apply _|apply kept_create_pages_site|intros _].
  apply preserves_ret, _.
Qed.

(** X18: [create_repository] rolls nothing back.  Whether it returns or
    raises, no repository of the provider disappears; and on a free
    name, once the first call has reached the provider, the new
    repository stays, also when a later call fails and
    [create_repository] raises. *)
Theorem create_repository_keeps_repositories login html_url_of name code
    description h :
  let h' := snd (Publication.create_repository login html_url_of name code
                   description h) in
  (∀ other, is_Some (GitHub.repos (Hosting.provider h) !! other) →
            is_Some (GitHub.repos (Hosting.provider h') !! other)) ∧
  (GitHub.repos (Hosting.provider h) !! (login +:+ "/" +:+ name) = None →
   next_call_succeeds (Hosting.provider h) →
   is_Some (GitHub.repos (Hosting.provider h') !! (login +:+ "/" +:+ name))).
Proof.
  intros h'. subst h'. unfold Publication.create_repository.
  rewrite try_except_reraise_state. split.
  - apply (preserves_bind hosted_kept).
    + apply kept_in_provider, kept_create_repo.
    + intros repo. apply kept_publish_files.
  - intros Hfree Hnext.
    destruct (create_repo_no_fault login html_url_of name description
                (Hosting.provider h) Hfree Hnext) as (rest & Hcreate & _).
    erewrite bind_Return by (apply in_provider_eq, Hcreate).
    apply kept_publish_files. simpl. rewrite lookup_insert_eq. by eexists.
Qed.

Section publishing_runs.
Variable write_temp_file : Attachment → result string.
Variable uuid4_hex : nat → string.
Variable generate_app_code :
  string → list string → list string → option pyobj
  → result (list (string * string)).
Variable create_repository :
  string → list (string * string) → string → result (string * string).
Variable update_repository :
  pyobj → list (string * string) → result (string * string).
Variable get_latest_commit : pyobj → result string.
Variable post : string → EvaluationResponse → Z → outcome.
Variables (login : string) (html_url_of : string → string).

(** The publication adapter of the run is the client's
    [create_repository], in whatever state the provider is at the call. *)
Hypothesis create_repository_is_the_client :
  ∀ name code description, ∃ h,
    create_repository name code description
    = fst (Publication.create_repository login html_url_of name code
             description h).

(** X19: a build run ends at the publication.  With the client's
    [create_repository] as publication adapter, every build run of a task
    with an entry ends with status [failed]: either the generation
    raises, or the repository is asked for and [create_repository]
    raises.  The run never reads a commit back and never POSTs to the
    evaluation service. *)
Theorem build_run_fails_at_publication req st record :
  let task_id := Main.task_id_of (BuildRequest.task req) (BuildRequest.round req) in
  let generation :=
    EvGenerate (BuildRequest.brief req) (BuildRequest.checks req)
      (save_attachments write_temp_file (BuildRequest.attachments req)) None in
  let repo_name :=
    BuildRequest.task req +:+ "-"
    +:+ String.substring 0 8 (uuid4_hex (uuids_drawn st)) in
  task_store st !! task_id = Some record →
  ∃ st' evs,
    Main.run_task (list (string * string)) write_temp_file uuid4_hex
      generate_app_code create_repository update_repository get_latest_commit
      post (BuildTask req) st = (Return tt, st') ∧
    task_store st' =
      <[task_id := {| request := request record; status := "failed" |}]>
        (task_store st) ∧
    log st' = log st ++ evs ++ [EvSetStatus task_id "failed"] ∧
    (evs = [generation] ∨ evs = [generation; EvCreateRepository repo_name]).
Proof.
  intros task_id generation repo_name Hrec.
  cbn [Main.run_task].
  unfold Main.process_build_request, try_except, bind, emit, lift, Main.uuid4.
  fold task_id.
  cbn -[EvaluationClient.submit_evaluation Main.set_status String.append
        String.substring save_attachments task_id].
  destruct (generate_app_code _ _ _ _) as [code|e_gen].
  2:{ eexists _, [generation].
      split; [apply (set_status_eq _ _ record); exact Hrec|]. simpl.
      split; [done|]. split; [by rewrite <- app_assoc|by left]. }
  destruct (create_repository _ code _) as [urls|e_pub] eqn:Hpub.
  { destruct (create_repository_is_the_client
                (BuildRequest.task req +:+ "-"
                 +:+ String.substring 0 8 (uuid4_hex (uuids_drawn st)))
                code
                ("Generated app for: "
                 +:+ String.substring 0 100 (BuildRequest.brief req) +:+ "..."))
      as [h Hclient].
    destruct (create_repository_raises login html_url_of
                (BuildRequest.task req +:+ "-"
                 +:+ String.substring 0 8 (uuid4_hex (uuids_drawn st)))
                code
                ("Generated app for: "
                 +:+ String.substring 0 100 (BuildRequest.brief req) +:+ "...") h)
      as [e He].
    rewrite Hpub, He in Hclient. discriminate. }
  eexists _, [generation; EvCreateRepository repo_name].
  split; [apply (set_status_eq _ _ record); exact Hrec|]. simpl.
  split; [done|]. split; [by rewrite <- !app_assoc|by right].
Qed.
End publishing_runs.

Lemma build_run_fails_at_publication_witness :
  ∃ st' evs,
    Main.run_task (list (string * string)) no_temp_file sample_uuid4_hex
      sample_generate_items sample_publish sample_update_items sample_commit
      third_time_lucky (BuildTask alpha_build) alpha_accepted = (Return tt, st') ∧
    task_store st' =
      <["alpha-1" := {| request := BuildRequest_dict alpha_build;
                        status := "failed" |}]> (task_store alpha_accepted) ∧
    log st' = log alpha_accepted ++ evs ++ [EvSetStatus "alpha-1" "failed"].
Proof.
  destruct (build_run_fails_at_publication no_temp_file sample_uuid4_hex
              sample_generate_items sample_publish sample_update_items
              sample_commit third_time_lucky "octo" sample_html_url
              (λ name code description,
                 ex_intro _ empty_hosting eq_refl)
              alpha_build alpha_accepted
              {| request := BuildRequest_dict alpha_build; status := "processing" |}
              eq_refl)
    as (st' & evs & Hrun & Hstore & Hlog & _).
  exists st', evs. split; [exact Hrun|]. split; [exact Hstore|exact Hlog].
Defined.

(** X20: a repeated update changes no file.  When the repository exists
    and no call fails, a second [update_repository] with the same files
    returns the same addresses and leaves every file as the first left
    it; it still makes one commit [Update f] for every file of the set. *)
Theorem update_repository_twice login name code gh r :
  let full := login +:+ "/" +:+ name in
  GitHub.repos gh !! full = Some r →
  GitHub.faults gh = [] →
  ∃ urls gh1 gh2 r1 r2,
    GitHubClient.update_repository login name code gh = (Return urls, gh1) ∧
    GitHubClient.update_repository login name code gh1 = (Return urls, gh2) ∧
    GitHub.repos gh1 !! full = Some r1 ∧
    GitHub.repos gh2 !! full = Some r2 ∧
    GitHub.files r2 = GitHub.files r1 ∧
    GitHub.commits r2 =
      GitHub.commits r1 ++ ((λ item, "Update " +:+ item.1) <$> map_to_list code).
Proof.
  intros full Hr Hfaults.
  assert (NoDup (map_to_list code).*1) as Hnodup by apply NoDup_fst_map_to_list.
  set (r1 := foldl upsert r (map_to_list code)).
  assert (GitHub.files r1 = code ∪ GitHub.files r) as Hfiles1.
  { unfold r1. rewrite upsert_files_union by done.
    by rewrite list_to_map_to_list. }
  eexists. eexists. eexists. exists r1, (foldl upsert r1 (map_to_list code)).
  split; [by apply update_repository_no_fault|].
  split; [|split; [|split; [|split]]].
  - erewrite update_repository_no_fault;
      [|simpl; apply lookup_insert_eq|done].
    fold full. fold r1. unfold r1 at 1. rewrite upsert_html_url. reflexivity.
  - simpl. apply lookup_insert_eq.
  - simpl. apply lookup_insert_eq.
  - rewrite upsert_files_union by done.
    rewrite list_to_map_to_list, Hfiles1.
    by rewrite (assoc_L (∪)), (idemp_L (∪)).
  - rewrite upsert_commits by done. f_equal.
    apply list_fmap_ext. intros i [filename content] Hitem.
    unfold commit_message. simpl. rewrite Hfiles1.
    assert (code !! filename = Some content) as Hcode.
    { apply elem_of_map_to_list. by eapply list_elem_of_lookup_2. }
    by rewrite (lookup_union_Some_l _ _ _ _ Hcode).
Qed.

Lemma update_repository_twice_witness :
  ∃ urls gh1 gh2 r1 r2,
    GitHubClient.update_repository "octo" "alpha-01234567" revision_code
      round1_provider = (Return urls, gh1) ∧
    GitHubClient.update_repository "octo" "alpha-01234567" revision_code gh1
      = (Return urls, gh2) ∧
    GitHub.repos gh1 !! "octo/alpha-01234567" = Some r1 ∧
    GitHub.repos gh2 !! "octo/alpha-01234567" = Some r2 ∧
    GitHub.files r2 = GitHub.files r1.
Proof.
  destruct (update_repository_twice "octo" "alpha-01234567" revision_code
              round1_provider round1_repository eq_refl eq_refl)
    as (urls & gh1 & gh2 & r1 & r2 & H1 & H2 & Hr1 & Hr2 & Hfiles & _).
  exists urls, gh1, gh2, r1, r2.
  split; [exact H1|]. split; [exact H2|]. split; [exact Hr1|].
  split; [exact Hr2|exact Hfiles].
Defined.

(** X21: [get_latest_commit] only reads.  Whatever the provider does,
    the repositories are after the call what they were before; and when
    no call fails, it returns the identifier of the head commit if the
    account has the repository and the repository has a commit, and
    ["unknown"] otherwise. *)
Theorem get_latest_commit_reads login commit_id repo_name gh :
  GitHub.repos (snd (GitHubClient.get_latest_commit login commit_id repo_name gh))
    = GitHub.repos gh ∧
  (GitHub.faults gh = [] →
   fst (GitHubClient.get_latest_commit login commit_id repo_name gh) =
     Return match GitHub.repos gh !! (login +:+ "/" +:+ repo_name) with
            | Some r => match GitHub.commits r with
                        | [] => "unknown"
                        | _ :: _ => commit_id (GitHub.commits r)
                        end
            | None => "unknown"
            end).
Proof.
  rewrite get_latest_commit_eq.
  unfold GitHubClient.latest_commit_lookup, GitHub.get_repo,
    GitHub.get_branch_commit_sha, bind, GitHub.api_call, GitHub.read.
  destruct gh as [repos faults]. simpl. split.
  - destruct faults as [|[e|] rest]; simpl.
    + destruct (repos !! _) as [r|]; simpl; [|done].
      destruct (repos !! _) as [r'|]; simpl; [|done].
      by destruct (GitHub.commits r').
    + by destruct e.
    + destruct (repos !! _) as [r|]; simpl; [|done].
      destruct rest as [|[e|] rest]; simpl.
      * destruct (repos !! _) as [r'|]; simpl; [|done].
        by destruct (GitHub.commits r').
      * by destruct e.
      * destruct (repos !! _) as [r'|]; simpl; [|done].
        by destruct (GitHub.commits r').
  - intros ->. simpl.
    destruct (repos !! (login +:+ "/" +:+ repo_name)) as [r|] eqn:Hr; simpl;
      [|done].
    rewrite Hr. by destruct (GitHub.commits r).
Qed.

Lemma get_latest_commit_reads_witness :
  fst (GitHubClient.get_latest_commit "octo" sample_commit_id "alpha-01234567"
         round1_provider) = Return "sha-2".
Proof.
  refine (proj2 (get_latest_commit_reads "octo" sample_commit_id "alpha-01234567"
                   round1_provider) _).
  reflexivity.
Defined.

(** ** Generation: what is parsed and what is kept *)

Lemma find_from_first pre c rest i :
  occurs pre c = false →
  find_from (pre +:+ String c rest) c i = i + len pre.
Proof.
  unfold len. revert i. induction pre as [|a pre IH]; intros i; simpl.
  - intros _. rewrite Ascii.eqb_refl. lia.
  - intros [-> Hpre]%orb_false_elim. rewrite IH by done. lia.
Qed.

Lemma rfind_from_absent s c i last :
  occurs s c = false → rfind_from s c i last = last.
Proof.
  revert i last. induction s as [|a s IH]; intros i last; simpl; [done|].
  intros [-> Hs]%orb_false_elim. by apply IH.
Qed.

Lemma rfind_from_last s c post i last :
  occurs post c = false →
  rfind_from (s +:+ String c post) c i last = i + len s.
Proof.
  unfold len. intros Hpost. revert i last.
  induction s as [|a s IH]; intros i last; simpl.
  - rewrite Ascii.eqb_refl, rfind_from_absent by done. lia.
  - rewrite IH. lia.
Qed.

Lemma substring_take a b n :
  String.substring 0 (String.length a + n) (a +:+ b)
    = a +:+ String.substring 0 n b.
Proof. induction a as [|c a IH]; simpl; [done|by rewrite IH]. Qed.

(** X22: the text handed to [json.loads].  For a generated text with an
    opening brace and a later closing brace, [_parse_generated_code]
    hands [json.loads] the text from the first opening brace to the last
    closing brace, both included, whatever surrounds them. *)
Theorem json_str_of_braces pre body post :
  occurs pre "{" = false → occurs post "}" = false →
  json_str_of (pre +:+ String "{" (body +:+ String "}" post))
    = String "{" (body +:+ "}").
Proof.
  intros Hpre Hpost. unfold json_str_of, slice, find, rfind.
  rewrite find_from_first by done.
  assert (rfind_from (pre +:+ String "{" (body +:+ String "}" post)) "}" 0 (-1)
          = 0 + len (pre +:+ String "{" body)) as ->.
  { rewrite <- (rfind_from_last _ "}" post 0 (-1)) by done.
    by rewrite append_assoc. }
  assert (len (pre +:+ String "{" (body +:+ String "}" post))
          = len pre + len body + 2 + len post) as ->.
  { unfold len. rewrite length_append. simpl. rewrite length_append. simpl. lia. }
  assert (len (pre +:+ String "{" body) = len pre + 1 + len body) as ->.
  { unfold len. rewrite length_append. simpl. lia. }
  unfold clip, len.
  destruct (Z.ltb_spec (0 + Z.of_nat (String.length pre)) 0); [lia|].
  destruct (Z.ltb_spec (0 + (Z.of_nat (String.length pre) + 1
                             + Z.of_nat (String.length body)) + 1) 0); [lia|].
  replace (Z.to_nat (Z.min _ _)) with (String.length pre) by lia.
  replace (Z.to_nat (Z.min _ _ - Z.min _ _))
    with (S (String.length body + 1)) by lia.
  rewrite substring_skip, substring_take. simpl. by rewrite substring_none.
Qed.

Lemma json_str_of_braces_witness : json_str_of "Sure! {} done" = "{}".
Proof.
  apply (json_str_of_braces "Sure! " EmptyString " done"); reflexivity.
Defined.

Lemma ensure_required_completed brief d files :
  ∃ d', LLMClient.ensure_required brief (PyDict d) files tt
          = (Return (PyDict d'), tt) ∧
        ∀ f, d' !! f =
             match d !! f with
             | Some v => Some v
             | None => if bool_decide (f ∈ files)
                       then Some (PyStr (LLMClient._get_template_file f brief))
                       else None
             end.
Proof.
  revert d. induction files as [|file files IH]; intros d.
  { exists d. split; [done|]. intros f. destruct (d !! f); [done|].
    rewrite bool_decide_eq_false_2; [done|]. by intros ?%elem_of_nil. }
  cbn [LLMClient.ensure_required]. unfold bind at 1, lift at 1. simpl.
  destruct (decide (is_Some (d !! file))) as [Hin|Hout].
  - rewrite bool_decide_eq_true_2 by done.
    destruct (IH d) as (d' & Hrun & Hlookup).
    exists d'. split; [done|]. intros f. rewrite Hlookup.
    destruct (d !! f) eqn:Hf; [done|].
    assert (bool_decide (f ∈ files) = bool_decide (f ∈ file :: files)) as ->;
      [|done].
    apply bool_decide_ext. rewrite elem_of_cons. split; [by right|].
    intros [->|?]; [|done]. rewrite Hf in Hin. by destruct Hin.
  - rewrite bool_decide_eq_false_2 by done. unfold bind at 1, lift at 1. simpl.
    destruct (IH (<[file := PyStr (LLMClient._get_template_file file brief)]> d))
      as (d' & Hrun & Hlookup).
    exists d'. split; [done|]. intros f. rewrite Hlookup.
    destruct (decide (file = f)) as [<-|Hne].
    + rewrite lookup_insert_eq.
      destruct (d !! file) eqn:Hfile; [destruct Hout; by eexists|].
      rewrite bool_decide_eq_true_2; [done|]. apply list_elem_of_here.
    + rewrite lookup_insert_ne by done. destruct (d !! f); [done|].
      assert (bool_decide (f ∈ files) = bool_decide (f ∈ file :: files)) as ->;
        [|done].
      apply bool_decide_ext. rewrite elem_of_cons. split; [by right|].
      by intros [->|?].
Qed.

Section generation_more.
Variable generator : option (string → result string).
Variable json_loads : string → result pyobj.
Variable json_dumps : pyobj → string.

Lemma parse_generated_code_loaded generated_text brief v :
  json_loads (json_str_of generated_text) = Return v →
  LLMClient._parse_generated_code json_loads generated_text brief tt
    = LLMClient.ensure_required brief v LLMClient.required_files tt.
Proof.
  intros Hloads. unfold LLMClient._parse_generated_code. cbv zeta.
  unfold bind at 1, try_except, lift. fold (json_str_of generated_text).
  by rewrite Hloads.
Qed.

(** X23: what is generated is kept.  When the JSON text of the generated
    text parses to a dictionary, [generate_app_code] returns that
    dictionary completed: every parsed entry as it was parsed, under any
    name and with any value, and the template of each required file that
    was not generated; nothing else. *)
Theorem generate_app_code_keeps_generated generate brief checks attachments
    existing_repo generated_text d :
  generator = Some generate →
  generate (LLMClient._build_prompt brief checks attachments existing_repo)
    = Return generated_text →
  json_loads (json_str_of generated_text) = Return (PyDict d) →
  ∃ d',
    LLMClient.generate_app_code generator json_loads json_dumps
      brief checks attachments existing_repo tt = (Return (PyDict d'), tt) ∧
    ∀ f, d' !! f = completed brief d f.
Proof.
  intros -> Hgenerated Hloads.
  destruct (ensure_required_completed brief d LLMClient.required_files)
    as (d' & Hrun & Hlookup).
  exists d'. split; [|exact Hlookup].
  unfold LLMClient.generate_app_code, try_except. cbv zeta.
  unfold bind at 1, lift at 1. rewrite Hgenerated.
  by erewrite parse_generated_code_loaded, Hrun by done.
Qed.

(** X24: without a model, the template.  When no generator was loaded,
    and [json.loads] reads the dumped template file set back or fails,
    [generate_app_code] returns the template file set of the brief,
    whatever the checks, the attachments and the repository named. *)
Theorem generate_app_code_without_generator brief checks attachments existing_repo :
  generator = None →
  (let dumped := json_dumps (PyDict (LLMClient._generate_template_code_dict brief)) in
   json_loads (json_str_of dumped)
     = Return (PyDict (LLMClient._generate_template_code_dict brief)) ∨
   ∃ e, json_loads (json_str_of dumped) = Raise e) →
  LLMClient.generate_app_code generator json_loads json_dumps
    brief checks attachments existing_repo tt
    = (Return (PyDict (LLMClient._generate_template_code_dict brief)), tt).
Proof.
  intros -> Hloads. cbv zeta in Hloads.
  unfold LLMClient.generate_app_code, try_except. cbv zeta.
  unfold bind at 1, ret at 1, LLMClient._generate_template_code.
  destruct Hloads as [Hback|[e Hfail]].
  - erewrite parse_generated_code_loaded by exact Hback.
    destruct (ensure_required_dict brief
                (LLMClient._generate_template_code_dict brief)
                LLMClient.required_files) as (d' & Hrun & _ & _ & Hsame).
    rewrite Hrun, Hsame; [done|]. apply template_dict_required.
  - by erewrite parse_generated_code_fallback by exact Hfail.
Qed.
End generation_more.

Lemma generate_app_code_keeps_generated_witness :
  ∃ d',
    LLMClient.generate_app_code (Some chatty_generator) braces_only_loads no_dumps
      "todo app" ["must load"] [] None tt = (Return (PyDict d'), tt) ∧
    ∀ f, d' !! f = completed "todo app" ∅ f.
Proof.
  apply (generate_app_code_keeps_generated (Some chatty_generator)
           braces_only_loads no_dumps chatty_generator "todo app" ["must load"]
           [] None "Sure! {} done" ∅); reflexivity.
Defined.

Lemma generate_app_code_without_generator_witness :
  LLMClient.generate_app_code None template_only_loads no_dumps
    "todo app" ["must load"] [] None tt
    = (Return (PyDict (LLMClient._generate_template_code_dict "todo app")), tt).
Proof.
  apply (generate_app_code_without_generator None template_only_loads no_dumps
           "todo app" ["must load"] [] None); [reflexivity|].
  left. reflexivity.
Defined.
